(** * EV charging platform: tenant scoping, payments, station queries

    A shallow embedding of the tRPC handlers of the platform's services:

    - [services/auth-service/src/trpc.ts]: the request context, the
      [tenantMiddleware] proxy around the Prisma client and the procedure
      builders;
    - [services/auth-service/src/utils/jwt.ts]: [signJWT], [verifyJWT],
      [refreshToken];
    - the auth controller ([login], [register], [refresh], [logout],
      [changePassword]);
    - the station controller ([create], [list], [getById], [update],
      [addPort], [updatePortStatus], [findNearby], [getRealtimeStats]);
    - [services/payment-service/src/controllers/payment.controller.ts]:
      [createPaymentIntent], [confirmPayment], [getPaymentHistory],
      [refundPayment].

    Tables are lists of records in insertion order, Prisma [where] objects
    are finite maps from field names to JavaScript values, and a handler is
    a function from the database to a result and the database it leaves
    behind: a thrown exception is a result, and what was written before the
    throw stays written unless a transaction rolls it back. *)

From Stdlib Require Import Ascii QArith Qround Qabs SpecFloat.
From stdpp Require Import base option strings gmap list sorting pretty.

Local Open Scope string_scope.

(** ** JavaScript values and Prisma filters *)

(** A finite JavaScript number is carried as the rational it denotes; two
    numbers are the same value when they are the same fraction. *)
#[global] Instance Q_eq_dec : EqDecision Q.
Proof. solve_decision. Defined.

(** The scalar values that occur in the [where] objects and the metadata
    of the handlers. *)
Inductive jsval :=
  | JStr (s : string)
  | JBool (b : bool)
  | JNum (q : Q)
  | JNull.

#[global] Instance jsval_eq_dec : EqDecision jsval.
Proof. solve_decision. Defined.

(** A [where] object: field name to required value. *)
Abbreviation where_clause := (gmap string jsval).

(** The argument object of a model method: [args.where] may be absent
    ([undefined]); everything else the call carries ([data], [include],
    [orderBy], ...) is [a_rest]. *)
Record args (D : Type) := mkArgs {
  a_where : option where_clause;
  a_rest : D;
}.
Arguments mkArgs {D} _ _.
Arguments a_where {D} _.
Arguments a_rest {D} _.

(** A table row exposes its columns as JavaScript values; [None] is a
    column the model does not have. *)
Class Model (R : Type) := field : R → string → option jsval.

(** A row satisfies a filter when every field of the filter has the
    required value. A filter on a column the model lacks selects no row. *)
Definition matches `{Model R} (w : where_clause) (r : R) : Prop :=
  map_Forall (λ k v, field r k = Some v) w.

#[global] Instance matches_dec `{Model R} w (r : R) : Decision (matches w r).
Proof. unfold matches. apply _. Defined.

(** An absent [where] selects every row. *)
Definition selects `{Model R} (w : option where_clause) (r : R) : Prop :=
  from_option (λ w, matches w r) True w.

#[global] Instance selects_dec `{Model R} w (r : R) : Decision (selects w r).
Proof. destruct w; simpl; apply _. Defined.

(** ** Exceptions and results *)

Inductive trpc_code :=
  | BAD_REQUEST
  | UNAUTHORIZED
  | FORBIDDEN
  | NOT_FOUND
  | CONFLICT
  | INTERNAL_SERVER_ERROR.

#[global] Instance trpc_code_eq_dec : EqDecision trpc_code.
Proof. solve_decision. Defined.

(** What a handler can throw: a [TRPCError], Prisma's "record to update
    not found" (P2025), a unique-constraint violation (P2002), a raw query
    that the database refuses (P2010), a failure of the payment provider's
    client, a failure of the jsonwebtoken library, bcryptjs refusing its
    arguments. *)
Inductive exn :=
  | TRPCError (code : trpc_code)
  | PrismaNotFound
  | PrismaUnique
  | PrismaRawQuery
  | StripeError
  | JwtError
  | BcryptError.

#[global] Instance exn_eq_dec : EqDecision exn.
Proof. solve_decision. Defined.

Inductive result (A : Type) :=
  | Ok (a : A)
  | Throw (e : exn).
Arguments Ok {A} _.
Arguments Throw {A} _.

(** The code that reaches the caller: tRPC passes a [TRPCError] through
    and reports every other exception as an internal error. *)
Definition response_code (e : exn) : trpc_code :=
  match e with
  | TRPCError c => c
  | _ => INTERNAL_SERVER_ERROR
  end.

(** The error taxonomy of the specification, by response code. *)
Inductive error_class :=
  | AuthenticationError
  | AuthorizationError
  | ValidationError
  | ConflictError
  | NotFoundError
  | InternalError.

#[global] Instance error_class_eq_dec : EqDecision error_class.
Proof. solve_decision. Defined.

Definition classify (c : trpc_code) : error_class :=
  match c with
  | BAD_REQUEST => ValidationError
  | UNAUTHORIZED => AuthenticationError
  | FORBIDDEN => AuthorizationError
  | NOT_FOUND => NotFoundError
  | CONFLICT => ConflictError
  | INTERNAL_SERVER_ERROR => InternalError
  end.

(** ** The tenant isolation middleware (trpc.ts) *)

(** The model methods the proxy wraps. *)
Definition scoped_methods : list string :=
  ["findMany"; "findFirst"; "findUnique"; "count"; "aggregate"].

(** The arguments the underlying model method receives when [modelProp] is
    called with [a] on the proxied client of a caller of tenant
    [tenantId]: for a wrapped method [args.where.tenantId] is assigned (or
    a [where] holding only [tenantId] is created); any other method is the
    original one. *)
Definition tenantMiddleware {D} (tenantId : string) (modelProp : string)
    (a : args D) : args D :=
  if decide (modelProp ∈ scoped_methods) then
    match a_where a with
    | Some w => mkArgs (Some (<["tenantId" := JStr tenantId]> w)) (a_rest a)
    | None => mkArgs (Some {["tenantId" := JStr tenantId]}) (a_rest a)
    end
  else a.

(** The authenticated caller, as [authMiddleware] stores it in [ctx.user]. *)
Record CtxUser := mkCtxUser {
  cu_id : string;
  cu_tenantId : string;
  cu_role : string;
}.

(** The Prisma client of a context: the client itself, or the proxy that
    [tenantMiddleware] puts in its place. *)
Inductive client :=
  | RawClient
  | TenantClient (tenantId : string).

Record Context := mkContext {
  ctx_user : CtxUser;
  ctx_prisma : client;
}.

(** [protectedProcedure]: authentication only. *)
Definition protectedProcedure (u : CtxUser) : Context :=
  mkContext u RawClient.

(** [tenantProcedure]: authentication, then the proxy. *)
Definition tenantProcedure (u : CtxUser) : Context :=
  mkContext u (TenantClient (cu_tenantId u)).

(** The arguments that reach the model method through a client. *)
Definition through {D} (c : client) (modelProp : string) (a : args D) : args D :=
  match c with
  | RawClient => a
  | TenantClient t => tenantMiddleware t modelProp a
  end.

(** ** Data model *)

Inductive PortStatus := AVAILABLE | OCCUPIED | RESERVED | OUT_OF_ORDER | MAINTENANCE.
Inductive ConnectorType := TYPE1 | TYPE2 | CCS1 | CCS2 | CHAdeMO | TESLA | NACS.
Inductive PaymentStatus := PENDING | COMPLETED | FAILED | REFUNDED.

#[global] Instance PortStatus_eq_dec : EqDecision PortStatus.
Proof. solve_decision. Defined.
#[global] Instance ConnectorType_eq_dec : EqDecision ConnectorType.
Proof. solve_decision. Defined.
#[global] Instance PaymentStatus_eq_dec : EqDecision PaymentStatus.
Proof. solve_decision. Defined.

Definition port_status_str (s : PortStatus) : string :=
  match s with
  | AVAILABLE => "AVAILABLE" | OCCUPIED => "OCCUPIED" | RESERVED => "RESERVED"
  | OUT_OF_ORDER => "OUT_OF_ORDER" | MAINTENANCE => "MAINTENANCE"
  end.

Definition connector_str (c : ConnectorType) : string :=
  match c with
  | TYPE1 => "TYPE1" | TYPE2 => "TYPE2" | CCS1 => "CCS1" | CCS2 => "CCS2"
  | CHAdeMO => "CHAdeMO" | TESLA => "TESLA" | NACS => "NACS"
  end.

Definition payment_status_str (s : PaymentStatus) : string :=
  match s with
  | PENDING => "PENDING" | COMPLETED => "COMPLETED"
  | FAILED => "FAILED" | REFUNDED => "REFUNDED"
  end.

Record Tenant := mkTenant {
  tn_id : string;
  tn_name : string;
  tn_type : string;
  tn_isActive : bool;
}.

Record User := mkUser {
  u_id : string;
  u_email : string;
  u_password : option string;
  u_firstName : string;
  u_lastName : string;
  u_phone : option string;
  u_role : string;
  u_tenantId : string;
  u_isActive : bool;
}.

Record Station := mkStation {
  st_id : string;
  st_tenantId : string;
  st_name : string;
  st_latitude : Q;
  st_longitude : Q;
  st_isActive : bool;
}.

Record ChargingPort := mkChargingPort {
  cp_id : string;
  cp_stationId : string;
  cp_portNumber : Z;
  cp_connectorType : ConnectorType;
  cp_powerOutput : Q;
  cp_status : PortStatus;
}.

Record ChargingSession := mkChargingSession {
  cs_id : string;
  cs_portId : string;
  cs_status : string;
  cs_cost : option Q;
  cs_energyUsed : option Q;
}.

Record Booking := mkBooking {
  bk_id : string;
  bk_totalCost : option Q;
}.

Record Payment := mkPayment {
  pay_id : string;
  pay_amount : Q;
  pay_currency : string;
  pay_status : PaymentStatus;
  pay_method : string;
  pay_stripePaymentId : option string;
  pay_userId : string;
  pay_sessionId : option string;
  pay_bookingId : option string;
  pay_metadata : gmap string jsval;
}.

Definition js_opt_str (o : option string) : jsval := from_option JStr JNull o.

#[global] Instance Tenant_model : Model Tenant := λ t k,
  if decide (k = "id") then Some (JStr (tn_id t))
  else if decide (k = "name") then Some (JStr (tn_name t))
  else if decide (k = "type") then Some (JStr (tn_type t))
  else if decide (k = "isActive") then Some (JBool (tn_isActive t))
  else None.

#[global] Instance User_model : Model User := λ u k,
  if decide (k = "id") then Some (JStr (u_id u))
  else if decide (k = "email") then Some (JStr (u_email u))
  else if decide (k = "role") then Some (JStr (u_role u))
  else if decide (k = "tenantId") then Some (JStr (u_tenantId u))
  else if decide (k = "isActive") then Some (JBool (u_isActive u))
  else None.

#[global] Instance Station_model : Model Station := λ s k,
  if decide (k = "id") then Some (JStr (st_id s))
  else if decide (k = "tenantId") then Some (JStr (st_tenantId s))
  else if decide (k = "name") then Some (JStr (st_name s))
  else if decide (k = "isActive") then Some (JBool (st_isActive s))
  else None.

#[global] Instance ChargingPort_model : Model ChargingPort := λ p k,
  if decide (k = "id") then Some (JStr (cp_id p))
  else if decide (k = "stationId") then Some (JStr (cp_stationId p))
  else if decide (k = "connectorType") then Some (JStr (connector_str (cp_connectorType p)))
  else if decide (k = "status") then Some (JStr (port_status_str (cp_status p)))
  else None.

#[global] Instance ChargingSession_model : Model ChargingSession := λ s k,
  if decide (k = "id") then Some (JStr (cs_id s))
  else if decide (k = "portId") then Some (JStr (cs_portId s))
  else if decide (k = "status") then Some (JStr (cs_status s))
  else None.

#[global] Instance Booking_model : Model Booking := λ b k,
  if decide (k = "id") then Some (JStr (bk_id b)) else None.

#[global] Instance Payment_model : Model Payment := λ p k,
  if decide (k = "id") then Some (JStr (pay_id p))
  else if decide (k = "status") then Some (JStr (payment_status_str (pay_status p)))
  else if decide (k = "stripePaymentId") then Some (js_opt_str (pay_stripePaymentId p))
  else if decide (k = "userId") then Some (JStr (pay_userId p))
  else if decide (k = "sessionId") then Some (js_opt_str (pay_sessionId p))
  else if decide (k = "bookingId") then Some (js_opt_str (pay_bookingId p))
  else None.

(** The database: one list per table, and the counter that primary keys
    are drawn from. *)
Record Db := mkDb {
  tenants : list Tenant;
  users : list User;
  stations : list Station;
  chargingPorts : list ChargingPort;
  chargingSessions : list ChargingSession;
  bookings : list Booking;
  payments : list Payment;
  next_id : N;
}.

(** A table of the database: how to read it, how to replace it, and the
    columns (besides the primary key) that carry a unique constraint: the
    ones the handlers hand to [findUnique] and to [update] as selectors. *)
Record Table (R : Type) := mkTable {
  rows : Db → list R;
  set_rows : list R → Db → Db;
  uniques : list string;
}.
Arguments rows {R} _ _.
Arguments set_rows {R} _ _ _.
Arguments uniques {R} _.

Definition Tenants : Table Tenant :=
  mkTable _ tenants (λ l d, mkDb l (users d) (stations d) (chargingPorts d)
    (chargingSessions d) (bookings d) (payments d) (next_id d)) [].
Definition Users : Table User :=
  mkTable _ users (λ l d, mkDb (tenants d) l (stations d) (chargingPorts d)
    (chargingSessions d) (bookings d) (payments d) (next_id d)) ["email"].
Definition Stations : Table Station :=
  mkTable _ stations (λ l d, mkDb (tenants d) (users d) l (chargingPorts d)
    (chargingSessions d) (bookings d) (payments d) (next_id d)) [].
Definition ChargingPorts : Table ChargingPort :=
  mkTable _ chargingPorts (λ l d, mkDb (tenants d) (users d) (stations d) l
    (chargingSessions d) (bookings d) (payments d) (next_id d)) [].
Definition ChargingSessions : Table ChargingSession :=
  mkTable _ chargingSessions (λ l d, mkDb (tenants d) (users d) (stations d)
    (chargingPorts d) l (bookings d) (payments d) (next_id d)) [].
Definition Bookings : Table Booking :=
  mkTable _ bookings (λ l d, mkDb (tenants d) (users d) (stations d)
    (chargingPorts d) (chargingSessions d) l (payments d) (next_id d)) [].
Definition Payments : Table Payment :=
  mkTable _ payments (λ l d, mkDb (tenants d) (users d) (stations d)
    (chargingPorts d) (chargingSessions d) (bookings d) l (next_id d)) ["stripePaymentId"].

Definition bump_id (d : Db) : Db :=
  mkDb (tenants d) (users d) (stations d) (chargingPorts d)
    (chargingSessions d) (bookings d) (payments d) (N.succ (next_id d)).

(** ** Handlers as state-and-exception computations *)

Definition M (A : Type) : Type := Db → result A * Db.

Definition ret {A} (a : A) : M A := λ d, (Ok a, d).
Definition throw {A} (e : exn) : M A := λ d, (Throw e, d).

Definition bind {A B} (m : M A) (k : A → M B) : M B := λ d,
  match m d with
  | (Ok a, d') => k a d'
  | (Throw e, d') => (Throw e, d')
  end.

Notation "'let*' x ':=' m 'in' k" := (bind m (λ x, k))
  (at level 10, x pattern, m at level 100, k at level 200).

(** [try { m } catch (error) { throw e }]: the writes of [m] before its
    throw are kept. *)
Definition try_catch {A} (m : M A) (handler : exn → exn) : M A := λ d,
  match m d with
  | (Ok a, d') => (Ok a, d')
  | (Throw e, d') => (Throw (handler e), d')
  end.

(** [prisma.$transaction(async (tx) => m)]: the writes of [m] are
    committed when it returns and rolled back when it throws. *)
Definition transaction {A} (m : M A) : M A := λ d,
  match m d with
  | (Ok a, d') => (Ok a, d')
  | (Throw e, _) => (Throw e, d)
  end.

(** The outcome of a call made outside the database (payment provider,
    clock-dependent library): it is an input of the handler. *)
Definition external {A} (r : result A) : M A := λ d, (r, d).

(** ** Model methods *)

Section Delegate.
Context {R : Type} `{!Model R}.

Definition findMany_rows (w : option where_clause) (l : list R) : list R :=
  filter (selects w) l.

(** [update]: the first row the filter selects is replaced; [None] when
    there is none. *)
Fixpoint update_rows (w : option where_clause) (f : R → R) (l : list R)
    : option (R * list R) :=
  match l with
  | [] => None
  | r :: l' =>
      if decide (selects w r) then Some (f r, f r :: l')
      else prod_map id (cons r) <$> update_rows w f l'
  end.

Variable T : Table R.
Variable c : client.

Definition findMany (a : args unit) : M (list R) := λ d,
  (Ok (findMany_rows (a_where (through c "findMany" a)) (rows T d)), d).

Definition findFirst (a : args unit) : M (option R) := λ d,
  (Ok (head (findMany_rows (a_where (through c "findFirst" a)) (rows T d))), d).

Definition findUnique (a : args unit) : M (option R) := λ d,
  (Ok (head (findMany_rows (a_where (through c "findUnique" a)) (rows T d))), d).

Definition count (a : args unit) : M nat := λ d,
  (Ok (length (findMany_rows (a_where (through c "count" a)) (rows T d))), d).

(** [update({ where, data })]: [data] is the change it makes to the row. *)
Definition update (a : args (R → R)) : M R := λ d,
  let a' := through c "update" a in
  match update_rows (a_where a') (a_rest a') (rows T d) with
  | Some (r, l) => (Ok r, set_rows T l d)
  | None => (Throw PrismaNotFound, d)
  end.

(** Two rows collide when they agree on a unique column that is not
    null. *)
Definition collides (r r' : R) : Prop :=
  Exists (λ k, field r' k = field r k ∧ field r k ≠ Some JNull) (uniques T).

(** [create({ data })]: [data] lacks the primary key, which is drawn
    from the counter; the insertion is refused when a unique column
    would repeat. *)
Definition create (a : args (string → R)) : M R := λ d,
  let a' := through c "create" a in
  let r := a_rest a' (pretty (next_id d)) in
  if decide (Exists (collides r) (rows T d)) then (Throw PrismaUnique, d)
  else (Ok r, bump_id (set_rows T (rows T d ++ [r]) d)).
End Delegate.

Definition gets {A} (f : Db → A) : M A := λ d, (Ok (f d), d).

(** [Promise.all(l.map(f))] *)
Fixpoint mapM {A B} (f : A → M B) (l : list A) : M (list B) :=
  match l with
  | [] => ret []
  | x :: l' => let* y := f x in let* ys := mapM f l' in ret (y :: ys)
  end.

(** ** JavaScript numbers *)

(** A JavaScript number is an IEEE 754 binary64 value: NaN, an infinity,
    or a finite value [m * 2^e] with [|m| < 2^53] and [e] from -1074 to
    971. A finite value is carried here as the rational it denotes. An
    arithmetic operation takes the exact result and rounds it to the
    nearest such value, to the one with the even [m] when two are equally
    near. *)

(** The integer nearest to [n / d], for a positive [d]; of two equally
    near, the even one. *)
Definition round_half_even (n d : Z) : Z :=
  let q := (n / d)%Z in
  match (2 * (n mod d) ?= d)%Z with
  | Lt => q
  | Gt => (q + 1)%Z
  | Eq => if Z.even q then q else (q + 1)%Z
  end.

(** The exponent [e] with [2^e <= n / d < 2^(e+1)], for positive [n] and
    [d]. *)
Definition binade (n d : Z) : Z :=
  let e := (Z.log2 n - Z.log2 d)%Z in
  if decide (d * 2 ^ Z.max e 0 ≤ n * 2 ^ Z.max (- e) 0)%Z then e else (e - 1)%Z.

(** The exponent of the last place of a value in that binade: 53
    significant bits, and never below the exponent -1074 of the subnormal
    values. *)
Definition last_place (e : Z) : Z := Z.max (e - 52) (-1074).

(** [m * 2^e] *)
Definition dyadic (m e : Z) : Q :=
  Qmake (m * 2 ^ Z.max e 0) (Z.to_pos (2 ^ Z.max (- e) 0)).

(** The finite binary64 values. *)
Definition binary64 (x : Q) : Prop :=
  ∃ m e, (Z.abs m < 2 ^ 53)%Z ∧ (-1074 ≤ e ≤ 971)%Z ∧ (x == dyadic m e)%Q.

(** Rounding to the nearest binary64 value, for a rational below the
    overflow threshold [2^1024] in size: the quotient by the unit of the
    last place is rounded to an integer. *)
Definition round_finite (q : Q) : Q :=
  if decide (Qnum q = 0%Z) then 0%Q
  else
    let d := Z.pos (Qden q) in
    let ex := last_place (binade (Z.abs (Qnum q)) d) in
    Qred (dyadic (round_half_even (Qnum q * 2 ^ Z.max (- ex) 0) (d * 2 ^ Z.max ex 0)) ex).

(** The result of a division of two array lengths: the quotient rounded
    to a binary64 value, or what IEEE arithmetic gives for a zero divisor.
    An array length is below [2^32]: it is a binary64 value itself, and
    the quotient cannot overflow. *)
Inductive number :=
  | Num (q : Q)
  | Infinity
  | NaN.

Definition js_div (a b : nat) : number :=
  match b with
  | O => match a with O => NaN | S _ => Infinity end
  | S _ => Num (round_finite (Z.of_nat a # Pos.of_nat b))
  end.

(** [x || 0] on a nullable number. *)
Definition or_zero (x : option Q) : Q := default 0%Q x.

(** [Math.round]: to the nearest integer, halves upwards. *)
Definition Math_round (q : Q) : Z := Qfloor (q + (1 # 2)).

(** [a * b] on two finite numbers whose product stays below the overflow
    threshold, as the amounts of money here do. *)
Definition js_mul (a b : Q) : Q := round_finite (a * b).

(** [a + b], likewise. *)
Definition js_add (a b : Q) : Q := round_finite (a + b).

(** [cents / 100] *)
Definition js_hundredth (cents : Z) : Q := round_finite (inject_Z cents / 100).

#[global] Instance Qle_dec : RelDecision Qle.
Proof. intros x y. unfold Qle. apply _. Defined.
#[global] Instance Qlt_dec : RelDecision Qlt.
Proof. intros x y. unfold Qlt. apply _. Defined.

(** ** The station controller *)

(** A port with the sessions its [include] selects. *)
Record PortDetail := mkPortDetail {
  pd_port : ChargingPort;
  pd_sessions : list ChargingSession;
}.

Record StationDetail := mkStationDetail {
  sd_station : Station;
  sd_chargingPorts : list PortDetail;
}.

(** [include: { chargingPorts: { include: { sessions: { where: { status:
    'ACTIVE' } } } } }]: the relation is followed by foreign key. The
    telemetry and analytics relations that [getById] includes as well, and
    the user and vehicle of a session, are tables outside this model. *)
Definition include_chargingPorts (d : Db) (s : Station) : list PortDetail :=
  (λ p, mkPortDetail p
     (filter (λ x, cs_portId x = cp_id p ∧ cs_status x = "ACTIVE") (chargingSessions d)))
  <$> filter (λ p, cp_stationId p = st_id s) (chargingPorts d).

(** [station.getById] *)
Definition getById (u : CtxUser) (id : string) : M StationDetail :=
  let ctx := protectedProcedure u in
  let* station := findUnique Stations (ctx_prisma ctx)
                    (mkArgs (Some {["id" := JStr id]}) ()) in
  match station with
  | None => throw (TRPCError NOT_FOUND)
  | Some s => gets (λ d, mkStationDetail s (include_chargingPorts d s))
  end.

(** [station.addPort] *)
Definition addPort (u : CtxUser) (stationId : string) (portNumber : Z)
    (connectorType : ConnectorType) (powerOutput : Q) : M ChargingPort :=
  let ctx := tenantProcedure u in
  let* station := findFirst Stations (ctx_prisma ctx)
                    (mkArgs (Some {["id" := JStr stationId;
                                    "tenantId" := JStr (cu_tenantId (ctx_user ctx))]}) ()) in
  match station with
  | None => throw (TRPCError NOT_FOUND)
  | Some _ =>
      create ChargingPorts (ctx_prisma ctx)
        (mkArgs None (λ id, mkChargingPort id stationId portNumber connectorType
                              powerOutput AVAILABLE))
  end.

(** [station.updatePortStatus]; the socket event it emits afterwards is
    outside the database. *)
Definition updatePortStatus (u : CtxUser) (portId : string) (status : PortStatus)
    : M ChargingPort :=
  let ctx := protectedProcedure u in
  update ChargingPorts (ctx_prisma ctx)
    (mkArgs (Some {["id" := JStr portId]})
       (λ p, mkChargingPort (cp_id p) (cp_stationId p) (cp_portNumber p)
               (cp_connectorType p) (cp_powerOutput p) status)).

Record RealtimeStats := mkRealtimeStats {
  totalPorts : nat;
  availablePorts : nat;
  occupiedPorts : nat;
  outOfOrderPorts : nat;
  activeSessions : nat;
  totalRevenue : Q;
  totalEnergy : Q;
  utilizationRate : number;
}.

Definition ports_with (s : PortStatus) (l : list PortDetail) : list PortDetail :=
  filter (λ p, cp_status (pd_port p) = s) l.

Definition stats_of (ports : list PortDetail) : RealtimeStats :=
  let activeSessions := ports ≫= pd_sessions in
  let totalRevenue := foldl (λ sum session, js_add sum (or_zero (cs_cost session))) 0%Q activeSessions in
  let totalEnergy := foldl (λ sum session, js_add sum (or_zero (cs_energyUsed session))) 0%Q activeSessions in
  mkRealtimeStats
    (length ports)
    (length (ports_with AVAILABLE ports))
    (length (ports_with OCCUPIED ports))
    (length (ports_with OUT_OF_ORDER ports))
    (length activeSessions)
    totalRevenue
    totalEnergy
    (js_div (length (ports_with OCCUPIED ports)) (length ports)).

(** [station.getRealtimeStats] *)
Definition getRealtimeStats (u : CtxUser) (stationId : string) : M RealtimeStats :=
  let ctx := tenantProcedure u in
  let* station := findFirst Stations (ctx_prisma ctx)
                    (mkArgs (Some {["id" := JStr stationId;
                                    "tenantId" := JStr (cu_tenantId (ctx_user ctx))]}) ()) in
  match station with
  | None => throw (TRPCError NOT_FOUND)
  | Some s => gets (λ d, stats_of (include_chargingPorts d s))
  end.

(** One entry of the answer of [findNearby]. *)
Record NearbyStation := mkNearbyStation {
  ns_station : Station;
  ns_distance : Q;
  ns_chargingPorts : list ChargingPort;
  ns_availablePorts : nat;
  ns_totalPorts : nat;
}.

(** [ORDER BY distance] on the rows of the raw query. *)
Definition nearer (a b : Station * Q) : Prop := (a.2 <= b.2)%Q.

#[global] Instance nearer_dec : RelDecision nearer.
Proof. intros a b. unfold nearer. apply _. Defined.

(** The database engine behind Prisma's raw queries. README.md and
    DEPLOYMENT.md name PostgreSQL 15+. The raw query of [findNearby] is
    written in MySQL's dialect: its [HAVING] clause names the select alias
    [distance], in a query without [GROUP BY]. *)
Inductive SqlEngine :=
  | PostgreSQL
  | MySQL.

Section FindNearby.
Variable engine : SqlEngine.

(** The value of the query's distance expression
    [6371 * acos(cos(radians(lat)) * cos(radians(s.latitude)) *
    cos(radians(s.longitude) - radians(lon)) + sin(radians(lat)) *
    sin(radians(s.latitude)))] for a station row, as the engine computes
    it, in floating point, from the query point (latitude, longitude) and
    the row's coordinates; [None] where the expression has no value:
    rounding can take the argument of [acos] above 1 for a station at the
    query point, and MySQL's [acos] is then NULL. *)
Variable sql_distance : Q → Q → Q → Q → option Q.

Definition distance_to (latitude longitude : Q) (s : Station) : option Q :=
  sql_distance latitude longitude (st_latitude s) (st_longitude s).

(** The rows of the raw query on an engine that evaluates it: active
    stations, the distance column, the rows with [distance < radius] (a
    NULL distance fails the comparison), ordered by distance, the first
    50; rows at equal distance, whose order SQL leaves open, keep their
    table order. *)
Definition nearby_rows (latitude longitude radius : Q) (d : Db) : list (Station * Q) :=
  take 50
    (merge_sort nearer
       (filter (λ r, r.2 < radius)%Q
          (omap (λ s, (λ x, (s, x)) <$> distance_to latitude longitude s)
             (filter (λ s, st_isActive s = true) (stations d))))).

(** [$queryRaw] with the query of [findNearby]. PostgreSQL refuses the
    statement when it analyses it, before it reads a row: a select alias
    is not visible in [HAVING] (column "distance" does not exist), and
    with a [HAVING] clause the query is a grouped one, in which [s.*]
    would have to be grouped or aggregated. Prisma reports the refusal as
    an exception. MySQL evaluates the statement. *)
Definition queryRaw (latitude longitude radius : Q) : M (list (Station * Q)) :=
  match engine with
  | PostgreSQL => throw PrismaRawQuery
  | MySQL => gets (nearby_rows latitude longitude radius)
  end.

(** [{ stationId: station.id, ...(connectorType && { connectorType }),
    ...(availableOnly && { status: 'AVAILABLE' }) }] *)
Definition ports_where (stationId : string) (connectorType : option ConnectorType)
    (availableOnly : bool) : where_clause :=
  (if availableOnly then <["status" := JStr "AVAILABLE"]> else id)
    (from_option (λ c, <["connectorType" := JStr (connector_str c)]>) id connectorType
       {["stationId" := JStr stationId]}).

(** [station.findNearby]; the handler catches nothing. *)
Definition findNearby (u : CtxUser) (latitude longitude radius : Q)
    (connectorType : option ConnectorType) (availableOnly : bool)
    : M (list NearbyStation) :=
  let ctx := protectedProcedure u in
  let* stations := queryRaw latitude longitude radius in
  let* stationsWithPorts :=
    mapM (λ station,
      let* ports := findMany ChargingPorts (ctx_prisma ctx)
                      (mkArgs (Some (ports_where (st_id station.1) connectorType availableOnly)) ()) in
      ret (mkNearbyStation station.1 station.2 ports
             (length (filter (λ p, cp_status p = AVAILABLE) ports))
             (length ports)))
      stations in
  ret (filter (λ station, availableOnly = false ∨ (0 < ns_availablePorts station)%nat)
         stationsWithPorts).
End FindNearby.

(** ** The payment controller *)

(** JavaScript truthiness of a nullable string: [null], [undefined] and
    the empty string are falsy. *)
Definition truthy (o : option string) : option string :=
  match o with
  | Some s => if decide (s = "") then None else Some s
  | None => None
  end.

(** [String.prototype.toLowerCase] on ASCII text, which is what currency
    codes are: the letters A to Z are lowered, every other byte is kept.
    JavaScript lowers the letters of other scripts as well; a currency
    string that has any is outside this model. *)
Definition lower_ascii (c : ascii) : ascii :=
  let n := nat_of_ascii c in
  if (65 <=? n)%nat && (n <=? 90)%nat then ascii_of_nat (n + 32) else c.

Fixpoint toLowerCase (s : string) : string :=
  match s with
  | EmptyString => EmptyString
  | String c s' => String (lower_ascii c) (toLowerCase s')
  end.

(** The payment provider's objects, as far as the handlers read them. The
    [customer] of an intent comes from a field of [ctx.user] that the
    payment service's own context adds; it plays no part below. *)
Record PaymentIntent := mkPaymentIntent {
  pi_id : string;
  pi_client_secret : option string;
  pi_status : string;
}.

Record Refund := mkRefund {
  rf_id : string;
  rf_amount : Z;
  rf_status : string;
}.

Record PaymentIntentParams := mkPaymentIntentParams {
  pip_amount : Z;
  pip_currency : string;
  pip_metadata : gmap string string;
}.

Record RefundParams := mkRefundParams {
  rp_payment_intent : string;
  rp_amount : option Z;
  rp_reason : string;
  rp_metadata : gmap string string;
}.

(** The provider's client at the time of a request: what each of its
    calls answers. The provider has state of its own, so two requests may
    meet two different clients. *)
Record Stripe := mkStripe {
  paymentIntents_create : PaymentIntentParams → result PaymentIntent;
  paymentIntents_retrieve : string → result PaymentIntent;
  refunds_create : RefundParams → result Refund;
}.

Record CreatePaymentIntentInput := mkCreatePaymentIntentInput {
  in_amount : Q;
  in_currency : string;
  in_sessionId : option string;
  in_bookingId : option string;
  in_metadata : option (gmap string string);
}.

Record CreatePaymentIntentOutput := mkCreatePaymentIntentOutput {
  out_paymentId : string;
  out_clientSecret : option string;
  out_amount : Q;
  out_currency : string;
}.

(** [payment.createPaymentIntent] *)
Definition createPaymentIntent (stripe : Stripe) (u : CtxUser)
    (input : CreatePaymentIntentInput) : M CreatePaymentIntentOutput :=
  let ctx := protectedProcedure u in
  let amount := in_amount input in
  let currency := in_currency input in
  let sessionId := in_sessionId input in
  let bookingId := in_bookingId input in
  let metadata := in_metadata input in
  try_catch
    (let* paymentIntent :=
       external (paymentIntents_create stripe
         (mkPaymentIntentParams (Math_round (js_mul amount 100)) (toLowerCase currency)
            (default ∅ metadata ∪
             {["userId" := cu_id (ctx_user ctx);
               "sessionId" := default "" (truthy sessionId);
               "bookingId" := default "" (truthy bookingId)]}))) in
     let* payment :=
       create Payments (ctx_prisma ctx)
         (mkArgs None (λ id,
            mkPayment id amount currency PENDING "CREDIT_CARD"
              (Some (pi_id paymentIntent)) (cu_id (ctx_user ctx))
              sessionId bookingId (JStr <$> default ∅ metadata))) in
     ret (mkCreatePaymentIntentOutput (pay_id payment)
            (pi_client_secret paymentIntent) amount currency))
    (λ _, TRPCError INTERNAL_SERVER_ERROR).

Definition set_payment (status : PaymentStatus) (metadata : gmap string jsval)
    (p : Payment) : Payment :=
  mkPayment (pay_id p) (pay_amount p) (pay_currency p) status (pay_method p)
    (pay_stripePaymentId p) (pay_userId p) (pay_sessionId p) (pay_bookingId p)
    metadata.

Definition set_cost (cost : Q) (s : ChargingSession) : ChargingSession :=
  mkChargingSession (cs_id s) (cs_portId s) (cs_status s) (Some cost) (cs_energyUsed s).

Definition set_totalCost (cost : Q) (b : Booking) : Booking :=
  mkBooking (bk_id b) (Some cost).

Record ConfirmPaymentOutput := mkConfirmPaymentOutput {
  co_paymentId : string;
  co_status : PaymentStatus;
  co_amount : Q;
}.

(** [payment.confirmPayment]; [now] is [new Date().toISOString()]. *)
Definition confirmPayment (stripe : Stripe) (now : string) (u : CtxUser)
    (paymentIntentId paymentMethodId : string) : M ConfirmPaymentOutput :=
  let ctx := protectedProcedure u in
  try_catch
    (let* paymentIntent := external (paymentIntents_retrieve stripe paymentIntentId) in
     if decide (pi_status paymentIntent ≠ "succeeded") then
       throw (TRPCError BAD_REQUEST)
     else
       let* payment :=
         update Payments (ctx_prisma ctx)
           (mkArgs (Some {["stripePaymentId" := JStr paymentIntentId;
                           "userId" := JStr (cu_id (ctx_user ctx))]})
              (set_payment COMPLETED
                 {["paymentMethodId" := JStr paymentMethodId;
                   "confirmedAt" := JStr now]})) in
       let* _ :=
         match truthy (pay_sessionId payment) with
         | Some sessionId =>
             let* _ := update ChargingSessions (ctx_prisma ctx)
                         (mkArgs (Some {["id" := JStr sessionId]})
                            (set_cost (pay_amount payment))) in
             ret ()
         | None => ret ()
         end in
       let* _ :=
         match truthy (pay_bookingId payment) with
         | Some bookingId =>
             let* _ := update Bookings (ctx_prisma ctx)
                         (mkArgs (Some {["id" := JStr bookingId]})
                            (set_totalCost (pay_amount payment))) in
             ret ()
         | None => ret ()
         end in
       ret (mkConfirmPaymentOutput (pay_id payment) (pay_status payment)
              (pay_amount payment)))
    (λ _, TRPCError INTERNAL_SERVER_ERROR).

Record RefundPaymentOutput := mkRefundPaymentOutput {
  ro_refundId : string;
  ro_amount : Q;
  ro_status : string;
}.

(** [amount ? Math.round(amount * 100) : undefined]: zero is falsy. *)
Definition refund_cents (amount : option Q) : option Z :=
  match amount with
  | Some a => if Qeq_bool a 0 then None else Some (Math_round (js_mul a 100))
  | None => None
  end.

(** [payment.refundPayment]; [now] is [new Date().toISOString()]. *)
Definition refundPayment (stripe : Stripe) (now : string) (u : CtxUser)
    (paymentId : string) (amount : option Q) (reason : string)
    : M RefundPaymentOutput :=
  let ctx := protectedProcedure u in
  try_catch
    (let* payment :=
       findFirst Payments (ctx_prisma ctx)
         (mkArgs (Some {["id" := JStr paymentId;
                         "userId" := JStr (cu_id (ctx_user ctx));
                         "status" := JStr "COMPLETED"]}) ()) in
     match payment with
     | None => throw (TRPCError NOT_FOUND)
     | Some payment =>
         match truthy (pay_stripePaymentId payment) with
         | None => throw (TRPCError NOT_FOUND)
         | Some stripePaymentId =>
             let* refund :=
               external (refunds_create stripe
                 (mkRefundParams stripePaymentId (refund_cents amount) reason
                    {["originalPaymentId" := paymentId;
                      "userId" := cu_id (ctx_user ctx)]})) in
             let* _ :=
               update Payments (ctx_prisma ctx)
                 (mkArgs (Some {["id" := JStr paymentId]})
                    (set_payment REFUNDED
                       (<["refundAmount" := JNum (js_hundredth (rf_amount refund))]>
                          (<["refundedAt" := JStr now]>
                             (<["refundId" := JStr (rf_id refund)]>
                                (pay_metadata payment)))))) in
             ret (mkRefundPaymentOutput (rf_id refund)
                    (js_hundredth (rf_amount refund)) (rf_status refund))
         end
     end)
    (λ _, TRPCError INTERNAL_SERVER_ERROR).

(** ** Tokens (utils/jwt.ts) *)

(** [Omit<JWTPayload, 'iat' | 'exp'>] *)
Record Identity := mkIdentity {
  userId : string;
  tenantId : string;
  role : string;
}.

Record JWTPayload := mkJWTPayload {
  jp_userId : string;
  jp_tenantId : string;
  jp_role : string;
  jp_iat : option Z;
  jp_exp : option Z;
}.

(** The jsonwebtoken library, symbolically: a token is the claims it
    carries together with the key that signed it, and its signature
    verifies under that key only. Times are seconds since the epoch. *)
Module jsonwebtoken.
Record token := mkToken {
  tok_payload : JWTPayload;
  tok_iss : string;
  tok_key : string;
}.

(** [jwt.sign(payload, secret, { expiresIn, issuer })] at time [now] *)
Definition sign (payload : Identity) (secret : string) (expiresIn : Z)
    (issuer : string) (now : Z) : token :=
  mkToken
    (mkJWTPayload (userId payload) (tenantId payload) (role payload)
       (Some now) (Some (now + expiresIn)%Z))
    issuer secret.

(** [jwt.verify(token, secret)] at time [now]: the signature must be the
    secret's and the expiry must lie in the future. *)
Definition verify (t : token) (secret : string) (now : Z) : result JWTPayload :=
  if decide (tok_key t = secret) then
    match jp_exp (tok_payload t) with
    | Some e => if decide (e ≤ now)%Z then Throw JwtError else Ok (tok_payload t)
    | None => Ok (tok_payload t)
    end
  else Throw JwtError.
End jsonwebtoken.

Section Auth.
(** [process.env.JWT_SECRET] *)
Variable env_JWT_SECRET : option string.

(** [bcrypt.hash(password, 12)] *)
Variable bcrypt_hash : string → string.

Definition JWT_SECRET : string := default "your-secret-key" (truthy env_JWT_SECRET).

(** The functions below take the time of the call as [now]. *)
Definition signJWT (now : Z) (payload : Identity) : jsonwebtoken.token :=
  jsonwebtoken.sign payload JWT_SECRET 86400 "ev-platform" now.

Definition verifyJWT (now : Z) (token : jsonwebtoken.token) : result JWTPayload :=
  jsonwebtoken.verify token JWT_SECRET now.

Definition refreshToken (now : Z) (oldToken : jsonwebtoken.token)
    : result jsonwebtoken.token :=
  match verifyJWT now oldToken with
  | Ok decoded =>
      Ok (signJWT now (mkIdentity (jp_userId decoded) (jp_tenantId decoded)
                         (jp_role decoded)))
  | Throw _ => Throw JwtError
  end.

(** ** The auth controller: registration *)

Record RegisterInput := mkRegisterInput {
  ri_email : string;
  ri_password : string;
  ri_firstName : string;
  ri_lastName : string;
  ri_phone : option string;
  ri_tenantName : string;
  ri_tenantType : string;
}.

Record RegisterOutput := mkRegisterOutput {
  rg_token : jsonwebtoken.token;
  rg_user : User;
  rg_tenant : Tenant;
}.

(** The callback handed to [$transaction]. *)
Definition register_tx (input : RegisterInput) (hashedPassword : string)
    : M (Tenant * User) :=
  let* tenant :=
    create Tenants RawClient
      (mkArgs None (λ id, mkTenant id (ri_tenantName input) (ri_tenantType input) true)) in
  let* user :=
    create Users RawClient
      (mkArgs None (λ id,
         mkUser id (ri_email input) (Some hashedPassword) (ri_firstName input)
           (ri_lastName input) (ri_phone input) "TENANT_ADMIN" (tn_id tenant) true)) in
  ret (tenant, user).

(** [auth.register], a public procedure. *)
Definition register (now : Z) (input : RegisterInput) : M RegisterOutput :=
  let* existingUser :=
    findUnique Users RawClient (mkArgs (Some {["email" := JStr (ri_email input)]}) ()) in
  match existingUser with
  | Some _ => throw (TRPCError CONFLICT)
  | None =>
      let hashedPassword := bcrypt_hash (ri_password input) in
      let* result := transaction (register_tx input hashedPassword) in
      let token := signJWT now (mkIdentity (u_id result.2) (tn_id result.1)
                                  (u_role result.2)) in
      ret (mkRegisterOutput token result.2 result.1)
  end.
End Auth.

(** ** Authentication and roles (trpc.ts) *)

(** The Redis store of the auth service: under each key the token that
    [SETEX] put there and the time at which the key expires. *)
Abbreviation Redis := (gmap string (jsonwebtoken.token * Z)).

(** The auth service's state: its database and its Redis store. *)
Record World := mkWorld {
  w_db : Db;
  w_redis : Redis;
}.

(** A handler that also writes to Redis. *)
Definition W (A : Type) : Type := World → result A * World.

Definition retW {A} (a : A) : W A := λ w, (Ok a, w).
Definition throwW {A} (e : exn) : W A := λ w, (Throw e, w).

Definition bindW {A B} (m : W A) (k : A → W B) : W B := λ w,
  match m w with
  | (Ok a, w') => k a w'
  | (Throw e, w') => (Throw e, w')
  end.

Notation "'let+' x ':=' m 'in' k" := (bindW m (λ x, k))
  (at level 10, x pattern, m at level 100, k at level 200).

(** A database computation inside a handler that has Redis. *)
Definition on_db {A} (m : M A) : W A := λ w,
  match m (w_db w) with
  | (r, d') => (r, mkWorld d' (w_redis w))
  end.

Definition try_catchW {A} (m : W A) (handler : exn → exn) : W A := λ w,
  match m w with
  | (Ok a, w') => (Ok a, w')
  | (Throw e, w') => (Throw (handler e), w')
  end.

(** [`session:${id}`] *)
Definition session_key (id : string) : string := "session:" +:+ id.

(** [redis.setex(key, seconds, value)] at time [now] *)
Definition setex (key : string) (seconds : Z) (value : jsonwebtoken.token) (now : Z)
    : W unit := λ w,
  (Ok (), mkWorld (w_db w) (<[key := (value, (now + seconds)%Z)]> (w_redis w))).

(** [redis.del(key)] *)
Definition del (key : string) : W unit := λ w,
  (Ok (), mkWorld (w_db w) (delete key (w_redis w))).

(** [adminMiddleware], on the context [authMiddleware] has filled. *)
Definition adminMiddleware (u : CtxUser) : M CtxUser :=
  if decide (cu_role u ∈ ["SUPER_ADMIN"; "TENANT_ADMIN"]) then ret u
  else throw (TRPCError FORBIDDEN).

Section Session.
(** [process.env.JWT_SECRET] *)
Variable env_JWT_SECRET : option string.

(** [bcrypt.hash(password, 12)] and [bcrypt.compare(password, hash)] *)
Variable bcrypt_hash : string → string.
Variable bcrypt_compare : string → string → bool.

(** The [domain] column of a tenant, which the [Tenant] record does not
    carry. *)
Variable tenant_domain : Tenant → option string.

(** [authMiddleware]: [authorization] is the token the request carries
    after its [Bearer] prefix, absent when there is no header or nothing
    follows the prefix. The result is [ctx.user]. The tenant included with
    the user is not read. *)
Definition authMiddleware (now : Z) (authorization : option jsonwebtoken.token)
    : M CtxUser :=
  match authorization with
  | None => throw (TRPCError UNAUTHORIZED)
  | Some token =>
      try_catch
        (let* decoded := external (verifyJWT env_JWT_SECRET now token) in
         let* user := findUnique Users RawClient
                        (mkArgs (Some {["id" := JStr (jp_userId decoded)]}) ()) in
         match user with
         | None => throw (TRPCError UNAUTHORIZED)
         | Some user =>
             if u_isActive user then
               ret (mkCtxUser (u_id user) (u_tenantId user) (u_role user))
             else throw (TRPCError UNAUTHORIZED)
         end)
        (λ _, TRPCError UNAUTHORIZED)
  end.

(** [adminProcedure]: authentication, then the role gate. *)
Definition adminProcedure_user (now : Z) (authorization : option jsonwebtoken.token)
    : M CtxUser :=
  let* u := authMiddleware now authorization in adminMiddleware u.

(** ** The auth controller: sessions and passwords *)

(** [include: { tenant: true }]: the tenant the user's foreign key names.
    The database does not hold a user without its tenant; such a row is
    not selected here. *)
Definition with_tenant (d : Db) (user : User) : option (User * Tenant) :=
  (λ t, (user, t)) <$> head (filter (λ t, tn_id t = u_tenantId user) (tenants d)).

Record LoginOutput := mkLoginOutput {
  lo_token : jsonwebtoken.token;
  lo_user : User;
  lo_tenant : Tenant;
}.

(** [auth.login], a public procedure. The [lastLoginAt] column it stamps
    is outside the [User] record: the update leaves the record's columns
    as they are. The password column is nullable, and [user.password!]
    hands a [null] on to [bcrypt.compare], which refuses a hash that is
    not a string. *)
Definition login (now : Z) (email password : string) (tenantDomain : option string)
    : W LoginOutput :=
  let+ user :=
    on_db (let* user := findUnique Users RawClient
                          (mkArgs (Some {["email" := JStr email]}) ()) in
           gets (λ d, user ≫= with_tenant d)) in
  match user with
  | None => throwW (TRPCError UNAUTHORIZED)
  | Some (user, tenant) =>
      if negb (u_isActive user) then throwW (TRPCError UNAUTHORIZED)
      else if match truthy tenantDomain with
              | Some domain => bool_decide (tenant_domain tenant ≠ Some domain)
              | None => false
              end
      then throwW (TRPCError UNAUTHORIZED)
      else
        match u_password user with
        | None => throwW BcryptError
        | Some hash =>
            if negb (bcrypt_compare password hash)
            then throwW (TRPCError UNAUTHORIZED)
            else
              let token := signJWT env_JWT_SECRET now
                             (mkIdentity (u_id user) (u_tenantId user) (u_role user)) in
              let+ _ := on_db (update Users RawClient
                                 (mkArgs (Some {["id" := JStr (u_id user)]}) (λ u, u))) in
              let+ _ := setex (session_key (u_id user)) 86400 token now in
              retW (mkLoginOutput token user tenant)
        end
  end.

(** [auth.refresh]: [authorization] is the token of the request header,
    which [authMiddleware] has accepted for [u]. *)
Definition refresh (now : Z) (u : CtxUser) (authorization : option jsonwebtoken.token)
    : W jsonwebtoken.token :=
  match authorization with
  | None => throwW (TRPCError UNAUTHORIZED)
  | Some token =>
      try_catchW
        (let+ newToken := on_db (external (refreshToken env_JWT_SECRET now token)) in
         let+ _ := setex (session_key (cu_id u)) 86400 newToken now in
         retW newToken)
        (λ _, TRPCError UNAUTHORIZED)
  end.

(** [auth.logout] *)
Definition logout (u : CtxUser) : W bool :=
  let+ _ := del (session_key (cu_id u)) in retW true.

Definition set_password (hash : string) (u : User) : User :=
  mkUser (u_id u) (u_email u) (Some hash) (u_firstName u) (u_lastName u) (u_phone u)
    (u_role u) (u_tenantId u) (u_isActive u).

(** [auth.changePassword]; [!user.password] holds of a [null] password
    and of an empty one. *)
Definition changePassword (u : CtxUser) (currentPassword newPassword : string)
    : M bool :=
  let ctx := protectedProcedure u in
  let* user := findUnique Users (ctx_prisma ctx)
                 (mkArgs (Some {["id" := JStr (cu_id (ctx_user ctx))]}) ()) in
  match user with
  | None => throw (TRPCError NOT_FOUND)
  | Some user =>
      match truthy (u_password user) with
      | None => throw (TRPCError NOT_FOUND)
      | Some hash =>
          if negb (bcrypt_compare currentPassword hash)
          then throw (TRPCError UNAUTHORIZED)
          else
            let hashedNewPassword := bcrypt_hash newPassword in
            let* _ := update Users (ctx_prisma ctx)
                        (mkArgs (Some {["id" := JStr (cu_id (ctx_user ctx))]})
                           (set_password hashedNewPassword)) in
            ret true
      end
  end.
End Session.

(** ** The station controller: creating, changing and listing stations *)

(** [skip: (page - 1) * limit, take: limit] *)
Definition page_of {A} (page limit : nat) (l : list A) : list A :=
  take limit (drop ((page - 1) * limit) l).

(** [Math.ceil(total / limit)] for a positive [limit]. *)
Definition ceil_div (total limit : nat) : nat := ((total + limit - 1) / limit)%nat.

(** The fields of [createStationSchema] that the [Station] record
    carries; address, port count, amenities and pricing go to columns
    outside it. *)
Record CreateStationInput := mkCreateStationInput {
  csi_name : string;
  csi_latitude : Q;
  csi_longitude : Q;
}.

(** [updateStationSchema]: the id, and the fields to change. *)
Record UpdateStationInput := mkUpdateStationInput {
  usi_id : string;
  usi_name : option string;
  usi_latitude : option Q;
  usi_longitude : option Q;
}.

(** [data] of an update: a field that is absent is left as it is. *)
Definition apply_station_data (data : UpdateStationInput) (s : Station) : Station :=
  mkStation (st_id s) (st_tenantId s)
    (default (st_name s) (usi_name data))
    (default (st_latitude s) (usi_latitude data))
    (default (st_longitude s) (usi_longitude data))
    (st_isActive s).

(** [include: { chargingPorts: true }] *)
Definition ports_of (d : Db) (s : Station) : list ChargingPort :=
  filter (λ p, cp_stationId p = st_id s) (chargingPorts d).

(** A station of the [list] answer: its ports, each with the number of
    its ACTIVE sessions, and the two counts the handler adds. *)
Record ListedStation := mkListedStation {
  ls_station : Station;
  ls_chargingPorts : list (ChargingPort * nat);
  ls_availablePorts : nat;
  ls_occupiedPorts : nat;
}.

Record Pagination := mkPagination {
  pg_page : nat;
  pg_limit : nat;
  pg_total : nat;
  pg_pages : nat;
}.

Definition listed (d : Db) (s : Station) : ListedStation :=
  let chargingPorts := ports_of d s in
  mkListedStation s
    ((λ p, (p, length (filter (λ x, cs_portId x = cp_id p ∧ cs_status x = "ACTIVE")
                         (chargingSessions d)))) <$> chargingPorts)
    (length (filter (λ p, cp_status p = AVAILABLE) chargingPorts))
    (length (filter (λ p, cp_status p = OCCUPIED) chargingPorts)).

Section StationAdmin.
(** The default of the [isActive] column of a new station. *)
Variable station_isActive_default : bool.

(** Whether the name or the address of a station contains the search
    text, case-insensitively, as the database decides it (the [OR] of the
    two [contains] filters). *)
Variable search_hit : string → Station → bool.

(** [station.create] *)
Definition station_create (u : CtxUser) (input : CreateStationInput)
    : M (Station * list ChargingPort) :=
  let ctx := tenantProcedure u in
  let* station :=
    create Stations (ctx_prisma ctx)
      (mkArgs None (λ id, mkStation id (cu_tenantId (ctx_user ctx)) (csi_name input)
                            (csi_latitude input) (csi_longitude input)
                            station_isActive_default)) in
  gets (λ d, (station, ports_of d station)).

(** [station.update] *)
Definition station_update (u : CtxUser) (input : UpdateStationInput)
    : M (Station * list ChargingPort) :=
  let ctx := tenantProcedure u in
  let* station :=
    update Stations (ctx_prisma ctx)
      (mkArgs (Some {["id" := JStr (usi_id input);
                      "tenantId" := JStr (cu_tenantId (ctx_user ctx))]})
         (apply_station_data input)) in
  gets (λ d, (station, ports_of d station)).

(** [...(search && { OR: [...] })]: absent when [search] is falsy. *)
Definition search_ok (search : option string) (s : Station) : bool :=
  match truthy search with
  | Some q => search_hit q s
  | None => true
  end.

(** The rows [findMany] and [count] select for [list]: the equality part
    of the filter goes through the client. *)
Definition list_rows (c : client) (method : string) (tenantId : string)
    (search : option string) (d : Db) : list Station :=
  filter (λ s, selects (a_where (through c method
                                   (mkArgs (Some {["tenantId" := JStr tenantId]}) ()))) s
               ∧ search_ok search s = true)
    (stations d).

(** [station.list], with the bounds of its input schema: a page from 1
    and a limit from 1 to 100, both whole numbers. Stations are in
    descending order of creation, which is the reverse of the table's
    order. *)
Definition station_list (u : CtxUser) (page limit : nat) (search : option string)
    : M (list ListedStation * Pagination) :=
  let ctx := tenantProcedure u in
  if negb ((1 <=? page)%nat && (1 <=? limit)%nat && (limit <=? 100)%nat)
  then throw (TRPCError BAD_REQUEST)
  else
    let* stations :=
      gets (λ d, page_of page limit
                   (reverse (list_rows (ctx_prisma ctx) "findMany"
                               (cu_tenantId (ctx_user ctx)) search d))) in
    let* total :=
      gets (λ d, length (list_rows (ctx_prisma ctx) "count"
                           (cu_tenantId (ctx_user ctx)) search d)) in
    gets (λ d, (listed d <$> stations,
                mkPagination page limit total (ceil_div total limit))).
End StationAdmin.

(** [payment.getPaymentHistory], with the bounds of its input schema: a
    page from 1 and a limit from 1 to 50. Payments are in descending order
    of creation; the session and booking included with each are outside
    the answer modelled here. *)
Definition getPaymentHistory (u : CtxUser) (page limit : nat)
    : M (list Payment * Pagination) :=
  let ctx := protectedProcedure u in
  if negb ((1 <=? page)%nat && (1 <=? limit)%nat && (limit <=? 50)%nat)
  then throw (TRPCError BAD_REQUEST)
  else
    let* all :=
      findMany Payments (ctx_prisma ctx)
        (mkArgs (Some {["userId" := JStr (cu_id (ctx_user ctx))]}) ()) in
    let* total :=
      count Payments (ctx_prisma ctx)
        (mkArgs (Some {["userId" := JStr (cu_id (ctx_user ctx))]}) ()) in
    ret (page_of page limit (reverse all),
         mkPagination page limit total (ceil_div total limit)).

(** ** Vocabulary of the statements *)

(** A row is owned by a tenant when its [tenantId] column holds it. *)
Definition owned_by `{Model R} (t : string) (r : R) : Prop :=
  field r "tenantId" = Some (JStr t).

#[global] Instance owned_by_dec `{Model R} t (r : R) : Decision (owned_by t r).
Proof. unfold owned_by. apply _. Defined.

(** The ports [findNearby] is to report for a station: its own ports, of
    the requested connector type when one is requested, available when
    only available ports are requested. *)
Definition port_wanted (stationId : string) (connectorType : option ConnectorType)
    (availableOnly : bool) (p : ChargingPort) : Prop :=
  cp_stationId p = stationId
  ∧ from_option (λ c, cp_connectorType p = c) True connectorType
  ∧ (if availableOnly then cp_status p = AVAILABLE else True).

#[global] Instance port_wanted_dec sid ct ao p : Decision (port_wanted sid ct ao p).
Proof. unfold port_wanted. destruct ct, ao; simpl; apply _. Defined.

(** Refreshing a token again and again, at the given times. *)
Fixpoint refresh_chain (env_JWT_SECRET : option string) (times : list Z)
    (token : jsonwebtoken.token) : result jsonwebtoken.token :=
  match times with
  | [] => Ok token
  | t :: times' =>
      match refreshToken env_JWT_SECRET t token with
      | Ok token' => refresh_chain env_JWT_SECRET times' token'
      | Throw e => Throw e
      end
  end.

(** Each time is less than a day after the one before, starting from [t0]. *)
Fixpoint within_a_day (t0 : Z) (times : list Z) : Prop :=
  match times with
  | [] => True
  | t :: times' => (t < t0 + 86400)%Z ∧ within_a_day t times'
  end.

(** The Standard Library's specification of binary64 arithmetic, to
    compare the rounding above with: the rational a [spec_float] denotes,
    and the [spec_float] of an integer. *)
Definition SF_value (x : spec_float) : option Q :=
  match x with
  | S754_zero _ => Some 0%Q
  | S754_finite s m e => Some (Qred (dyadic (if s then Z.neg m else Z.pos m) e))
  | _ => None
  end.

Definition SF_of_Z (z : Z) : spec_float := binary_normalize 53 1024 z 0 false.

(** ** Example data *)

(** Two tenants, [T1] and [T2]; alice works for [T1] and bob for [T2].
    [T2] owns station [s2] with ports [p2] and [p3]. *)
Definition alice : CtxUser := mkCtxUser "u1" "T1" "OPERATOR".
Definition bob : CtxUser := mkCtxUser "u2" "T2" "TENANT_ADMIN".

Definition station_s2 : Station :=
  mkStation "s2" "T2" "Bayside" (377749 # 10000) (-1224194 # 10000) true.
Definition port_p2 : ChargingPort := mkChargingPort "p2" "s2" 1 CCS2 150 AVAILABLE.
Definition port_p3 : ChargingPort := mkChargingPort "p3" "s2" 2 TYPE2 22 OCCUPIED.

Definition db_two_tenants : Db :=
  mkDb [mkTenant "T1" "Volt" "STATION_OPERATOR" true;
        mkTenant "T2" "Ampere" "STATION_OPERATOR" true]
       [mkUser "u1" "alice@volt.example" (Some "h1") "Alice" "A" None "OPERATOR" "T1" true;
        mkUser "u2" "bob@ampere.example" (Some "h2") "Bob" "B" None "TENANT_ADMIN" "T2"
          true]
       [station_s2]
       [port_p2; port_p3]
       [] [] [] 100.

(** The same database with a third user, dave of [T1], whose password
    column is null. *)
Definition db_no_password : Db :=
  mkDb (tenants db_two_tenants)
       (users db_two_tenants
        ++ [mkUser "u3" "dave@volt.example" None "Dave" "D" None "OPERATOR" "T1" true])
       (stations db_two_tenants) (chargingPorts db_two_tenants) [] [] [] 100.

(** The same database with a third port, available, on station [s2]. *)
Definition port_p5 : ChargingPort := mkChargingPort "p5" "s2" 3 CCS2 50 AVAILABLE.

Definition db_three_ports : Db :=
  mkDb (tenants db_two_tenants) (users db_two_tenants) (stations db_two_tenants)
    [port_p2; port_p3; port_p5] [] [] [] 100.

Definition rename_station (name : string) (s : Station) : Station :=
  mkStation (st_id s) (st_tenantId s) name (st_latitude s) (st_longitude s)
    (st_isActive s).

(** The same database with sessions, bookings and payments: alice has a
    pending payment [pay1] for session [sess1] and booking [book1], a
    completed payment [pay2] and a refunded payment [pay3]; bob has a
    pending payment [pay9]. *)
Definition pay1 : Payment :=
  mkPayment "pay1" (25 # 2) "USD" PENDING "CREDIT_CARD" (Some "pi_1") "u1"
    (Some "sess1") (Some "book1") ∅.
Definition pay2 : Payment :=
  mkPayment "pay2" 40 "USD" COMPLETED "CREDIT_CARD" (Some "pi_2") "u1"
    (Some "sess2") None ∅.
Definition pay3 : Payment :=
  mkPayment "pay3" 8 "USD" REFUNDED "CREDIT_CARD" (Some "pi_3") "u1" None None ∅.
Definition pay9 : Payment :=
  mkPayment "pay9" 30 "USD" PENDING "CREDIT_CARD" (Some "pi_9") "u2"
    (Some "sess2") None ∅.

Definition sess1 : ChargingSession := mkChargingSession "sess1" "p2" "ACTIVE" None (Some 31%Q).
Definition sess2 : ChargingSession := mkChargingSession "sess2" "p3" "COMPLETED" None (Some 75%Q).
Definition book1 : Booking := mkBooking "book1" None.
Definition book2 : Booking := mkBooking "book2" None.

Definition db_payments : Db :=
  mkDb (tenants db_two_tenants) (users db_two_tenants) (stations db_two_tenants)
    (chargingPorts db_two_tenants) [sess1; sess2] [book1; book2]
    [pay1; pay2; pay3; pay9] 100.

(** The payments database after session [sess1] has gone: [pay1] still
    names it. *)
Definition db_dangling : Db :=
  mkDb (tenants db_payments) (users db_payments) (stations db_payments)
    (chargingPorts db_payments) [sess2] (bookings db_payments)
    (payments db_payments) 100.

(** A provider whose intents all have the given status, which names each
    new intent [intent], and which refunds what it is asked to, or 4000
    cents when no amount is given. *)
Definition stripe_with (intent status : string) : Stripe :=
  mkStripe
    (λ _, Ok (mkPaymentIntent intent (Some (intent +:+ "_secret")) "requires_payment_method"))
    (λ id, Ok (mkPaymentIntent id None status))
    (λ r, Ok (mkRefund "re_1" (default 4000%Z (rp_amount r)) "succeeded")).

(** The number 0.29: the binary64 value nearest to 29/100. *)
Definition number_0_29 : Q := round_finite (29 # 100).

Definition input_sess1 : CreatePaymentIntentInput :=
  mkCreatePaymentIntentInput (25 # 2) "USD" (Some "sess1") None None.

(** Three stations of tenant [T1] beside [s2] of tenant [T2], around the
    point (37.7849, -122.4094): [s4] a hundredth of a degree to the west,
    with one occupied port, [s5] half a degree to the north, [s6] at the
    point but inactive. *)
Definition station_s4 : Station :=
  mkStation "s4" "T1" "Hilltop" (377849 # 10000) (-1224194 # 10000) true.
Definition station_s5 : Station :=
  mkStation "s5" "T1" "Valley" (382849 # 10000) (-1224094 # 10000) true.
Definition station_s6 : Station :=
  mkStation "s6" "T1" "Depot" (377849 # 10000) (-1224094 # 10000) false.
Definition port_p4 : ChargingPort := mkChargingPort "p4" "s4" 1 CCS2 50 OCCUPIED.

Definition db_nearby : Db :=
  mkDb (tenants db_two_tenants) (users db_two_tenants)
    [station_s5; station_s2; station_s6; station_s4]
    [port_p2; port_p3; port_p4] [] [] [] 100.

(** * Properties *)

(** ** Filters *)

Lemma matches_lookup `{Model R} (w : where_clause) (r : R) k v :
  matches w r → w !! k = Some v → field r k = Some v.
Proof. intros Hm Hk. exact (Hm k v Hk). Qed.

Lemma matches_insert `{Model R} (w : where_clause) (r : R) k v :
  matches (<[k := v]> w) r → field r k = Some v.
Proof. intros Hm. eapply matches_lookup; [exact Hm|]. apply lookup_insert_eq. Qed.

Lemma matches_singleton `{Model R} (r : R) k v :
  matches {[k := v]} r ↔ field r k = Some v.
Proof. unfold matches. by rewrite map_Forall_singleton. Qed.

Lemma matches_insert_fresh `{Model R} (w : where_clause) (r : R) k v :
  w !! k = None →
  matches (<[k := v]> w) r ↔ field r k = Some v ∧ matches w r.
Proof. intros Hk. unfold matches. by rewrite map_Forall_insert. Qed.

Lemma findMany_rows_spec `{Model R} w (l : list R) r :
  r ∈ findMany_rows w l ↔ selects w r ∧ r ∈ l.
Proof. unfold findMany_rows. apply list_elem_of_filter. Qed.

Lemma head_findMany_rows `{Model R} w (l : list R) r :
  head (findMany_rows w l) = Some r → selects w r ∧ r ∈ l.
Proof. intros Hh. apply findMany_rows_spec. by apply head_Some_elem_of. Qed.

Lemma head_findMany_rows_None `{Model R} w (l : list R) :
  (∀ r, r ∈ l → ¬ selects w r) → head (findMany_rows w l) = None.
Proof.
  intros Hno. destruct (head _) as [r|] eqn:Hh; [|done].
  apply head_findMany_rows in Hh as [Hs Hin]. by destruct (Hno r Hin).
Qed.

(** ** The tenant guard *)

(** Whether a method name is one of the wrapped ones is settled by
    evaluation. *)
Ltac by_method_list := apply (bool_decide_unpack _); vm_compute; exact I.

Lemma length_filter_impl {A} (P Q : A → Prop) `{!∀ x, Decision (P x)}
    `{!∀ x, Decision (Q x)} (l : list A) :
  (∀ x, P x → Q x) → (length (filter P l) ≤ length (filter Q l))%nat.
Proof.
  intros HPQ. induction l as [|x l IH]; [done|].
  rewrite !filter_cons. destruct (decide (P x)) as [HP|HP].
  - rewrite decide_True by auto. simpl. lia.
  - destruct (decide (Q x)); simpl; lia.
Qed.

Lemma through_scoped {D} t m (a : args D) :
  m ∈ scoped_methods →
  through (TenantClient t) m a
  = mkArgs (Some (<["tenantId" := JStr t]> (default ∅ (a_where a)))) (a_rest a).
Proof.
  intros Hm. simpl. unfold tenantMiddleware. rewrite decide_True by done.
  destruct (a_where a); simpl; [done|]. by rewrite insert_empty.
Qed.

Lemma through_unscoped {D} c m (a : args D) :
  m ∉ scoped_methods → through c m a = a.
Proof.
  intros Hm. destruct c; simpl; [done|].
  unfold tenantMiddleware. by rewrite decide_False.
Qed.

Lemma scoped_selects_owned `{Model R} t m (a : args unit) (r : R) :
  m ∈ scoped_methods →
  selects (a_where (through (TenantClient t) m a)) r → owned_by t r.
Proof.
  intros Hm. rewrite through_scoped by done. simpl. apply matches_insert.
Qed.

(** What the tenant guard does. Through the tenant-scoped context every
    read ([findMany], [findFirst], [findUnique], [count], [aggregate]) runs
    with a filter whose [tenantId] is the caller's, whatever tenant filter
    the caller supplied, and with the caller's other filter fields and
    arguments as supplied; the rows such a read returns, or counts, are
    all owned by the caller's tenant. Every other method, the writes
    included, reaches storage with the caller's arguments unchanged. *)
Theorem tenant_guard_scopes_reads (u : CtxUser) :
  let c := ctx_prisma (tenantProcedure u) in
  let t := cu_tenantId u in
  (∀ D m (a : args D), m ∈ scoped_methods →
     ∃ w, a_where (through c m a) = Some w
          ∧ w !! "tenantId" = Some (JStr t)
          ∧ (∀ k, k ≠ "tenantId" → w !! k = default ∅ (a_where a) !! k)
          ∧ a_rest (through c m a) = a_rest a)
  ∧ (∀ R (HR : Model R) (T : Table R) (a : args unit) (d : Db),
       (∃ l, findMany T c a d = (Ok l, d) ∧ Forall (owned_by t) l ∧ l ⊆ rows T d)
       ∧ (∃ o, findFirst T c a d = (Ok o, d) ∧ ∀ r, o = Some r → owned_by t r ∧ r ∈ rows T d)
       ∧ (∃ o, findUnique T c a d = (Ok o, d) ∧ ∀ r, o = Some r → owned_by t r ∧ r ∈ rows T d)
       ∧ (∃ n, count T c a d = (Ok n, d) ∧ (n ≤ length (filter (owned_by t) (rows T d)))%nat))
  ∧ (∀ D m (a : args D), m ∉ scoped_methods → through c m a = a).
Proof.
  simpl. split_and!.
  - intros D m a Hm. change (tenantMiddleware (cu_tenantId u) m a)
      with (through (TenantClient (cu_tenantId u)) m a).
    rewrite through_scoped by done. simpl. eexists; split_and!; [done| | |done].
    + apply lookup_insert_eq.
    + intros k Hk. by rewrite lookup_insert_ne.
  - intros R HR T a d.
    assert (Hsub : ∀ m, m ∈ scoped_methods →
              ∀ r, r ∈ findMany_rows (a_where (through (TenantClient (cu_tenantId u)) m a)) (rows T d) →
                   owned_by (cu_tenantId u) r ∧ r ∈ rows T d).
    { intros m Hm r [Hs Hin]%findMany_rows_spec. split; [|done].
      by eapply scoped_selects_owned. }
    split_and!.
    + eexists; split; [reflexivity|]. split.
      * apply Forall_forall. intros r Hr. eapply (Hsub "findMany"); [by_method_list|done].
      * intros r Hr. eapply (Hsub "findMany"); [by_method_list|done].
    + eexists; split; [reflexivity|]. intros r Hr%head_Some_elem_of.
      eapply (Hsub "findFirst"); [by_method_list|done].
    + eexists; split; [reflexivity|]. intros r Hr%head_Some_elem_of.
      eapply (Hsub "findUnique"); [by_method_list|done].
    + eexists; split; [reflexivity|]. apply length_filter_impl.
      intros r. apply scoped_selects_owned. by_method_list.
  - intros D m a Hm. change (tenantMiddleware (cu_tenantId u) m a)
      with (through (TenantClient (cu_tenantId u)) m a).
    by apply through_unscoped.
Qed.

(** The filter [{ id, tenantId }] of the tenant-scoped station handlers,
    as it reaches storage. *)
Lemma selects_station_of_tenant u m sid (s : Station) :
  m ∈ scoped_methods →
  selects (a_where (through (ctx_prisma (tenantProcedure u)) m
             (mkArgs (Some {["id" := JStr sid; "tenantId" := JStr (cu_tenantId u)]}) ())))
          s
  ↔ st_id s = sid ∧ st_tenantId s = cu_tenantId u.
Proof.
  intros Hm. unfold tenantProcedure, ctx_prisma. rewrite through_scoped by done.
  simpl. split.
  - intros Hs. split.
    + assert (field s "id" = Some (JStr sid)) as Hf
        by (eapply matches_lookup; [exact Hs|reflexivity]).
      by injection Hf.
    + apply matches_insert in Hs. by injection Hs.
  - intros [<- Ht]. unfold matches.
    apply map_Forall_insert_2; [by rewrite <- Ht|].
    apply map_Forall_insert_2; [done|].
    apply map_Forall_singleton. by rewrite <- Ht.
Qed.

(** The tenant-scoped station handlers do not see another tenant's
    station: [getRealtimeStats] and [addPort] answer [NOT_FOUND] and write
    nothing. *)
Lemma getRealtimeStats_other_tenant u sid d :
  (∀ s, s ∈ stations d → st_id s = sid → st_tenantId s ≠ cu_tenantId u) →
  getRealtimeStats u sid d = (Throw (TRPCError NOT_FOUND), d).
Proof.
  intros Hother. unfold getRealtimeStats, bind, findFirst.
  rewrite head_findMany_rows_None; [done|].
  intros s Hin [Hid Ht]%selects_station_of_tenant; [|by_method_list].
  by eapply Hother.
Qed.

(** [addPort] on a station id that no station of the caller's tenant
    carries answers [NOT_FOUND] and stores no port. *)
Lemma addPort_other_tenant u sid n ct pw d :
  (∀ s, s ∈ stations d → st_id s = sid → st_tenantId s ≠ cu_tenantId u) →
  addPort u sid n ct pw d = (Throw (TRPCError NOT_FOUND), d).
Proof.
  intros Hother. unfold addPort, bind, findFirst.
  rewrite head_findMany_rows_None; [done|].
  intros s Hin [Hid Ht]%selects_station_of_tenant; [|by_method_list].
  by eapply Hother.
Qed.

(** [getById] and [updatePortStatus] do not look at the caller at all:
    two callers, of whatever tenants, get the same answer and leave the
    same database. *)
Lemma getById_any_caller u u' id d : getById u id d = getById u' id d.
Proof. reflexivity. Qed.

Lemma updatePortStatus_any_caller u u' portId status d :
  updatePortStatus u portId status d = updatePortStatus u' portId status d.
Proof. reflexivity. Qed.

(** C1 (the code at the failing input). alice belongs to tenant [T1];
    station [s2] and its port [p2] belong to tenant [T2]. [getById] hands
    alice the station with its ports, and [updatePortStatus] lets her put
    the port out of order. *)
Theorem cross_tenant_getById_updatePortStatus :
  cu_tenantId alice = "T1"
  ∧ st_tenantId station_s2 = "T2"
  ∧ getById alice "s2" db_two_tenants
    = (Ok (mkStationDetail station_s2 [mkPortDetail port_p2 []; mkPortDetail port_p3 []]),
       db_two_tenants)
  ∧ updatePortStatus alice "p2" OUT_OF_ORDER db_two_tenants
    = (Ok (mkChargingPort "p2" "s2" 1 CCS2 150 OUT_OF_ORDER),
       set_rows ChargingPorts
         [mkChargingPort "p2" "s2" 1 CCS2 150 OUT_OF_ORDER; port_p3] db_two_tenants).
Proof. split_and!; reflexivity. Qed.

(** The same station through the tenant-scoped handlers. *)
Example cross_tenant_siblings :
  getRealtimeStats alice "s2" db_two_tenants = (Throw (TRPCError NOT_FOUND), db_two_tenants)
  ∧ addPort alice "s2" 3 CCS2 50 db_two_tenants = (Throw (TRPCError NOT_FOUND), db_two_tenants).
Proof. split; reflexivity. Qed.

(** C2 (the code at the failing input). The guard announces itself as
    the tenant isolation middleware that adds the tenant filter to all
    queries, and wraps the five read methods only. Through the
    tenant-scoped context of alice (tenant [T1]) an [update] selecting
    station [s2] of tenant [T2] by id succeeds and renames it: no
    authorization error, and the row is written. *)
Lemma tenant_guard_write_unchecked :
  cu_tenantId alice = "T1"
  ∧ st_tenantId station_s2 = "T2"
  ∧ update Stations (ctx_prisma (tenantProcedure alice))
      (mkArgs (Some {["id" := JStr "s2"]}) (rename_station "Taken")) db_two_tenants
    = (Ok (rename_station "Taken" station_s2),
       set_rows Stations [rename_station "Taken" station_s2] db_two_tenants)
  ∧ set_rows Stations [rename_station "Taken" station_s2] db_two_tenants ≠ db_two_tenants.
Proof. split_and!; [reflexivity..|discriminate]. Qed.

(** ** Real-time statistics *)

Lemma length_ports_with st (f : ChargingPort → PortDetail) (l : list ChargingPort) :
  (∀ p, pd_port (f p) = p) →
  length (ports_with st (f <$> l)) = length (filter (λ p, cp_status p = st) l).
Proof.
  intros Hf. unfold ports_with. induction l as [|p l IH]; [done|].
  rewrite fmap_cons, !filter_cons, Hf. destruct (decide _); simpl; by rewrite IH.
Qed.

Lemma round_half_even_bounds (n d k : Z) :
  (0 < d)%Z → (0 ≤ n)%Z → (n ≤ k * d)%Z →
  (0 ≤ round_half_even n d ≤ k)%Z.
Proof.
  intros Hd Hn Hk. unfold round_half_even.
  pose proof (Z.div_mod n d ltac:(lia)) as Hdm.
  pose proof (Z.mod_pos_bound n d Hd) as Hmod.
  assert (0 ≤ n / d)%Z as Hq0 by (apply Z.div_pos; lia).
  assert (n / d ≤ k)%Z as Hqk by (apply Z.div_le_upper_bound; lia).
  generalize dependent (n / d)%Z. generalize dependent (n mod d)%Z.
  intros r Hr q Hdm Hq0 Hqk.
  assert (q = k → r = 0)%Z as Hfull by (intros ->; nia).
  destruct (2 * r ?= d)%Z eqn:Hc.
  - apply Z.compare_eq in Hc. destruct (Z.even q); lia.
  - lia.
  - apply Z.compare_gt_iff in Hc. lia.
Qed.

(** The nearest integer is within a half of the quotient. *)
Lemma round_half_even_error (n d : Z) :
  (0 < d)%Z →
  (- d ≤ 2 * (d * round_half_even n d - n) ≤ d)%Z.
Proof.
  intros Hd. unfold round_half_even.
  pose proof (Z.div_mod n d ltac:(lia)) as Hdm.
  pose proof (Z.mod_pos_bound n d Hd) as Hmod.
  generalize dependent (n / d)%Z. generalize dependent (n mod d)%Z.
  intros r Hr q ->.
  destruct (2 * r ?= d)%Z eqn:Hc.
  - apply Z.compare_eq in Hc. destruct (Z.even q); lia.
  - change (2 * r < d)%Z in Hc. lia.
  - apply Z.compare_gt_iff in Hc. lia.
Qed.

(** No integer is nearer to the quotient. *)
Lemma round_half_even_nearest (n d z : Z) :
  (0 < d)%Z →
  (Z.abs (d * round_half_even n d - n) ≤ Z.abs (d * z - n))%Z.
Proof.
  intros Hd. pose proof (round_half_even_error n d Hd) as Herr.
  destruct (decide (z = round_half_even n d)) as [->|Hne]; [done|].
  assert (d ≤ Z.abs (d * z - d * round_half_even n d))%Z by nia.
  lia.
Qed.

(** [2^e <= n / d < 2^(e+1)] for the binade [e] of a fraction up to 1. *)
Lemma binade_spec (n d : Z) :
  (0 < n)%Z → (n ≤ d)%Z →
  (binade n d ≤ 0)%Z
  ∧ (d ≤ n * 2 ^ (- binade n d))%Z
  ∧ (n * 2 ^ (- binade n d) < 2 * d)%Z.
Proof.
  intros Hn Hd. unfold binade.
  pose proof (Z.log2_le_mono n d Hd) as Hlog.
  pose proof (Z.log2_nonneg n) as Hln.
  pose proof (Z.log2_spec n Hn) as [Hn1 Hn2].
  pose proof (Z.log2_spec d ltac:(lia)) as [Hd1 Hd2].
  rewrite Z.pow_succ_r in Hn2, Hd2 by apply Z.log2_nonneg.
  set (ln := Z.log2 n) in *. set (ld := Z.log2 d) in *.
  assert (2 ^ ld = 2 ^ ln * 2 ^ (ld - ln))%Z as Hsplit
    by (rewrite <- Z.pow_add_r by lia; f_equal; lia).
  assert (0 < 2 ^ (ld - ln))%Z by (apply Z.pow_pos_nonneg; lia).
  assert (0 < 2 ^ ln)%Z by (apply Z.pow_pos_nonneg; lia).
  rewrite (Z.max_r (ln - ld) 0), (Z.max_l (- (ln - ld)) 0) by lia.
  rewrite Z.pow_0_r, Z.mul_1_r.
  replace (- (ln - ld))%Z with (ld - ln)%Z by lia.
  case_decide as Hc.
  - replace (- (ln - ld))%Z with (ld - ln)%Z by lia. split_and!; [lia|lia|nia].
  - replace (- (ln - ld - 1))%Z with (Z.succ (ld - ln)) by lia.
    rewrite Z.pow_succ_r by lia. split_and!; [lia|nia|nia].
Qed.

Lemma Qabs_minus_le (xn yn zn : Z) (xd yd zd : positive) :
  (Z.abs (xn * Z.pos yd - yn * Z.pos xd) * Z.pos zd
   ≤ Z.abs (zn * Z.pos yd - yn * Z.pos zd) * Z.pos xd)%Z →
  (Qabs ((xn # xd) - (yn # yd)) <= Qabs ((zn # zd) - (yn # yd)))%Q.
Proof.
  intros H. unfold Qle, Qminus, Qplus, Qopp, Qabs. cbn [Qnum Qden].
  rewrite !Pos2Z.inj_mul.
  replace (xn * Z.pos yd + - yn * Z.pos xd)%Z with (xn * Z.pos yd - yn * Z.pos xd)%Z by lia.
  replace (zn * Z.pos yd + - yn * Z.pos zd)%Z with (zn * Z.pos yd - yn * Z.pos zd)%Z by lia.
  nia.
Qed.

(** A proper fraction of two natural numbers rounds to a binary64 value
    from 0 to 1; no binary64 value is nearer to the fraction, and the two
    differ by [2^-53] at most. *)
Lemma round_finite_ratio (a b : nat) :
  (0 < b)%nat → (a ≤ b)%nat →
  let exact := (inject_Z (Z.of_nat a) / inject_Z (Z.of_nat b))%Q in
  let q := round_finite (Z.of_nat a # Pos.of_nat b) in
  (0 <= q)%Q ∧ (q <= 1)%Q
  ∧ binary64 q
  ∧ (∀ x, binary64 x → (Qabs (q - exact) <= Qabs (x - exact))%Q)
  ∧ (Qabs (q - exact) <= 1 # 2 ^ 53)%Q.
Proof.
  intros Hb Hab. cbv zeta. unfold round_finite.
  cbn [Qnum Qden].
  assert (Z.pos (Pos.of_nat b) = Z.of_nat b) as Hden
    by (rewrite <- (Nat2Pos.id b) at 2 by lia; by rewrite positive_nat_Z).
  assert (inject_Z (Z.of_nat a) / inject_Z (Z.of_nat b) == Z.of_nat a # Pos.of_nat b)%Q
    as Hexact by (rewrite Qmake_Qdiv; by rewrite Hden).
  case_decide as Ha.
  { split_and!; [done|done| | |].
    - exists 0%Z, 0%Z. by split_and!.
    - intros x _. rewrite Hexact, Ha.
      assert (0 - (0 # Pos.of_nat b) == 0)%Q as -> by done.
      apply Qabs_nonneg.
    - rewrite Hexact, Ha. done. }
  rewrite Hden.
  set (n := Z.of_nat a) in *. set (d := Z.of_nat b) in *.
  assert (0 < n)%Z as Hpos by lia.
  assert (n ≤ d)%Z as Hle by lia.
  rewrite (Z.abs_eq n) by lia.
  destruct (binade_spec n d Hpos Hle) as (He & Hlow & Hup).
  set (e := binade n d) in *.
  assert (-1074 ≤ last_place e ≤ -52)%Z as Hex by (unfold last_place; lia).
  assert (last_place e = e - 52 ∨ last_place e = -1074 ∧ e - 52 < -1074)%Z as Hcase
    by (unfold last_place; lia).
  set (ex := last_place e) in *.
  rewrite (Z.max_l _ 0) by lia. rewrite (Z.max_r ex 0) by lia.
  rewrite Z.pow_0_r, !Z.mul_1_r.
  set (k := (- ex)%Z) in *.
  set (j := (- e)%Z) in *.
  assert (0 < 2 ^ j)%Z as Hj0 by (apply Z.pow_pos_nonneg; lia).
  assert (0 < 2 ^ k)%Z as Hk0 by (apply Z.pow_pos_nonneg; lia).
  assert (2 ^ 52 ≤ 2 ^ k)%Z as Hk by (apply Z.pow_le_mono_r; lia).
  (* the scaled quotient is below 2^53 *)
  assert (n * 2 ^ k < 2 ^ 53 * d)%Z as Hbelow.
  { assert (2 * d ≤ 2 ^ 53 * d)%Z by (apply Z.mul_le_mono_nonneg_r; [lia|done]).
    destruct (Z.le_gt_cases k j) as [Hkj|Hkj].
    - assert (2 ^ k ≤ 2 ^ j)%Z by (apply Z.pow_le_mono_r; lia).
      assert (n * 2 ^ k ≤ n * 2 ^ j)%Z by nia. lia.
    - assert (2 ^ k = 2 ^ j * 2 ^ (k - j))%Z as ->
        by (rewrite <- Z.pow_add_r by lia; f_equal; lia).
      assert (2 ^ (k - j) ≤ 2 ^ 52)%Z by (apply Z.pow_le_mono_r; lia).
      assert (0 < 2 ^ (k - j))%Z by (apply Z.pow_pos_nonneg; lia).
      change (2 ^ 53)%Z with (2 * 2 ^ 52)%Z. nia. }
  set (m := round_half_even (n * 2 ^ k) d).
  assert (0 < d)%Z as Hd by lia.
  assert (0 ≤ m ≤ 2 ^ k)%Z as Hm1 by (apply round_half_even_bounds; nia).
  assert (0 ≤ m ≤ 2 ^ 53)%Z as Hm2 by (apply round_half_even_bounds; nia).
  pose proof (round_half_even_error (n * 2 ^ k) d Hd) as Herr. fold m in Herr.
  assert (dyadic m ex == m # Z.to_pos (2 ^ k))%Q as Hq.
  { unfold dyadic. rewrite (Z.max_r ex 0), (Z.max_l (- ex) 0) by lia.
    by rewrite Z.pow_0_r, Z.mul_1_r. }
  assert (Qred (dyadic m ex) == m # Z.to_pos (2 ^ k))%Q as Hr
    by (by rewrite Qred_correct).
  generalize dependent (Qred (dyadic m ex)). intros r Hr.
  split_and!.
  - rewrite Hr. unfold Qle. cbn [Qnum Qden]. lia.
  - rewrite Hr. unfold Qle. cbn [Qnum Qden]. rewrite Z2Pos.id by lia. lia.
  - destruct (decide (m = 2 ^ 53)%Z) as [Hfull|Hnot].
    + exists (2 ^ 52)%Z, (ex + 1)%Z. split_and!; [done|lia|lia|].
      rewrite Hr. unfold dyadic. rewrite (Z.max_r (ex + 1) 0), (Z.max_l (- (ex + 1)) 0) by lia.
      rewrite Z.pow_0_r, Z.mul_1_r. unfold Qeq. cbn [Qnum Qden].
      assert (0 < 2 ^ (- (ex + 1)))%Z by (apply Z.pow_pos_nonneg; lia).
      rewrite !Z2Pos.id by lia. rewrite Hfull.
      replace k with (Z.succ (- (ex + 1))) by lia.
      rewrite Z.pow_succ_r by lia. lia.
    + exists m, ex. split_and!; [lia|lia|lia|].
      by rewrite Hr, Hq.
  - intros x (m' & e' & Hm' & He' & ->). rewrite Hr, Hexact.
    unfold dyadic. apply Qabs_minus_le. rewrite Hden. fold d.
    rewrite !Z2Pos.id by (apply Z.pow_pos_nonneg; lia).
    destruct (Z.le_gt_cases ex e') as [Hge|Hlt].
    + (* the value is on the grid of the rounding *)
      pose proof (round_half_even_nearest (n * 2 ^ k) d (m' * 2 ^ (e' + k)) Hd) as Hnear.
      fold m in Hnear.
      destruct (Z.le_gt_cases 0 e') as [Hpos'|Hneg'].
      * rewrite (Z.max_l e' 0), (Z.max_r (- e') 0) by lia.
        rewrite Z.pow_0_r, !Z.mul_1_r. rewrite Z.pow_add_r in Hnear by lia.
        assert (0 < 2 ^ e')%Z by (apply Z.pow_pos_nonneg; lia). nia.
      * rewrite (Z.max_r e' 0), (Z.max_l (- e') 0) by lia.
        rewrite Z.pow_0_r, !Z.mul_1_r.
        assert (2 ^ k = 2 ^ (e' + k) * 2 ^ (- e'))%Z as Hsplit
          by (rewrite <- Z.pow_add_r by lia; f_equal; lia).
        assert (0 < 2 ^ (e' + k))%Z by (apply Z.pow_pos_nonneg; lia).
        assert (0 < 2 ^ (- e'))%Z by (apply Z.pow_pos_nonneg; lia).
        nia.
    + (* the value lies below the binade *)
      destruct Hcase as [Heq|[Heq Hsub]]; [|lia].
      rewrite (Z.max_r e' 0), (Z.max_l (- e') 0) by lia.
      rewrite Z.pow_0_r, !Z.mul_1_r.
      assert (k = j + 52)%Z as Hkj by lia.
      assert (2 ^ k = 2 ^ j * 2 ^ 52)%Z as Hk2
        by (rewrite Hkj; apply Z.pow_add_r; lia).
      assert (2 * 2 ^ k ≤ 2 ^ (- e'))%Z as Hfine.
      { rewrite <- Z.pow_succ_r by lia. apply Z.pow_le_mono_r; lia. }
      pose proof (round_half_even_nearest (n * 2 ^ k) d (2 ^ 52) Hd) as Hnear.
      fold m in Hnear.
      assert (0 < 2 ^ (- e'))%Z as HD0 by (apply Z.pow_pos_nonneg; lia).
      remember (2 ^ (- e'))%Z as D eqn:HeqD.
      remember (2 ^ k)%Z as K eqn:HeqK.
      assert (d * 2 ^ 52 ≤ n * K)%Z as Hgrid.
      { rewrite Hk2. apply (Z.mul_le_mono_nonneg_r _ _ (2 ^ 52)) in Hlow; [|done].
        lia. }
      assert (Z.abs (m * d - n * K) ≤ n * K - d * 2 ^ 52)%Z as Hq1 by lia.
      assert (m' < 2 * 2 ^ 52)%Z as Hm'' by (change (2 * 2 ^ 52)%Z with (2 ^ 53)%Z; lia).
      assert (m' * K ≤ 2 ^ 52 * D)%Z as Hx1.
      { assert (m' * K ≤ 2 * 2 ^ 52 * K)%Z by (apply Z.mul_le_mono_nonneg_r; lia).
        assert (2 ^ 52 * (2 * K) ≤ 2 ^ 52 * D)%Z by (apply Z.mul_le_mono_nonneg_l; [done|lia]).
        lia. }
      assert (m' * K * d ≤ 2 ^ 52 * D * d)%Z as Hx2
        by (apply Z.mul_le_mono_nonneg_r; lia).
      assert (Z.abs (m * d - n * K) * D ≤ (n * K - d * 2 ^ 52) * D)%Z as Hx4
        by (apply Z.mul_le_mono_nonneg_r; lia).
      assert (0 ≤ (n * D - m' * d) * K - Z.abs (m * d - n * K) * D)%Z as Hx5.
      { replace ((n * D - m' * d) * K)%Z with (n * K * D - m' * K * d)%Z by ring.
        replace ((n * K - d * 2 ^ 52) * D)%Z with (n * K * D - 2 ^ 52 * D * d)%Z in Hx4
          by ring.
        lia. }
      assert (m' * d < n * D)%Z as Hx3.
      { assert (n * (2 * K) ≤ n * D)%Z by (apply Z.mul_le_mono_nonneg_l; lia).
        assert (m' * d < 2 * 2 ^ 52 * d)%Z by (apply Z.mul_lt_mono_pos_r; lia).
        lia. }
      rewrite (Z.abs_neq (m' * d - n * D)) by lia.
      lia.
  - rewrite Hr, Hexact.
    apply Qabs_Qle_condition. unfold Qle, Qminus, Qplus, Qopp. cbn [Qnum Qden].
    rewrite !Pos2Z.inj_mul, Hden, Z2Pos.id by lia. fold d.
    change (Z.pos (2 ^ 53)) with (2 * 2 ^ 52)%Z.
    split; nia.
Qed.

(** The rounding agrees with the specification of binary64 arithmetic in
    the Standard Library ([SFdiv], [SFmul], [SFadd]) on every quotient of
    two lengths up to 60, on quotients in the subnormal range, on
    products by 100, on every amount of up to 500 cents divided by 100,
    and on sums of amounts. *)
Lemma round_finite_agrees_with_SpecFloat :
  Forall (λ a,
    Forall (λ b,
      SF_value (SFdiv 53 1024 (SF_of_Z (Z.of_nat a)) (SF_of_Z (Z.of_nat b)))
      = Some (round_finite (Z.of_nat a # Pos.of_nat b)))
      (seq 1 60))
    (seq 0 61)
  ∧ Forall (λ a,
      Forall (λ k,
        SF_value (SFdiv 53 1024 (SFldexp 53 1024 (SF_of_Z a) (- k)) (SF_of_Z 3))
        = Some (round_finite (inject_Z a * inject_Z 2 ^ (- k) / 3)))
        [0; 1; 52; 53; 1000; 1022; 1050; 1070; 1072; 1073; 1074]%Z)
      [1; 2; 3; 5; 7; 8; 11; 4503599627370497; 9007199254740991; -1; -5]%Z
  ∧ Forall (λ a,
      Forall (λ k,
        SF_value (SFmul 53 1024 (SFldexp 53 1024 (SF_of_Z a) (- k)) (SF_of_Z 100))
        = Some (js_mul (inject_Z a * inject_Z 2 ^ (- k)) 100))
        [0; 1; 5; 50; 52; 54; 60]%Z)
      [1; 3; 7; 11; 4503599627370497; 9007199254740991; 5224175567749775;
       2611087783874888; -5]%Z
  ∧ Forall (λ cents,
      SF_value (SFdiv 53 1024 (SF_of_Z cents) (SF_of_Z 100)) = Some (js_hundredth cents))
      ((Z.of_nat <$> seq 0 501)
       ++ [1999; 4000; 123456789; 9007199254740991; -29]%Z)%list
  ∧ Forall (λ a,
      Forall (λ b,
        SF_value (SFadd 53 1024 (SFdiv 53 1024 (SF_of_Z a) (SF_of_Z 10))
                    (SFdiv 53 1024 (SF_of_Z b) (SF_of_Z 10)))
        = Some (js_add (round_finite (inject_Z a / 10)) (round_finite (inject_Z b / 10))))
        [0; 1; 2; 3; 7; 125; 310; 750; 123456789; -1; -3]%Z)
      [0; 1; 2; 3; 7; 125; 310; 750; 123456789; -1; -3]%Z.
Proof. split_and!; apply (bool_decide_unpack _); by vm_compute. Qed.

Lemma js_div_ratio (a b : nat) :
  (0 < b)%nat → (a ≤ b)%nat →
  let exact := (inject_Z (Z.of_nat a) / inject_Z (Z.of_nat b))%Q in
  ∃ q, js_div a b = Num q
       ∧ binary64 q
       ∧ (∀ x, binary64 x → (Qabs (q - exact) <= Qabs (x - exact))%Q)
       ∧ (Qabs (q - exact) <= 1 # 2 ^ 53)%Q
       ∧ (0 <= q)%Q ∧ (q <= 1)%Q.
Proof.
  intros Hb Hab. destruct b as [|b]; [lia|]. simpl js_div.
  destruct (round_finite_ratio a (S b) Hb Hab) as (H0 & H1 & Hdouble & Hnear & Herr).
  eexists; split; [reflexivity|]. by split_and!.
Qed.

(** C10 (as amended). For a station of the caller's tenant
    [getRealtimeStats] answers, and its [utilizationRate] is the number of
    the station's OCCUPIED ports divided by the number of its ports,
    unguarded, in JavaScript's arithmetic: with at least one port it is a
    binary64 value nearest to that quotient (no binary64 value is nearer),
    a rational number that lies in [0,1] and within [2^-53] of the
    quotient; with no port the divisor is zero and the result is not a
    number. *)
Theorem getRealtimeStats_utilizationRate u sid d s :
  s ∈ stations d → st_id s = sid → st_tenantId s = cu_tenantId u →
  ∃ stats,
    getRealtimeStats u sid d = (Ok stats, d)
    ∧ let ports := filter (λ p, cp_stationId p = sid) (chargingPorts d) in
      let occupied := filter (λ p, cp_status p = OCCUPIED) ports in
      let exact := (inject_Z (Z.of_nat (length occupied))
                    / inject_Z (Z.of_nat (length ports)))%Q in
      totalPorts stats = length ports
      ∧ occupiedPorts stats = length occupied
      ∧ (ports ≠ [] →
           ∃ q, utilizationRate stats = Num q
                ∧ binary64 q
                ∧ (∀ x, binary64 x → (Qabs (q - exact) <= Qabs (x - exact))%Q)
                ∧ (Qabs (q - exact) <= 1 # 2 ^ 53)%Q
                ∧ (0 <= q)%Q ∧ (q <= 1)%Q)
      ∧ (ports = [] → utilizationRate stats = NaN).
Proof.
  intros Hin Hid Ht. unfold getRealtimeStats, bind, findFirst.
  destruct (head _) as [s'|] eqn:Hhead; simpl.
  - apply head_findMany_rows in Hhead as [[Hid' Ht']%selects_station_of_tenant _];
      [|by_method_list].
    eexists; split; [reflexivity|]. unfold gets, stats_of, include_chargingPorts.
    cbn [totalPorts occupiedPorts utilizationRate].
    rewrite Hid', length_fmap, length_ports_with by done.
    split_and!; [done..| |].
    + intros Hne. apply js_div_ratio.
      * destruct (filter _ (chargingPorts d)); [done|simpl; lia].
      * apply length_filter.
    + intros ->. done.
  - exfalso. apply head_None in Hhead.
    apply (not_elem_of_nil s). rewrite <- Hhead.
    apply findMany_rows_spec. split; [|done].
    apply (selects_station_of_tenant u "findFirst"); [by_method_list|done].
Qed.

(** A station of bob's tenant with three ports, one of them occupied. *)
Lemma getRealtimeStats_utilizationRate_witness :
  ∃ stats,
    getRealtimeStats bob "s2" db_three_ports = (Ok stats, db_three_ports)
    ∧ let ports := filter (λ p, cp_stationId p = "s2") (chargingPorts db_three_ports) in
      let occupied := filter (λ p, cp_status p = OCCUPIED) ports in
      let exact := (inject_Z (Z.of_nat (length occupied))
                    / inject_Z (Z.of_nat (length ports)))%Q in
      totalPorts stats = length ports
      ∧ occupiedPorts stats = length occupied
      ∧ (ports ≠ [] →
           ∃ q, utilizationRate stats = Num q
                ∧ binary64 q
                ∧ (∀ x, binary64 x → (Qabs (q - exact) <= Qabs (x - exact))%Q)
                ∧ (Qabs (q - exact) <= 1 # 2 ^ 53)%Q
                ∧ (0 <= q)%Q ∧ (q <= 1)%Q)
      ∧ (ports = [] → utilizationRate stats = NaN).
Proof.
  apply (getRealtimeStats_utilizationRate bob "s2" db_three_ports station_s2);
    [apply list_elem_of_here|reflexivity|reflexivity].
Defined.

(** C10 (counterexample). Station [s2] with three ports, one of them
    occupied: the [utilizationRate] is the binary64 value
    0.333333333333333314829616256247..., which is not the quotient 1/3. *)
Lemma getRealtimeStats_utilizationRate_not_exact :
  ∃ stats,
    getRealtimeStats bob "s2" db_three_ports = (Ok stats, db_three_ports)
    ∧ totalPorts stats = 3%nat
    ∧ occupiedPorts stats = 1%nat
    ∧ utilizationRate stats = Num (6004799503160661 # 18014398509481984)
    ∧ ¬ (6004799503160661 # 18014398509481984 == inject_Z 1 / inject_Z 3)%Q.
Proof.
  eexists. split_and!; [by vm_compute|reflexivity|reflexivity|by vm_compute|].
  intros Heq. vm_compute in Heq. discriminate.
Qed.

(** The unguarded division on a station without ports. *)
Example getRealtimeStats_no_ports :
  utilizationRate <$> match (getRealtimeStats bob "s2"
                               (set_rows ChargingPorts [] db_two_tenants)).1 with
                      | Ok stats => Some stats
                      | Throw _ => None
                      end
  = Some NaN.
Proof. reflexivity. Qed.

(** ** Tokens *)

Lemma verifyJWT_signJWT env (p : Identity) (t now : Z) :
  (now < t + 86400)%Z →
  verifyJWT env now (signJWT env t p)
  = Ok (mkJWTPayload (userId p) (tenantId p) (role p) (Some t) (Some (t + 86400)%Z)).
Proof.
  intros Hvalid.
  unfold verifyJWT, signJWT, jsonwebtoken.verify, jsonwebtoken.sign.
  cbn [jsonwebtoken.tok_key jsonwebtoken.tok_payload jp_exp].
  repeat case_decide; done || lia.
Qed.

Lemma verifyJWT_expired env (p : Identity) (t now : Z) :
  (t + 86400 ≤ now)%Z → verifyJWT env now (signJWT env t p) = Throw JwtError.
Proof.
  intros Hexp.
  unfold verifyJWT, signJWT, jsonwebtoken.verify, jsonwebtoken.sign.
  cbn [jsonwebtoken.tok_key jsonwebtoken.tok_payload jp_exp].
  repeat case_decide; done || lia.
Qed.

(** C9. Refreshing a still valid token that [signJWT] made for a payload
    gives a token that verifies (while it is itself valid) and decodes to
    the same [userId], [tenantId] and [role]: it is the token [signJWT]
    makes for the payload at the time of the refresh, so only the
    issued-at and expiry times differ. *)
Theorem refreshToken_preserves_identity (env_JWT_SECRET : option string)
    (p : Identity) (t0 t1 t2 : Z) :
  (t1 < t0 + 86400)%Z → (t2 < t1 + 86400)%Z →
  ∃ newToken decoded,
    refreshToken env_JWT_SECRET t1 (signJWT env_JWT_SECRET t0 p) = Ok newToken
    ∧ verifyJWT env_JWT_SECRET t2 newToken = Ok decoded
    ∧ jp_userId decoded = userId p
    ∧ jp_tenantId decoded = tenantId p
    ∧ jp_role decoded = role p
    ∧ newToken = signJWT env_JWT_SECRET t1 p
    ∧ jp_iat decoded = Some t1
    ∧ jp_exp decoded = Some (t1 + 86400)%Z.
Proof.
  intros Hvalid Hfresh. unfold refreshToken.
  rewrite verifyJWT_signJWT by done. simpl.
  eexists _, _. split; [reflexivity|].
  destruct p as [uid tid r]. rewrite verifyJWT_signJWT by done.
  by split_and!.
Qed.

(** A token signed at time 1000 is refreshed an hour later and checked a
    minute after that. *)
Lemma refreshToken_preserves_identity_witness :
  ∃ newToken decoded,
    refreshToken None 4600 (signJWT None 1000 (mkIdentity "u1" "T1" "OPERATOR")) = Ok newToken
    ∧ verifyJWT None 4660 newToken = Ok decoded
    ∧ jp_userId decoded = "u1"
    ∧ jp_tenantId decoded = "T1"
    ∧ jp_role decoded = "OPERATOR"
    ∧ newToken = signJWT None 4600 (mkIdentity "u1" "T1" "OPERATOR")
    ∧ jp_iat decoded = Some 4600%Z
    ∧ jp_exp decoded = Some (4600 + 86400)%Z.
Proof.
  apply (refreshToken_preserves_identity None (mkIdentity "u1" "T1" "OPERATOR")
           1000 4600 4660); lia.
Defined.

(** An expired token, or one signed with another secret, is not refreshed. *)
Lemma refreshToken_expired env (p : Identity) (t0 t1 : Z) :
  (t0 + 86400 ≤ t1)%Z → refreshToken env t1 (signJWT env t0 p) = Throw JwtError.
Proof.
  intros Hexp. unfold refreshToken. by rewrite verifyJWT_expired.
Qed.

(** ** Registration *)

Lemma create_fresh `{Model R} (T : Table R) c (a : args (string → R)) d :
  (∀ r', r' ∈ rows T d → ¬ collides T (a_rest a (pretty (next_id d))) r') →
  create T c a d
  = (Ok (a_rest a (pretty (next_id d))),
     bump_id (set_rows T (rows T d ++ [a_rest a (pretty (next_id d))]) d)).
Proof.
  intros Hfresh. unfold create. rewrite through_unscoped by by_method_list.
  rewrite decide_False; [done|]. rewrite Exists_exists.
  intros (r' & Hr' & Hc). by apply (Hfresh r').
Qed.

Lemma create_outcome `{Model R} (T : Table R) c (a : args (string → R)) d :
  create T c a d
  = (Ok (a_rest a (pretty (next_id d))),
     bump_id (set_rows T (rows T d ++ [a_rest a (pretty (next_id d))]) d))
  ∨ create T c a d = (Throw PrismaUnique, d).
Proof.
  unfold create. rewrite through_unscoped by by_method_list.
  destruct (decide _); [by right|by left].
Qed.

Lemma collides_no_uniques `{Model R} (T : Table R) (r r' : R) :
  uniques T = [] → ¬ collides T r r'.
Proof. unfold collides. intros ->. rewrite Exists_nil. tauto. Qed.

Lemma collides_user (r r' : User) :
  collides Users r r' ↔ u_email r' = u_email r.
Proof.
  unfold collides. simpl. rewrite Exists_cons, Exists_nil.
  change (field r' "email") with (Some (JStr (u_email r'))).
  change (field r "email") with (Some (JStr (u_email r))).
  split.
  - intros [[Heq _]|[]]. by injection Heq.
  - intros ->. left. by split.
Qed.

(** What the callback of the transaction leaves behind, from any
    database: both rows, or, when the user is refused, the tenant alone.
    The transaction around it is what removes the tenant again. *)
Lemma register_tx_outcome input h d :
  let t := mkTenant (pretty (next_id d)) (ri_tenantName input) (ri_tenantType input) true in
  let u := mkUser (pretty (N.succ (next_id d))) (ri_email input) (Some h)
             (ri_firstName input)
             (ri_lastName input) (ri_phone input) "TENANT_ADMIN" (tn_id t) true in
  ((∀ r, r ∈ users d → u_email r ≠ ri_email input) →
     register_tx input h d
     = (Ok (t, u), bump_id (set_rows Users (users d ++ [u])
                              (bump_id (set_rows Tenants (tenants d ++ [t]) d)))))
  ∧ ((∃ r, r ∈ users d ∧ u_email r = ri_email input) →
     register_tx input h d
     = (Throw PrismaUnique, bump_id (set_rows Tenants (tenants d ++ [t]) d))).
Proof.
  simpl. unfold register_tx, bind.
  rewrite create_fresh by (intros r' _; by apply collides_no_uniques).
  simpl a_rest. split.
  - intros Hfree. rewrite create_fresh; [done|].
    intros r' Hr' Hc%collides_user. by apply (Hfree r').
  - intros (r & Hr & Hemail). unfold create.
    rewrite through_unscoped by by_method_list. rewrite decide_True; [done|].
    apply Exists_exists. exists r. split; [done|]. by apply collides_user.
Qed.


(** A registration whose email was taken between the check and the
    transaction: the callback alone has created the tenant when the user
    is refused; the transaction undoes it. *)
Example register_tx_rolls_back :
  let input := mkRegisterInput "bob@ampere.example" "secret-pw" "Rob" "B" None
                 "Ohm" "ENTERPRISE" in
  tenants (register_tx input "h3" db_two_tenants).2
    = (tenants db_two_tenants ++ [mkTenant "100" "Ohm" "ENTERPRISE" true])%list
  ∧ transaction (register_tx input "h3") db_two_tenants
    = (Throw PrismaUnique, db_two_tenants).
Proof. split; reflexivity. Qed.

(** ** Payments *)

Lemma payment_status_str_inj : Inj (=) (=) payment_status_str.
Proof. intros [] []; done. Qed.

Lemma js_opt_str_JStr o s : js_opt_str o = JStr s ↔ o = Some s.
Proof. destruct o; simpl; split; intros Heq; (done || by injection Heq as ->). Qed.

(** What [createPaymentIntent] has done when it answers: one payment
    appended, PENDING, bound as the input says, its id drawn from the
    counter. *)
Lemma createPaymentIntent_inv stripe u input d r d' :
  createPaymentIntent stripe u input d = (Ok r, d') →
  ∃ p, d' = bump_id (set_rows Payments (payments d ++ [p]) d)
       ∧ out_paymentId r = pay_id p
       ∧ pay_id p = pretty (next_id d)
       ∧ pay_status p = PENDING
       ∧ pay_amount p = in_amount input
       ∧ pay_sessionId p = in_sessionId input
       ∧ pay_bookingId p = in_bookingId input
       ∧ pay_userId p = cu_id u.
Proof.
  unfold createPaymentIntent, try_catch, bind, external.
  destruct (paymentIntents_create stripe _) as [intent|e]; [|done].
  match goal with |- context [create ?T ?c ?a d] =>
    destruct (create_outcome T c a d) as [-> | ->] end; [|done].
  simpl. intros [= <- <-]. eexists. by split_and!.
Qed.

(** C3 (as amended). [createPaymentIntent] keeps no record of the
    requests it has served: each call that succeeds inserts a new PENDING
    payment under a fresh id. Two successful calls with the same
    [(sessionId, amount)] leave two payments and return two different
    ids. *)
Theorem createPaymentIntent_inserts_each_time stripe1 stripe2 u input d r1 d1 r2 d2 :
  createPaymentIntent stripe1 u input d = (Ok r1, d1) →
  createPaymentIntent stripe2 u input d1 = (Ok r2, d2) →
  out_paymentId r1 ≠ out_paymentId r2
  ∧ ∃ p1 p2,
      payments d2 = (payments d ++ [p1; p2])%list
      ∧ pay_id p1 = out_paymentId r1 ∧ pay_id p2 = out_paymentId r2
      ∧ pay_status p1 = PENDING ∧ pay_status p2 = PENDING
      ∧ pay_sessionId p1 = in_sessionId input ∧ pay_sessionId p2 = in_sessionId input
      ∧ pay_amount p1 = in_amount input ∧ pay_amount p2 = in_amount input.
Proof.
  intros (p1 & -> & Hr1 & Hid1 & Hst1 & Ham1 & Hs1 & _)%createPaymentIntent_inv
         (p2 & -> & Hr2 & Hid2 & Hst2 & Ham2 & Hs2 & _)%createPaymentIntent_inv.
  simpl in *. split.
  - rewrite Hr1, Hr2, Hid1, Hid2. intros Heq%(inj pretty). lia.
  - exists p1, p2. rewrite <- (assoc_L (++)). by split_and!.
Qed.

(** When the provider hands out an intent that no payment refers to yet,
    the call succeeds. *)
Lemma createPaymentIntent_ok stripe u input d intent :
  (∀ params, paymentIntents_create stripe params = Ok intent) →
  (∀ p, p ∈ payments d → pay_stripePaymentId p ≠ Some (pi_id intent)) →
  ∃ r d', createPaymentIntent stripe u input d = (Ok r, d').
Proof.
  intros Hcreate Hnew. unfold createPaymentIntent, try_catch, bind, external.
  rewrite Hcreate. rewrite create_fresh; [by eexists _, _|].
  intros p Hp. unfold collides. simpl. rewrite Exists_cons, Exists_nil.
  intros [[Heq _]|[]]. apply (Hnew p Hp).
  change (field p "stripePaymentId") with (Some (js_opt_str (pay_stripePaymentId p))) in Heq.
  injection Heq as Heq. by apply js_opt_str_JStr.
Qed.

(** C3 (counterexample). alice asks twice for a payment intent of 12.50
    USD for session [sess1]: the first answer names payment [100], the
    second payment [101], and both payments are stored. *)
Lemma createPaymentIntent_not_idempotent :
  ∃ r1 d1 r2 d2,
    createPaymentIntent (stripe_with "pi_a" "succeeded") alice input_sess1 db_two_tenants
      = (Ok r1, d1)
    ∧ createPaymentIntent (stripe_with "pi_b" "succeeded") alice input_sess1 d1 = (Ok r2, d2)
    ∧ out_paymentId r1 = "100" ∧ out_paymentId r2 = "101"
    ∧ out_paymentId r1 ≠ out_paymentId r2
    ∧ pay_id <$> payments d2 = ["100"; "101"].
Proof.
  eexists _, _, _, _. split_and!; [vm_compute; reflexivity..|discriminate|reflexivity].
Qed.

Lemma createPaymentIntent_inserts_each_time_witness :
  out_paymentId
    (mkCreatePaymentIntentOutput "100" (Some "pi_a_secret") (25 # 2) "USD")
  ≠ out_paymentId
      (mkCreatePaymentIntentOutput "101" (Some "pi_b_secret") (25 # 2) "USD")
  ∧ ∃ p1 p2,
      payments
        (createPaymentIntent (stripe_with "pi_b" "succeeded") alice input_sess1
           (createPaymentIntent (stripe_with "pi_a" "succeeded") alice input_sess1
              db_two_tenants).2).2
      = (payments db_two_tenants ++ [p1; p2])%list
      ∧ pay_id p1 = "100" ∧ pay_id p2 = "101"
      ∧ pay_status p1 = PENDING ∧ pay_status p2 = PENDING
      ∧ pay_sessionId p1 = Some "sess1" ∧ pay_sessionId p2 = Some "sess1"
      ∧ pay_amount p1 = (25 # 2) ∧ pay_amount p2 = (25 # 2).
Proof.
  apply (createPaymentIntent_inserts_each_time
           (stripe_with "pi_a" "succeeded") (stripe_with "pi_b" "succeeded")
           alice input_sess1 db_two_tenants
           (mkCreatePaymentIntentOutput "100" (Some "pi_a_secret") (25 # 2) "USD")
           (createPaymentIntent (stripe_with "pi_a" "succeeded") alice input_sess1
              db_two_tenants).2
           (mkCreatePaymentIntentOutput "101" (Some "pi_b_secret") (25 # 2) "USD"));
    vm_compute; reflexivity.
Defined.

(** The filter [{ id, userId, status: 'COMPLETED' }] of [refundPayment]. *)
Lemma selects_refundable pid uid (p : Payment) :
  matches {["id" := JStr pid; "userId" := JStr uid; "status" := JStr "COMPLETED"]} p
  ↔ pay_id p = pid ∧ pay_userId p = uid ∧ pay_status p = COMPLETED.
Proof.
  split.
  - intros Hm. split_and!.
    + assert (field p "id" = Some (JStr pid)) as Hf
        by (eapply matches_lookup; [exact Hm|reflexivity]).
      by injection Hf.
    + assert (field p "userId" = Some (JStr uid)) as Hf
        by (eapply matches_lookup; [exact Hm|reflexivity]).
      by injection Hf.
    + assert (field p "status" = Some (JStr "COMPLETED")) as Hf
        by (eapply matches_lookup; [exact Hm|reflexivity]).
      injection Hf as Hf. exact (payment_status_str_inj _ COMPLETED Hf).
  - intros (<- & <- & Hst). unfold matches.
    apply map_Forall_insert_2; [done|].
    apply map_Forall_insert_2; [done|].
    apply map_Forall_singleton.
    change (field p "status") with (Some (JStr (payment_status_str (pay_status p)))).
    by rewrite Hst.
Qed.

(** Without a completed payment of the caller under the given id,
    [refundPayment] throws [NOT_FOUND] inside its [try] block; the [catch]
    around the block replaces it. The provider is not called and nothing
    is written. *)
Lemma refundPayment_not_completed stripe now u pid amount reason d :
  (∀ p, p ∈ payments d → pay_id p = pid → pay_status p ≠ COMPLETED) →
  refundPayment stripe now u pid amount reason d
  = (Throw (TRPCError INTERNAL_SERVER_ERROR), d).
Proof.
  intros Hnot. unfold refundPayment, try_catch, bind, findFirst. simpl through.
  rewrite head_findMany_rows_None; [done|].
  intros p Hp (Hid & _ & Hst)%selects_refundable. by apply (Hnot p).
Qed.

(** C4 (as amended). [refundPayment] answers only when the caller has a
    COMPLETED payment under the given id. When the payment under that id
    is PENDING or REFUNDED (or in any state but COMPLETED) the call fails,
    the error is not a ConflictError, and the database, the payment's
    status with it, is unchanged. *)
Theorem refundPayment_only_from_completed stripe now u pid amount reason d :
  (∀ r d', refundPayment stripe now u pid amount reason d = (Ok r, d') →
     ∃ p, p ∈ payments d ∧ pay_id p = pid ∧ pay_userId p = cu_id u
          ∧ pay_status p = COMPLETED)
  ∧ ((∀ p, p ∈ payments d → pay_id p = pid → pay_status p ≠ COMPLETED) →
     ∃ e, refundPayment stripe now u pid amount reason d = (Throw e, d)
          ∧ classify (response_code e) ≠ ConflictError).
Proof.
  split.
  - intros r d'. unfold refundPayment, try_catch, bind, findFirst. simpl through.
    destruct (head _) as [p|] eqn:Hhead; [|done].
    apply head_findMany_rows in Hhead as [(Hid & Hu & Hst)%selects_refundable Hp].
    intros _. by exists p.
  - intros Hnot. rewrite refundPayment_not_completed by done.
    eexists. split; [reflexivity|]. done.
Qed.

(** alice's payments [pay1] (PENDING) and [pay3] (REFUNDED). *)
Lemma refundPayment_only_from_completed_witness :
  (∃ e, refundPayment (stripe_with "pi_a" "succeeded") "2024-05-01T10:00:00.000Z" alice
          "pay1" None "requested_by_customer" db_payments = (Throw e, db_payments)
        ∧ classify (response_code e) ≠ ConflictError)
  ∧ (∃ e, refundPayment (stripe_with "pi_a" "succeeded") "2024-05-01T10:00:00.000Z" alice
            "pay3" None "requested_by_customer" db_payments = (Throw e, db_payments)
          ∧ classify (response_code e) ≠ ConflictError).
Proof.
  split.
  - apply (proj2 (refundPayment_only_from_completed (stripe_with "pi_a" "succeeded")
                    "2024-05-01T10:00:00.000Z" alice "pay1" None
                    "requested_by_customer" db_payments)).
    apply (Forall_forall (λ p, pay_id p = "pay1" → pay_status p ≠ COMPLETED)).
    repeat constructor; vm_compute; discriminate.
  - apply (proj2 (refundPayment_only_from_completed (stripe_with "pi_a" "succeeded")
                    "2024-05-01T10:00:00.000Z" alice "pay3" None
                    "requested_by_customer" db_payments)).
    apply (Forall_forall (λ p, pay_id p = "pay3" → pay_status p ≠ COMPLETED)).
    repeat constructor; vm_compute; discriminate.
Defined.

(** C4 (counterexample). Refunding the PENDING payment [pay1] and the
    REFUNDED payment [pay3] fails with an internal error, which is not a
    ConflictError; refunding the COMPLETED payment [pay2] succeeds. *)
Lemma refundPayment_not_conflict :
  pay_status pay1 = PENDING ∧ pay_status pay3 = REFUNDED
  ∧ (refundPayment (stripe_with "pi_a" "succeeded") "2024-05-01T10:00:00.000Z" alice
       "pay1" None "requested_by_customer" db_payments).1
    = Throw (TRPCError INTERNAL_SERVER_ERROR)
  ∧ (refundPayment (stripe_with "pi_a" "succeeded") "2024-05-01T10:00:00.000Z" alice
       "pay3" None "requested_by_customer" db_payments).1
    = Throw (TRPCError INTERNAL_SERVER_ERROR)
  ∧ classify (response_code (TRPCError INTERNAL_SERVER_ERROR)) ≠ ConflictError
  ∧ (refundPayment (stripe_with "pi_a" "succeeded") "2024-05-01T10:00:00.000Z" alice
       "pay2" None "requested_by_customer" db_payments).1
    = Ok (mkRefundPaymentOutput "re_1" 40 "succeeded").
Proof. split_and!; [reflexivity..|discriminate|by vm_compute]. Qed.

(** C5 (the code at the failing inputs). When the provider reports an
    intent that has not succeeded, [confirmPayment] throws [BAD_REQUEST]
    inside its [try] block and the [catch] around the block replaces it:
    the caller receives an internal error, not a ValidationError. Nothing
    is written, so the payment stays as it was. *)
Theorem confirmPayment_provider_failure stripe now u paymentIntentId paymentMethodId
    d intent :
  paymentIntents_retrieve stripe paymentIntentId = Ok intent →
  pi_status intent ≠ "succeeded" →
  confirmPayment stripe now u paymentIntentId paymentMethodId d
    = (Throw (TRPCError INTERNAL_SERVER_ERROR), d)
  ∧ classify (response_code (TRPCError INTERNAL_SERVER_ERROR)) ≠ ValidationError.
Proof.
  intros Hintent Hstatus. split; [|done].
  unfold confirmPayment, try_catch, bind, external. rewrite Hintent.
  by rewrite decide_True.
Qed.

(** alice confirms [pi_1] while the provider still waits for a payment
    method. *)
Lemma confirmPayment_provider_failure_witness :
  confirmPayment (stripe_with "pi_a" "requires_payment_method")
    "2024-05-01T10:00:00.000Z" alice "pi_1" "pm_1" db_payments
    = (Throw (TRPCError INTERNAL_SERVER_ERROR), db_payments)
  ∧ classify (response_code (TRPCError INTERNAL_SERVER_ERROR)) ≠ ValidationError.
Proof.
  apply (confirmPayment_provider_failure (stripe_with "pi_a" "requires_payment_method")
           "2024-05-01T10:00:00.000Z" alice "pi_1" "pm_1" db_payments
           (mkPaymentIntent "pi_1" None "requires_payment_method"));
    [reflexivity|discriminate].
Defined.

(** ** Confirmation *)

Lemma update_rows_find `{Model R} w (f : R → R) (l : list R) i r :
  list_find (selects w) l = Some (i, r) →
  update_rows w f l = Some (f r, <[i := f r]> l).
Proof.
  revert i. induction l as [|x l IH]; intros i; simpl; [done|].
  destruct (decide (selects w x)).
  - by intros [= <- <-].
  - destruct (list_find (selects w) l) as [[j y]|]; simpl; [|done].
    intros [= <- <-]. by rewrite (IH j).
Qed.

Lemma update_rows_missing `{Model R} w (f : R → R) (l : list R) :
  list_find (selects w) l = None → update_rows w f l = None.
Proof.
  induction l as [|x l IH]; simpl; [done|].
  destruct (decide (selects w x)); [done|].
  destruct (list_find (selects w) l) as [[j y]|]; simpl; [done|].
  intros _. by rewrite IH.
Qed.

Lemma update_found `{Model R} (T : Table R) c w (f : R → R) d
    (P : R → Prop) `{!∀ x, Decision (P x)} i r :
  (∀ x, matches w x ↔ P x) →
  list_find P (rows T d) = Some (i, r) →
  update T c (mkArgs (Some w) f) d
  = (Ok (f r), set_rows T (<[i := f r]> (rows T d)) d).
Proof.
  intros HP Hfind. unfold update. rewrite through_unscoped by by_method_list. simpl.
  rewrite (update_rows_find _ _ _ i r); [done|].
  rewrite <- Hfind. apply list_find_ext. intros x. simpl. apply HP.
Qed.

Lemma update_missing `{Model R} (T : Table R) c w (f : R → R) d
    (P : R → Prop) `{!∀ x, Decision (P x)} :
  (∀ x, matches w x ↔ P x) →
  list_find P (rows T d) = None →
  update T c (mkArgs (Some w) f) d = (Throw PrismaNotFound, d).
Proof.
  intros HP Hfind. unfold update. rewrite through_unscoped by by_method_list. simpl.
  rewrite update_rows_missing; [done|].
  rewrite <- Hfind. apply list_find_ext. intros x. simpl. apply HP.
Qed.

(** The filter [{ stripePaymentId, userId }] of [confirmPayment]. *)
Lemma selects_payment_ref ref uid (p : Payment) :
  matches {["stripePaymentId" := JStr ref; "userId" := JStr uid]} p
  ↔ pay_stripePaymentId p = Some ref ∧ pay_userId p = uid.
Proof.
  split.
  - intros Hm. split.
    + assert (field p "stripePaymentId" = Some (JStr ref)) as Hf
        by (eapply matches_lookup; [exact Hm|reflexivity]).
      injection Hf as Hf. by apply js_opt_str_JStr.
    + assert (field p "userId" = Some (JStr uid)) as Hf
        by (eapply matches_lookup; [exact Hm|reflexivity]).
      by injection Hf.
  - intros [Href <-]. unfold matches.
    apply map_Forall_insert_2.
    + change (field p "stripePaymentId") with (Some (js_opt_str (pay_stripePaymentId p))).
      by rewrite Href.
    + by apply map_Forall_singleton.
Qed.

Lemma selects_session_id sid (s : ChargingSession) :
  matches {["id" := JStr sid]} s ↔ cs_id s = sid.
Proof.
  rewrite matches_singleton. change (field s "id") with (Some (JStr (cs_id s))).
  split; [by intros [= ->]|by intros ->].
Qed.

Lemma selects_booking_id bid (b : Booking) :
  matches {["id" := JStr bid]} b ↔ bk_id b = bid.
Proof.
  rewrite matches_singleton. change (field b "id") with (Some (JStr (bk_id b))).
  split; [by intros [= ->]|by intros ->].
Qed.

(** C6 (as amended). When the provider reports success, [confirmPayment]
    marks as COMPLETED the first payment that carries the provider
    reference and belongs to the caller, and answers with its id and
    amount. If that payment names a session, the session's [cost] becomes
    the payment's amount; if it names a booking, the booking's [totalCost]
    becomes the amount (the session and the booking it names being in the
    database). Every other payment, session and booking, and every other
    table, is unchanged. *)
Theorem confirmPayment_success stripe now u ref paymentMethodId d intent i p :
  paymentIntents_retrieve stripe ref = Ok intent →
  pi_status intent = "succeeded" →
  list_find (λ p, pay_stripePaymentId p = Some ref ∧ pay_userId p = cu_id u) (payments d)
    = Some (i, p) →
  (∀ sid, truthy (pay_sessionId p) = Some sid → ∃ s, s ∈ chargingSessions d ∧ cs_id s = sid) →
  (∀ bid, truthy (pay_bookingId p) = Some bid → ∃ b, b ∈ bookings d ∧ bk_id b = bid) →
  ∃ d',
    confirmPayment stripe now u ref paymentMethodId d
      = (Ok (mkConfirmPaymentOutput (pay_id p) COMPLETED (pay_amount p)), d')
    ∧ payments d'
      = <[i := set_payment COMPLETED
                 {["paymentMethodId" := JStr paymentMethodId; "confirmedAt" := JStr now]} p]>
          (payments d)
    ∧ match truthy (pay_sessionId p) with
      | Some sid =>
          ∃ j s, list_find (λ s, cs_id s = sid) (chargingSessions d) = Some (j, s)
                 ∧ chargingSessions d' = <[j := set_cost (pay_amount p) s]> (chargingSessions d)
      | None => chargingSessions d' = chargingSessions d
      end
    ∧ match truthy (pay_bookingId p) with
      | Some bid =>
          ∃ j b, list_find (λ b, bk_id b = bid) (bookings d) = Some (j, b)
                 ∧ bookings d' = <[j := set_totalCost (pay_amount p) b]> (bookings d)
      | None => bookings d' = bookings d
      end
    ∧ tenants d' = tenants d ∧ users d' = users d
    ∧ stations d' = stations d ∧ chargingPorts d' = chargingPorts d.
Proof.
  intros Hintent Hstatus Hfind Hsess Hbook.
  unfold confirmPayment, try_catch, bind, external. rewrite Hintent.
  rewrite decide_False by (intros Hne; by apply Hne).
  simpl ctx_prisma. simpl ctx_user.
  rewrite (update_found Payments RawClient _ _ d _ i p (selects_payment_ref ref (cu_id u)) Hfind).
  cbn [pay_sessionId pay_bookingId pay_amount pay_id pay_status set_payment].
  unfold ret. cbv beta iota.
  destruct (truthy (pay_sessionId p)) as [sid|] eqn:Hsid.
  - destruct (Hsess sid eq_refl) as (s0 & Hs0 & Hs0id).
    destruct (list_find_elem_of (λ s, cs_id s = sid) _ s0 Hs0 Hs0id) as [[j s] Hj].
    match goal with |- context [update ChargingSessions ?c _ ?d1] =>
      rewrite (update_found ChargingSessions c _ _ d1 _ j s
                 (selects_session_id sid) Hj) end.
    unfold ret. cbv beta iota.
    destruct (truthy (pay_bookingId p)) as [bid|] eqn:Hbid.
    + destruct (Hbook bid eq_refl) as (b0 & Hb0 & Hb0id).
      destruct (list_find_elem_of (λ b, bk_id b = bid) _ b0 Hb0 Hb0id) as [[k b] Hk].
      match goal with |- context [update Bookings ?c _ ?d1] =>
        rewrite (update_found Bookings c _ _ d1 _ k b
                   (selects_booking_id bid) Hk) end.
      eexists. split; [reflexivity|]. simpl. split_and!; try done.
      * by exists j, s.
      * by exists k, b.
    + eexists. split; [reflexivity|]. simpl. split_and!; try done. by exists j, s.
  - destruct (truthy (pay_bookingId p)) as [bid|] eqn:Hbid.
    + destruct (Hbook bid eq_refl) as (b0 & Hb0 & Hb0id).
      destruct (list_find_elem_of (λ b, bk_id b = bid) _ b0 Hb0 Hb0id) as [[k b] Hk].
      match goal with |- context [update Bookings ?c _ ?d1] =>
        rewrite (update_found Bookings c _ _ d1 _ k b
                   (selects_booking_id bid) Hk) end.
      eexists. split; [reflexivity|]. simpl. split_and!; try done. by exists k, b.
    + eexists. split; [reflexivity|]. simpl. by split_and!.
Qed.

(** alice confirms her pending payment [pay1], bound to session [sess1]
    and booking [book1]. *)
Lemma confirmPayment_success_witness :
  ∃ d',
    confirmPayment (stripe_with "pi_a" "succeeded") "2024-05-01T10:00:00.000Z" alice
      "pi_1" "pm_1" db_payments
      = (Ok (mkConfirmPaymentOutput "pay1" COMPLETED (25 # 2)), d')
    ∧ payments d'
      = <[0%nat := set_payment COMPLETED
                 {["paymentMethodId" := JStr "pm_1";
                   "confirmedAt" := JStr "2024-05-01T10:00:00.000Z"]} pay1]>
          (payments db_payments)
    ∧ (∃ j s, list_find (λ s, cs_id s = "sess1") (chargingSessions db_payments) = Some (j, s)
              ∧ chargingSessions d'
                = <[j := set_cost (25 # 2) s]> (chargingSessions db_payments))
    ∧ (∃ j b, list_find (λ b, bk_id b = "book1") (bookings db_payments) = Some (j, b)
              ∧ bookings d' = <[j := set_totalCost (25 # 2) b]> (bookings db_payments))
    ∧ tenants d' = tenants db_payments ∧ users d' = users db_payments
    ∧ stations d' = stations db_payments ∧ chargingPorts d' = chargingPorts db_payments.
Proof.
  apply (confirmPayment_success (stripe_with "pi_a" "succeeded")
           "2024-05-01T10:00:00.000Z" alice "pi_1" "pm_1" db_payments
           (mkPaymentIntent "pi_1" None "succeeded") 0 pay1);
    [reflexivity|reflexivity|reflexivity| |].
  - intros sid [= <-]. exists sess1. split; [apply list_elem_of_here|reflexivity].
  - intros bid [= <-]. exists book1. split; [apply list_elem_of_here|reflexivity].
Defined.

(** What the confirmation of [pay1] leaves in the tables. *)
Example confirmPayment_pay1 :
  let d' := (confirmPayment (stripe_with "pi_a" "succeeded") "2024-05-01T10:00:00.000Z"
               alice "pi_1" "pm_1" db_payments).2 in
  pay_status <$> payments d' = [COMPLETED; COMPLETED; REFUNDED; PENDING]
  ∧ cs_cost <$> chargingSessions d' = [Some (25 # 2); None]
  ∧ bk_totalCost <$> bookings d' = [Some (25 # 2); None].
Proof. split_and!; reflexivity. Qed.

(** C6 (counterexample). The provider reports success for [pi_9], the
    reference of bob's pending payment [pay9]; the request comes from
    alice. The payment found by the reference is not bob's to alice: the
    call fails, and [pay9] stays PENDING. *)
Lemma confirmPayment_other_user :
  list_find (λ p, pay_stripePaymentId p = Some "pi_9") (payments db_payments)
    = Some (3%nat, pay9)
  ∧ pay_status pay9 = PENDING
  ∧ paymentIntents_retrieve (stripe_with "pi_a" "succeeded") "pi_9"
    = Ok (mkPaymentIntent "pi_9" None "succeeded")
  ∧ confirmPayment (stripe_with "pi_a" "succeeded") "2024-05-01T10:00:00.000Z" alice
      "pi_9" "pm_1" db_payments
    = (Throw (TRPCError INTERNAL_SERVER_ERROR), db_payments).
Proof. split_and!; reflexivity. Qed.

(** ** Nearby stations *)

Lemma connector_str_inj : Inj (=) (=) connector_str.
Proof. intros [] []; done. Qed.

Lemma port_status_str_inj : Inj (=) (=) port_status_str.
Proof. intros [] []; done. Qed.

(** The filter of the per-station port query selects the wanted ports. *)
Lemma selects_ports_where sid ct ao (p : ChargingPort) :
  matches (ports_where sid ct ao) p ↔ port_wanted sid ct ao p.
Proof.
  assert (Hst : field p "stationId" = Some (JStr sid) ↔ cp_stationId p = sid).
  { change (field p "stationId") with (Some (JStr (cp_stationId p))).
    split; [by intros [= ->]|by intros ->]. }
  assert (Hct : ∀ c, field p "connectorType" = Some (JStr (connector_str c))
                     ↔ cp_connectorType p = c).
  { intros c.
    change (field p "connectorType") with (Some (JStr (connector_str (cp_connectorType p)))).
    split; [intros [= Heq]; by apply connector_str_inj|by intros ->]. }
  assert (Hav : field p "status" = Some (JStr "AVAILABLE") ↔ cp_status p = AVAILABLE).
  { change (field p "status") with (Some (JStr (port_status_str (cp_status p)))).
    split; [intros [= Heq]; by apply (port_status_str_inj _ AVAILABLE)|by intros ->]. }
  unfold ports_where, port_wanted.
  destruct ct as [c|], ao; simpl.
  - rewrite !matches_insert_fresh by done. rewrite matches_singleton.
    specialize (Hct c). tauto.
  - rewrite matches_insert_fresh by done. rewrite matches_singleton.
    specialize (Hct c). tauto.
  - rewrite matches_insert_fresh by done. rewrite matches_singleton. tauto.
  - rewrite matches_singleton. tauto.
Qed.

Lemma mapM_reads {A B} (f : A → M B) (g : A → B) (l : list A) (d : Db) :
  (∀ x, f x d = (Ok (g x), d)) → mapM f l d = (Ok (g <$> l), d).
Proof.
  intros Hf. induction l as [|x l IH]; [done|].
  simpl. unfold bind. by rewrite Hf, IH.
Qed.

(** C7 (the code on the documented database). On PostgreSQL the raw query
    of [findNearby] is refused for every query point, radius, filter and
    database: the handler throws before it looks at a station or a port,
    the caller receives an internal error, and no station is returned,
    at whatever distance it is. Nothing is written. *)
Theorem findNearby_refused_by_PostgreSQL sql_distance u latitude longitude radius
    connectorType availableOnly d :
  ∃ e, findNearby PostgreSQL sql_distance u latitude longitude radius connectorType
         availableOnly d
       = (Throw e, d)
       ∧ e = PrismaRawQuery
       ∧ response_code e = INTERNAL_SERVER_ERROR.
Proof. by exists PrismaRawQuery. Qed.

(** The scenario of the specification: station [s2] at (37.7749,
    -122.4194), about 1.4 km from the query point (37.7849, -122.4094),
    and a radius of 10 km. The station is not returned: the call fails,
    whatever the distance expression would give. *)
Example findNearby_scenario sql_distance :
  station_s2 ∈ stations db_two_tenants
  ∧ st_isActive station_s2 = true
  ∧ st_latitude station_s2 = 377749 # 10000
  ∧ st_longitude station_s2 = -1224194 # 10000
  ∧ findNearby PostgreSQL sql_distance alice (377849 # 10000) (-1224094 # 10000) 10
      None false db_two_tenants
    = (Throw PrismaRawQuery, db_two_tenants).
Proof. split_and!; [apply list_elem_of_here|reflexivity..]. Qed.

(** Where the engine evaluates the query, the answer of [findNearby], row
    by row of the raw query: each row with the station's ports of the
    requested connector type and availability, and, when only available
    ports are requested, without the rows that have none. *)
Lemma findNearby_evaluated sql_distance u lat lon radius ct ao d :
  findNearby MySQL sql_distance u lat lon radius ct ao d
  = (Ok (filter (λ n, ao = false ∨ (0 < ns_availablePorts n)%nat)
           ((λ r : Station * Q,
               let ports := filter (port_wanted (st_id r.1) ct ao) (chargingPorts d) in
               mkNearbyStation r.1 r.2 ports
                 (length (filter (λ p, cp_status p = AVAILABLE) ports))
                 (length ports))
              <$> nearby_rows sql_distance lat lon radius d)),
     d).
Proof.
  unfold findNearby, queryRaw, bind, gets.
  erewrite mapM_reads; [reflexivity|].
  intros r. unfold findMany, ret. simpl.
  unfold findMany_rows.
  rewrite (list_filter_iff _ (port_wanted (st_id r.1) ct ao)); [done|].
  intros p. apply selects_ports_where.
Qed.

(** * Further properties of the handlers *)

(** ** Reads as searches *)

(** Case analysis on the search in the goal. *)
Tactic Notation "case_find" "as" ident(i) ident(x) ident(H) :=
  match goal with
  | |- context [@list_find ?A ?P ?D ?l] =>
      destruct (@list_find A P D l) as [[i x]|] eqn:H
  end.

Lemma head_filter_list_find {A} (P : A → Prop) `{!∀ x, Decision (P x)} (l : list A) :
  head (filter P l) = snd <$> list_find P l.
Proof.
  induction l as [|x l IH]; [done|].
  rewrite filter_cons. simpl. destruct (decide (P x)); [done|].
  rewrite IH. by destruct (list_find P l) as [[i y]|].
Qed.

(** [findUnique] and [findFirst] on the client itself return the first
    row the filter describes. *)
Lemma findUnique_raw `{Model R} (T : Table R) w (P : R → Prop)
    `{!∀ x, Decision (P x)} d :
  (∀ x, matches w x ↔ P x) →
  findUnique T RawClient (mkArgs (Some w) ()) d = (Ok (snd <$> list_find P (rows T d)), d).
Proof.
  intros HP. unfold findUnique, findMany_rows. simpl.
  rewrite head_filter_list_find. do 3 f_equal. by apply list_find_ext.
Qed.

Lemma findFirst_raw `{Model R} (T : Table R) w (P : R → Prop)
    `{!∀ x, Decision (P x)} d :
  (∀ x, matches w x ↔ P x) →
  findFirst T RawClient (mkArgs (Some w) ()) d = (Ok (snd <$> list_find P (rows T d)), d).
Proof.
  intros HP. unfold findFirst, findMany_rows. simpl.
  rewrite head_filter_list_find. do 3 f_equal. by apply list_find_ext.
Qed.

Lemma selects_user_id id (r : User) : matches {["id" := JStr id]} r ↔ u_id r = id.
Proof.
  rewrite matches_singleton. change (field r "id") with (Some (JStr (u_id r))).
  split; [by intros [= ->]|by intros ->].
Qed.

Lemma selects_user_email email (r : User) :
  matches {["email" := JStr email]} r ↔ u_email r = email.
Proof.
  rewrite matches_singleton. change (field r "email") with (Some (JStr (u_email r))).
  split; [by intros [= ->]|by intros ->].
Qed.

(** ** Token lifetime *)

(** A token is accepted strictly before 24 hours have passed since it was
    signed, and rejected from that moment on. *)
Theorem verifyJWT_valid_window env_JWT_SECRET (p : Identity) (t now : Z) :
  (∃ decoded, verifyJWT env_JWT_SECRET now (signJWT env_JWT_SECRET t p) = Ok decoded)
  ↔ (now < t + 86400)%Z.
Proof.
  split.
  - intros [decoded Hv]. destruct (decide (now < t + 86400)%Z) as [|Hexp]; [done|].
    rewrite verifyJWT_expired in Hv by lia. discriminate.
  - intros Hvalid. rewrite verifyJWT_signJWT by done. by eexists.
Qed.

(** A token that is refreshed again and again, each time less than a day
    after the last, never lapses, and the token in hand is always the one
    [signJWT] makes for the original payload at the time of the last
    refresh. *)
Theorem refresh_chain_preserves_identity env_JWT_SECRET (p : Identity) (t0 : Z)
    (times : list Z) :
  within_a_day t0 times →
  refresh_chain env_JWT_SECRET times (signJWT env_JWT_SECRET t0 p)
  = Ok (signJWT env_JWT_SECRET (default t0 (last times)) p).
Proof.
  revert t0. induction times as [|t times IH]; intros t0; [done|].
  intros [Ht Hrest]. simpl refresh_chain. unfold refreshToken.
  rewrite verifyJWT_signJWT by done. simpl.
  destruct p as [uid tid r]. simpl. rewrite IH by done.
  rewrite last_cons. by destruct (last times).
Qed.

Lemma refresh_chain_preserves_identity_witness :
  refresh_chain None [80000; 160000; 240000]%Z
    (signJWT None 1000 (mkIdentity "u1" "T1" "OPERATOR"))
  = Ok (signJWT None (default 1000%Z (last [80000; 160000; 240000]%Z))
          (mkIdentity "u1" "T1" "OPERATOR")).
Proof.
  apply (refresh_chain_preserves_identity None (mkIdentity "u1" "T1" "OPERATOR") 1000
           [80000; 160000; 240000]%Z).
  simpl. lia.
Defined.

(** ** Authentication *)

(** [authMiddleware] either refuses with UNAUTHORIZED, or has found an
    active user under the id the token names; the caller's tenant and role
    are those of that row. It writes nothing. *)
Theorem authMiddleware_outcome env_JWT_SECRET (now : Z)
    (authorization : option jsonwebtoken.token) (d : Db) :
  authMiddleware env_JWT_SECRET now authorization d = (Throw (TRPCError UNAUTHORIZED), d)
  ∨ ∃ token decoded user,
      authorization = Some token
      ∧ verifyJWT env_JWT_SECRET now token = Ok decoded
      ∧ user ∈ users d
      ∧ u_id user = jp_userId decoded
      ∧ u_isActive user = true
      ∧ authMiddleware env_JWT_SECRET now authorization d
        = (Ok (mkCtxUser (u_id user) (u_tenantId user) (u_role user)), d).
Proof.
  destruct authorization as [token|]; [|by left].
  unfold authMiddleware, try_catch, bind, external.
  destruct (verifyJWT env_JWT_SECRET now token) as [decoded|e] eqn:Hv; [|by left].
  rewrite (findUnique_raw Users _ (λ r : User, u_id r = jp_userId decoded))
    by apply selects_user_id.
  case_find as i user Hfind; simpl; [|by left].
  apply list_find_Some in Hfind as (Hi & Hid & _).
  destruct (u_isActive user) eqn:Hactive; simpl; [|by left].
  right. exists token, decoded, user. split_and!; try done.
  by eapply list_elem_of_lookup_2.
Qed.

(** The tenant and role a token claims are never read: two tokens for the
    same user id, signed at the same time, authenticate alike whatever
    tenant and role they carry. *)
Theorem authMiddleware_ignores_claims env_JWT_SECRET (now t : Z) (p p' : Identity)
    (d : Db) :
  userId p = userId p' →
  authMiddleware env_JWT_SECRET now (Some (signJWT env_JWT_SECRET t p)) d
  = authMiddleware env_JWT_SECRET now (Some (signJWT env_JWT_SECRET t p')) d.
Proof.
  intros Hid. unfold authMiddleware, try_catch, bind, external.
  destruct (decide (now < t + 86400)%Z) as [Hvalid|Hexp].
  - rewrite !verifyJWT_signJWT by done. simpl. by rewrite Hid.
  - by rewrite !verifyJWT_expired by lia.
Qed.

Lemma authMiddleware_ignores_claims_witness :
  authMiddleware None 2000 (Some (signJWT None 1000 (mkIdentity "u1" "T1" "OPERATOR")))
    db_two_tenants
  = authMiddleware None 2000 (Some (signJWT None 1000 (mkIdentity "u1" "T2" "SUPER_ADMIN")))
      db_two_tenants.
Proof.
  apply (authMiddleware_ignores_claims None 2000 1000 (mkIdentity "u1" "T1" "OPERATOR")
           (mkIdentity "u1" "T2" "SUPER_ADMIN") db_two_tenants).
  reflexivity.
Defined.

(** What a registration that succeeds has done. *)
Lemma register_ok_inv env_JWT_SECRET bcrypt_hash now input d out d' :
  register env_JWT_SECRET bcrypt_hash now input d = (Ok out, d') →
  let t := mkTenant (pretty (next_id d)) (ri_tenantName input) (ri_tenantType input) true in
  let u := mkUser (pretty (N.succ (next_id d))) (ri_email input)
             (Some (bcrypt_hash (ri_password input))) (ri_firstName input)
             (ri_lastName input) (ri_phone input) "TENANT_ADMIN" (tn_id t) true in
  (∀ r, r ∈ users d → u_email r ≠ ri_email input)
  ∧ out = mkRegisterOutput
            (signJWT env_JWT_SECRET now (mkIdentity (u_id u) (tn_id t) "TENANT_ADMIN")) u t
  ∧ d' = bump_id (set_rows Users (users d ++ [u])
                    (bump_id (set_rows Tenants (tenants d ++ [t]) d))).
Proof.
  simpl. unfold register, bind.
  rewrite (findUnique_raw Users _ (λ r : User, u_email r = ri_email input))
    by apply selects_user_email.
  case_find as i existing Hfind; simpl; [done|].
  assert (∀ r, r ∈ users d → u_email r ≠ ri_email input) as Hfree.
  { intros r Hr Hemail. apply list_find_None in Hfind.
    by eapply (proj1 (Forall_forall _ _) Hfind). }
  unfold transaction.
  rewrite (proj1 (register_tx_outcome input _ d) Hfree). simpl.
  by intros [= <- <-].
Qed.

(** The last row of a table is the one a search finds when no earlier
    row qualifies. *)
Lemma list_find_snoc {A} (P : A → Prop) `{!∀ x, Decision (P x)} (l : list A) x :
  (∀ y, y ∈ l → ¬ P y) → P x → list_find P (l ++ [x]) = Some (length l, x).
Proof.
  intros Hl Hx. apply list_find_Some. split_and!.
  - by rewrite lookup_app_r, Nat.sub_diag by lia.
  - done.
  - intros j y Hj Hlt. apply Hl. rewrite lookup_app_l in Hj by done.
    by eapply list_elem_of_lookup_2.
Qed.

(** Register, then use the token. The token a registration returns
    authenticates, for the next 24 hours, as the user it created, in the
    tenant it created, and passes the admin gate (no user being stored
    under the id the database hands out next). *)
Theorem register_then_authenticate env_JWT_SECRET bcrypt_hash now input d out d' now' :
  register env_JWT_SECRET bcrypt_hash now input d = (Ok out, d') →
  (∀ r, r ∈ users d → u_id r ≠ pretty (N.succ (next_id d))) →
  (now' < now + 86400)%Z →
  authMiddleware env_JWT_SECRET now' (Some (rg_token out)) d'
    = (Ok (mkCtxUser (u_id (rg_user out)) (tn_id (rg_tenant out)) "TENANT_ADMIN"), d')
  ∧ adminProcedure_user env_JWT_SECRET now' (Some (rg_token out)) d'
    = (Ok (mkCtxUser (u_id (rg_user out)) (tn_id (rg_tenant out)) "TENANT_ADMIN"), d').
Proof.
  intros (Hfree & -> & ->)%register_ok_inv Hid Hvalid. simpl rg_token. simpl rg_user.
  simpl rg_tenant. simpl u_id. simpl tn_id.
  assert (authMiddleware env_JWT_SECRET now'
            (Some (signJWT env_JWT_SECRET now
                     (mkIdentity (pretty (N.succ (next_id d))) (pretty (next_id d))
                        "TENANT_ADMIN")))
            (bump_id (set_rows Users
               (users d ++ [mkUser (pretty (N.succ (next_id d))) (ri_email input)
                              (Some (bcrypt_hash (ri_password input))) (ri_firstName input)
                              (ri_lastName input) (ri_phone input) "TENANT_ADMIN"
                              (pretty (next_id d)) true])
               (bump_id (set_rows Tenants
                  (tenants d ++ [mkTenant (pretty (next_id d)) (ri_tenantName input)
                                   (ri_tenantType input) true]) d))))
          = (Ok (mkCtxUser (pretty (N.succ (next_id d))) (pretty (next_id d)) "TENANT_ADMIN"),
             bump_id (set_rows Users
               (users d ++ [mkUser (pretty (N.succ (next_id d))) (ri_email input)
                              (Some (bcrypt_hash (ri_password input))) (ri_firstName input)
                              (ri_lastName input) (ri_phone input) "TENANT_ADMIN"
                              (pretty (next_id d)) true])
               (bump_id (set_rows Tenants
                  (tenants d ++ [mkTenant (pretty (next_id d)) (ri_tenantName input)
                                   (ri_tenantType input) true]) d))))) as Hauth.
  { unfold authMiddleware, try_catch, bind, external.
    rewrite verifyJWT_signJWT by done. cbn [jp_userId userId].
    rewrite (findUnique_raw Users _ (λ r : User, u_id r = pretty (N.succ (next_id d))))
      by apply selects_user_id.
    cbn [rows Users users set_rows bump_id].
    rewrite list_find_snoc; [done| |done]. intros y Hy. by apply Hid. }
  split; [done|]. unfold adminProcedure_user, bind. rewrite Hauth.
  unfold adminMiddleware. cbn [cu_role]. by rewrite decide_True by by_method_list.
Qed.

(** A new operator registers in the two-tenant database at time 5000 and
    calls an admin procedure half an hour later. *)
Lemma register_then_authenticate_witness :
  let input := mkRegisterInput "carol@ohm.example" "secret-pw" "Carol" "C" None
                 "Ohm" "ENTERPRISE" in
  let out := mkRegisterOutput
               (signJWT None 5000 (mkIdentity "101" "100" "TENANT_ADMIN"))
               (mkUser "101" "carol@ohm.example" (Some "h:secret-pw") "Carol" "C" None
                  "TENANT_ADMIN" "100" true)
               (mkTenant "100" "Ohm" "ENTERPRISE" true) in
  let d' := (register None (String.append "h:") 5000 input db_two_tenants).2 in
  authMiddleware None 6800 (Some (rg_token out)) d'
    = (Ok (mkCtxUser (u_id (rg_user out)) (tn_id (rg_tenant out)) "TENANT_ADMIN"), d')
  ∧ adminProcedure_user None 6800 (Some (rg_token out)) d'
    = (Ok (mkCtxUser (u_id (rg_user out)) (tn_id (rg_tenant out)) "TENANT_ADMIN"), d').
Proof.
  apply (register_then_authenticate None (String.append "h:") 5000
           (mkRegisterInput "carol@ohm.example" "secret-pw" "Carol" "C" None
              "Ohm" "ENTERPRISE")
           db_two_tenants).
  - reflexivity.
  - apply (Forall_forall (λ r, u_id r ≠ pretty (N.succ (next_id db_two_tenants)))).
    repeat constructor; vm_compute; discriminate.
  - lia.
Defined.

(** ** Logging in *)

(** An update that changes no column leaves the table as it is. *)
Lemma update_same `{Model R} (T : Table R) c w d (P : R → Prop)
    `{!∀ x, Decision (P x)} r :
  (∀ x, matches w x ↔ P x) → r ∈ rows T d → P r →
  (∀ l, set_rows T l d = d ↔ l = rows T d) →
  ∃ r', update T c (mkArgs (Some w) (λ x, x)) d = (Ok r', d).
Proof.
  intros HP Hr HPr Hset.
  destruct (list_find_elem_of P (rows T d) r Hr HPr) as [[i r'] Hfind].
  exists r'. rewrite (update_found T c w _ d P i r' HP Hfind).
  f_equal. apply Hset. apply list_insert_id.
  by apply list_find_Some in Hfind as (Hi & _).
Qed.

Lemma set_rows_Users_same d l : set_rows Users l d = d ↔ l = users d.
Proof.
  destruct d; simpl. split; [by intros [= ->]|by intros ->].
Qed.

(** In a database where every user's tenant exists, [login] ends in one
    of three ways. It refuses with UNAUTHORIZED, leaving database and
    Redis as they were: unknown email, inactive user, wrong domain and
    wrong password all give this same error. Or the active user found
    under the email has no password (the column is null): [bcrypt.compare]
    throws, the caller sees an internal error, and nothing is written. Or
    it has found an active user under the email whose stored hash matches
    the password (and whose tenant has the requested domain, when one is
    requested): then the token is the one [signJWT] makes for that user's
    id, tenant and role, it is stored under the user's session key for 24
    hours, and the tracked columns of the database are unchanged. *)
Theorem login_outcome env_JWT_SECRET bcrypt_compare tenant_domain now email password
    tenantDomain (w : World) :
  (∀ user, user ∈ users (w_db w) →
     ∃ tenant, tenant ∈ tenants (w_db w) ∧ tn_id tenant = u_tenantId user) →
  login env_JWT_SECRET bcrypt_compare tenant_domain now email password tenantDomain w
    = (Throw (TRPCError UNAUTHORIZED), w)
  ∨ (∃ user e,
       user ∈ users (w_db w) ∧ u_email user = email ∧ u_isActive user = true
       ∧ u_password user = None
       ∧ login env_JWT_SECRET bcrypt_compare tenant_domain now email password
           tenantDomain w
         = (Throw e, w)
       ∧ response_code e = INTERNAL_SERVER_ERROR)
  ∨ ∃ user hash tenant,
      user ∈ users (w_db w) ∧ u_email user = email ∧ u_isActive user = true
      ∧ u_password user = Some hash
      ∧ bcrypt_compare password hash = true
      ∧ tenant ∈ tenants (w_db w) ∧ tn_id tenant = u_tenantId user
      ∧ (∀ domain, truthy tenantDomain = Some domain → tenant_domain tenant = Some domain)
      ∧ login env_JWT_SECRET bcrypt_compare tenant_domain now email password tenantDomain w
        = (Ok (mkLoginOutput
                 (signJWT env_JWT_SECRET now
                    (mkIdentity (u_id user) (u_tenantId user) (u_role user)))
                 user tenant),
           mkWorld (w_db w)
             (<[session_key (u_id user)
                  := (signJWT env_JWT_SECRET now
                        (mkIdentity (u_id user) (u_tenantId user) (u_role user)),
                      (now + 86400)%Z)]> (w_redis w))).
Proof.
  destruct w as [d redis]. simpl w_db. intros Htenants.
  unfold login, bindW, on_db, bind, gets. simpl w_db.
  rewrite (findUnique_raw Users _ (λ r : User, u_email r = email))
    by apply selects_user_email.
  case_find as i user Hfind; simpl; [|by left].
  apply list_find_Some in Hfind as (Hi%list_elem_of_lookup_2 & Hemail & _).
  unfold with_tenant. rewrite head_filter_list_find.
  case_find as j tenant Hten; simpl.
  2:{ exfalso. destruct (Htenants user Hi) as (tenant & Hin & Htid).
      apply list_find_None in Hten. rewrite Forall_forall in Hten.
      by apply (Hten tenant). }
  apply list_find_Some in Hten as (Hj%list_elem_of_lookup_2 & Htid & _).
  destruct (u_isActive user) eqn:Hactive; simpl; [|by left].
  destruct (match truthy tenantDomain with
            | Some domain => bool_decide (tenant_domain tenant ≠ Some domain)
            | None => false
            end) eqn:Hdomain; [by left|].
  destruct (u_password user) as [hash|] eqn:Hhash.
  2:{ right. left. exists user, BcryptError. by split_and!. }
  destruct (bcrypt_compare password hash) eqn:Hpw; simpl; [|by left].
  destruct (update_same Users RawClient {["id" := JStr (u_id user)]} d
              (λ r : User, u_id r = u_id user) user) as [r' Hupd];
    [apply selects_user_id|done|done|apply set_rows_Users_same|].
  rewrite Hupd. simpl.
  right. right. exists user, hash, tenant. split_and!; try done.
  intros domain Hd. rewrite Hd in Hdomain.
  apply bool_decide_eq_false in Hdomain.
  by destruct (decide (tenant_domain tenant = Some domain)).
Qed.

(** dave, who has no password, tries to log in. *)
Lemma login_outcome_witness :
  login None (λ p h, bool_decide (h = "h" +:+ p)) (λ _, None) 2000
    "dave@volt.example" "1" None (mkWorld db_no_password ∅)
  = (Throw (TRPCError UNAUTHORIZED), mkWorld db_no_password ∅)
  ∨ (∃ user e,
       user ∈ users db_no_password ∧ u_email user = "dave@volt.example"
       ∧ u_isActive user = true
       ∧ u_password user = None
       ∧ login None (λ p h, bool_decide (h = "h" +:+ p)) (λ _, None) 2000
           "dave@volt.example" "1" None (mkWorld db_no_password ∅)
         = (Throw e, mkWorld db_no_password ∅)
       ∧ response_code e = INTERNAL_SERVER_ERROR)
  ∨ ∃ user hash tenant,
      user ∈ users db_no_password ∧ u_email user = "dave@volt.example"
      ∧ u_isActive user = true
      ∧ u_password user = Some hash
      ∧ bool_decide (hash = "h" +:+ "1") = true
      ∧ tenant ∈ tenants db_no_password ∧ tn_id tenant = u_tenantId user
      ∧ (∀ domain, truthy None = Some domain → None = Some domain)
      ∧ login None (λ p h, bool_decide (h = "h" +:+ p)) (λ _, None) 2000
          "dave@volt.example" "1" None (mkWorld db_no_password ∅)
        = (Ok (mkLoginOutput
                 (signJWT None 2000
                    (mkIdentity (u_id user) (u_tenantId user) (u_role user)))
                 user tenant),
           mkWorld db_no_password
             (<[session_key (u_id user)
                  := (signJWT None 2000
                        (mkIdentity (u_id user) (u_tenantId user) (u_role user)),
                      (2000 + 86400)%Z)]> ∅)).
Proof.
  apply (login_outcome None (λ p h, bool_decide (h = "h" +:+ p)) (λ _, None) 2000
           "dave@volt.example" "1" None (mkWorld db_no_password ∅)).
  apply (Forall_forall
           (λ user, ∃ tenant, tenant ∈ tenants db_no_password
                              ∧ tn_id tenant = u_tenantId user)).
  repeat constructor.
  - eexists. split; [apply list_elem_of_here|reflexivity].
  - eexists. split; [apply list_elem_of_further, list_elem_of_here|reflexivity].
  - eexists. split; [apply list_elem_of_here|reflexivity].
Defined.

(** The three ways at work: alice logs in with her password and is given
    a token; with a wrong password she is refused; dave, without a
    password, gets an internal error. *)
Example login_three_ways :
  (login None (λ p h, bool_decide (h = "h" +:+ p)) (λ _, None) 2000
     "alice@volt.example" "1" None (mkWorld db_no_password ∅)).1
  = Ok (mkLoginOutput (signJWT None 2000 (mkIdentity "u1" "T1" "OPERATOR"))
          (mkUser "u1" "alice@volt.example" (Some "h1") "Alice" "A" None "OPERATOR" "T1"
             true)
          (mkTenant "T1" "Volt" "STATION_OPERATOR" true))
  ∧ login None (λ p h, bool_decide (h = "h" +:+ p)) (λ _, None) 2000
      "alice@volt.example" "2" None (mkWorld db_no_password ∅)
    = (Throw (TRPCError UNAUTHORIZED), mkWorld db_no_password ∅)
  ∧ login None (λ p h, bool_decide (h = "h" +:+ p)) (λ _, None) 2000
      "dave@volt.example" "1" None (mkWorld db_no_password ∅)
    = (Throw BcryptError, mkWorld db_no_password ∅)
  ∧ response_code BcryptError = INTERNAL_SERVER_ERROR.
Proof. split_and!; reflexivity. Qed.

(** Register, then log in. Whoever has registered can log in with the
    same email and password (bcrypt accepting a password against its own
    hash): the login returns the user the registration created, with a
    token for that user, and stores the session. *)
Theorem register_then_login env_JWT_SECRET bcrypt_hash bcrypt_compare tenant_domain
    now input d out d' now' redis :
  register env_JWT_SECRET bcrypt_hash now input d = (Ok out, d') →
  bcrypt_compare (ri_password input) (bcrypt_hash (ri_password input)) = true →
  ∃ tenant,
    tn_id tenant = u_tenantId (rg_user out)
    ∧ login env_JWT_SECRET bcrypt_compare tenant_domain now' (ri_email input)
        (ri_password input) None (mkWorld d' redis)
      = (Ok (mkLoginOutput
               (signJWT env_JWT_SECRET now'
                  (mkIdentity (u_id (rg_user out)) (u_tenantId (rg_user out))
                     "TENANT_ADMIN"))
               (rg_user out) tenant),
         mkWorld d'
           (<[session_key (u_id (rg_user out))
                := (signJWT env_JWT_SECRET now'
                      (mkIdentity (u_id (rg_user out)) (u_tenantId (rg_user out))
                         "TENANT_ADMIN"),
                    (now' + 86400)%Z)]> redis)).
Proof.
  intros (Hfree & -> & ->)%register_ok_inv Hbcrypt.
  cbn [rg_user u_id u_tenantId tn_id].
  unfold login, bindW, on_db, bind, gets. cbn [w_db w_redis].
  rewrite (findUnique_raw Users _ (λ r : User, u_email r = ri_email input))
    by apply selects_user_email.
  cbn [rows Users users set_rows bump_id].
  rewrite list_find_snoc; [|by intros y Hy; apply Hfree|done].
  cbn [fmap option_fmap option_map snd mbind option_bind].
  unfold with_tenant. rewrite head_filter_list_find.
  case_find as j tenant Hten.
  2:{ exfalso. apply list_find_None in Hten.
      apply (proj1 (Forall_forall _ _) Hten
               (mkTenant (pretty (next_id d)) (ri_tenantName input)
                  (ri_tenantType input) true)); [|done].
      simpl. apply elem_of_app. right. apply list_elem_of_here. }
  cbn [fmap option_fmap option_map snd u_isActive negb truthy u_password].
  rewrite Hbcrypt. cbn [negb u_id u_role].
  match goal with |- context [update Users RawClient ?a ?d0] =>
    destruct (update_same Users RawClient {["id" := JStr (pretty (N.succ (next_id d)))]} d0
                (λ r : User, u_id r = pretty (N.succ (next_id d)))
                (mkUser (pretty (N.succ (next_id d))) (ri_email input)
                   (Some (bcrypt_hash (ri_password input))) (ri_firstName input)
                   (ri_lastName input) (ri_phone input) "TENANT_ADMIN"
                   (pretty (next_id d)) true)) as [r' Hupd];
      [apply selects_user_id
      |cbn [rows Users users set_rows bump_id]; apply elem_of_app; right;
       apply list_elem_of_here
      |done|apply set_rows_Users_same|]
  end.
  rewrite Hupd. simpl.
  apply list_find_Some in Hten as (_ & Htid & _).
  exists tenant. by split.
Qed.

(** carol registers at time 5000 and logs in a day later. *)
Lemma register_then_login_witness :
  let input := mkRegisterInput "carol@ohm.example" "secret-pw" "Carol" "C" None
                 "Ohm" "ENTERPRISE" in
  let carol := mkUser "101" "carol@ohm.example" (Some "h:secret-pw") "Carol" "C" None
                 "TENANT_ADMIN" "100" true in
  let d' := (register None (String.append "h:") 5000 input db_two_tenants).2 in
  ∃ tenant,
    tn_id tenant = "100"
    ∧ login None (λ p h, bool_decide (h = "h:" +:+ p)) (λ _, None) 91400
        "carol@ohm.example" "secret-pw" None (mkWorld d' ∅)
      = (Ok (mkLoginOutput (signJWT None 91400 (mkIdentity "101" "100" "TENANT_ADMIN"))
               carol tenant),
         mkWorld d'
           (<[session_key "101"
                := (signJWT None 91400 (mkIdentity "101" "100" "TENANT_ADMIN"),
                    (91400 + 86400)%Z)]> ∅)).
Proof.
  apply (register_then_login None (String.append "h:")
           (λ p h, bool_decide (h = "h:" +:+ p)) (λ _, None) 5000
           (mkRegisterInput "carol@ohm.example" "secret-pw" "Carol" "C" None
              "Ohm" "ENTERPRISE")
           db_two_tenants
           (mkRegisterOutput (signJWT None 5000 (mkIdentity "101" "100" "TENANT_ADMIN"))
              (mkUser "101" "carol@ohm.example" (Some "h:secret-pw") "Carol" "C" None
                 "TENANT_ADMIN" "100" true)
              (mkTenant "100" "Ohm" "ENTERPRISE" true))
           _ 91400 ∅); reflexivity.
Defined.

(** ** Sessions: refresh and logout *)

(** Refresh behind authentication. When [authMiddleware] accepts a token
    for a caller, [refresh] with the same token at the same time succeeds:
    it stores the new token under the caller's session key for 24 hours,
    and the new token authenticates as the same caller during that time. *)
Theorem refresh_after_authMiddleware env_JWT_SECRET now token u (w : World) now' :
  authMiddleware env_JWT_SECRET now (Some token) (w_db w) = (Ok u, w_db w) →
  (now' < now + 86400)%Z →
  ∃ newToken,
    refresh env_JWT_SECRET now u (Some token) w
      = (Ok newToken,
         mkWorld (w_db w)
           (<[session_key (cu_id u) := (newToken, (now + 86400)%Z)]> (w_redis w)))
    ∧ authMiddleware env_JWT_SECRET now' (Some newToken) (w_db w) = (Ok u, w_db w).
Proof.
  destruct w as [d redis]. cbn [w_db w_redis].
  unfold authMiddleware, refresh, refreshToken, try_catchW, bindW, on_db,
    try_catch, bind, external, setex, retW. cbn [w_db w_redis].
  destruct (verifyJWT env_JWT_SECRET now token) as [decoded|e] eqn:Hv; [|done].
  intros Hauth Hvalid. eexists. split; [reflexivity|].
  rewrite verifyJWT_signJWT by done. cbn [jp_userId userId]. exact Hauth.
Qed.

(** alice's token of time 1000 is refreshed at time 2000 and the new one
    used at time 80000. *)
Lemma refresh_after_authMiddleware_witness :
  ∃ newToken,
    refresh None 2000 alice (Some (signJWT None 1000 (mkIdentity "u1" "T1" "OPERATOR")))
      (mkWorld db_two_tenants ∅)
      = (Ok newToken,
         mkWorld db_two_tenants
           (<[session_key (cu_id alice) := (newToken, (2000 + 86400)%Z)]> ∅))
    ∧ authMiddleware None 80000 (Some newToken) db_two_tenants = (Ok alice, db_two_tenants).
Proof.
  apply (refresh_after_authMiddleware None 2000
           (signJWT None 1000 (mkIdentity "u1" "T1" "OPERATOR")) alice
           (mkWorld db_two_tenants ∅) 80000); [reflexivity|lia].
Defined.

(** Logging out deletes the caller's session key and nothing else, and
    revokes nothing: the caller's token still authenticates until it
    expires, because [authMiddleware] never reads the session store. *)
Theorem logout_keeps_token env_JWT_SECRET now token u (w : World) :
  authMiddleware env_JWT_SECRET now (Some token) (w_db w) = (Ok u, w_db w) →
  ∃ w',
    logout u w = (Ok true, w')
    ∧ w_redis w' !! session_key (cu_id u) = None
    ∧ (∀ k, k ≠ session_key (cu_id u) → w_redis w' !! k = w_redis w !! k)
    ∧ authMiddleware env_JWT_SECRET now (Some token) (w_db w') = (Ok u, w_db w').
Proof.
  intros Hauth. unfold logout, bindW, del, retW. eexists. split; [reflexivity|].
  cbn [w_db w_redis]. split_and!; [apply lookup_delete_eq| |done].
  intros k Hk. by apply lookup_delete_ne.
Qed.

(** alice, logged in with a session in Redis, logs out. *)
Lemma logout_keeps_token_witness :
  let token := signJWT None 1000 (mkIdentity "u1" "T1" "OPERATOR") in
  let w := mkWorld db_two_tenants {[session_key "u1" := (token, 87400%Z)]} in
  ∃ w',
    logout alice w = (Ok true, w')
    ∧ w_redis w' !! session_key (cu_id alice) = None
    ∧ (∀ k, k ≠ session_key (cu_id alice) → w_redis w' !! k = w_redis w !! k)
    ∧ authMiddleware None 2000 (Some token) (w_db w') = (Ok alice, w_db w').
Proof.
  intros token w. apply (logout_keeps_token None 2000 token alice w). reflexivity.
Defined.

(** ** Changing the password *)

(** Replacing a row by one that the search cannot tell from it moves no
    search result. *)
Lemma list_find_insert_same {A} (P : A → Prop) `{!∀ x, Decision (P x)}
    (l : list A) i x y :
  l !! i = Some x → (P x ↔ P y) →
  list_find P (<[i := y]> l)
  = (λ jz, (jz.1, if decide (jz.1 = i) then y else jz.2)) <$> list_find P l.
Proof.
  revert i. induction l as [|z l IH]; intros i Hi HP; [done|].
  destruct i as [|i]; simpl in *.
  - injection Hi as ->. destruct (decide (P x)) as [Hx|Hx].
    + by rewrite decide_True by tauto.
    + rewrite decide_False by tauto.
      by destruct (list_find P l) as [[j v]|].
  - destruct (decide (P z)); [done|].
    rewrite (IH i Hi HP). destruct (list_find P l) as [[j v]|]; simpl; [|done].
    do 2 f_equal. destruct (decide (j = i)), (decide (S j = S i)); done || lia.
Qed.

(** [changePassword], by the caller's row and the current password. *)
Lemma changePassword_cases bcrypt_hash (bcrypt_compare : string → string → bool) u
    (currentPassword : string) newPassword d :
  match list_find (λ r, u_id r = cu_id u) (users d) with
  | None =>
      changePassword bcrypt_hash bcrypt_compare u currentPassword newPassword d
      = (Throw (TRPCError NOT_FOUND), d)
  | Some (i, user) =>
      match truthy (u_password user) with
      | None =>
          changePassword bcrypt_hash bcrypt_compare u currentPassword newPassword d
          = (Throw (TRPCError NOT_FOUND), d)
      | Some hash =>
          if bcrypt_compare currentPassword hash then
            changePassword bcrypt_hash bcrypt_compare u currentPassword newPassword d
            = (Ok true,
               set_rows Users
                 (<[i := set_password (bcrypt_hash newPassword) user]> (users d)) d)
          else
            changePassword bcrypt_hash bcrypt_compare u currentPassword newPassword d
            = (Throw (TRPCError UNAUTHORIZED), d)
      end
  end.
Proof.
  unfold changePassword, bind. cbn [ctx_prisma ctx_user protectedProcedure].
  rewrite (findUnique_raw Users _ (λ r : User, u_id r = cu_id u))
    by apply selects_user_id.
  cbn [rows Users].
  destruct (list_find (λ r : User, u_id r = cu_id u) (users d)) as [[i user]|] eqn:Hfind;
    simpl; [|done].
  destruct (truthy (u_password user)) as [hash|]; [|done].
  destruct (bcrypt_compare currentPassword hash); simpl; [|done].
  by rewrite (update_found Users RawClient _ _ d (λ r : User, u_id r = cu_id u) i user
                (selects_user_id (cu_id u)) Hfind).
Qed.

(** [changePassword] needs the caller's row and the current password:
    it either answers NOT_FOUND or UNAUTHORIZED and writes nothing, or it
    has checked the current password against the hash stored in the
    caller's row and replaces that hash with the hash of the new
    password, changing no other column and no other row. *)
Theorem changePassword_outcome bcrypt_hash bcrypt_compare u currentPassword newPassword d :
  let res := changePassword bcrypt_hash bcrypt_compare u currentPassword newPassword d in
  (res.2 = d
   ∧ (res.1 = Throw (TRPCError NOT_FOUND) ∨ res.1 = Throw (TRPCError UNAUTHORIZED)))
  ∨ (res.1 = Ok true
     ∧ ∃ i user hash,
         users d !! i = Some user
         ∧ u_id user = cu_id u
         ∧ u_password user = Some hash
         ∧ bcrypt_compare currentPassword hash = true
         ∧ res.2 = set_rows Users
                     (<[i := set_password (bcrypt_hash newPassword) user]> (users d)) d).
Proof.
  pose proof (changePassword_cases bcrypt_hash bcrypt_compare u currentPassword
                newPassword d) as Hcases.
  cbv zeta.
  destruct (list_find (λ r, u_id r = cu_id u) (users d)) as [[i user]|] eqn:Hfind;
    [|rewrite Hcases; left; split; [done|by left]].
  destruct (truthy (u_password user)) as [hash|] eqn:Hhash;
    [|rewrite Hcases; left; split; [done|by left]].
  destruct (bcrypt_compare currentPassword hash) eqn:Hpw;
    [|rewrite Hcases; left; split; [done|by right]].
  rewrite Hcases. right. split; [done|].
  apply list_find_Some in Hfind as (Hi & Hid & _).
  exists i, user, hash. split_and!; try done.
  unfold truthy in Hhash. destruct (u_password user) as [h|]; [|done].
  by destruct (decide (h = "")); simplify_eq.
Qed.

(** A password change revokes no token: whatever [authMiddleware]
    answered for a token before the change, it answers after it. *)
Theorem changePassword_keeps_tokens bcrypt_hash bcrypt_compare u currentPassword
    newPassword d d' env_JWT_SECRET now authorization :
  changePassword bcrypt_hash bcrypt_compare u currentPassword newPassword d
    = (Ok true, d') →
  (authMiddleware env_JWT_SECRET now authorization d').1
  = (authMiddleware env_JWT_SECRET now authorization d).1.
Proof.
  intros Hchange.
  pose proof (changePassword_cases bcrypt_hash bcrypt_compare u currentPassword
                newPassword d) as Hcases.
  destruct (list_find (λ r, u_id r = cu_id u) (users d)) as [[i user]|] eqn:Hfind;
    [|by rewrite Hcases in Hchange].
  destruct (truthy (u_password user)) as [hash|]; [|by rewrite Hcases in Hchange].
  destruct (bcrypt_compare currentPassword hash);
    [|by rewrite Hcases in Hchange].
  rewrite Hcases in Hchange. injection Hchange as <-.
  destruct authorization as [token|]; [|done].
  unfold authMiddleware, try_catch, bind, external.
  destruct (verifyJWT env_JWT_SECRET now token) as [decoded|e]; [|done].
  rewrite !(findUnique_raw Users _ (λ r : User, u_id r = jp_userId decoded))
    by apply selects_user_id.
  cbn [rows Users users set_rows].
  apply list_find_Some in Hfind as (Hi & _ & _).
  rewrite (list_find_insert_same _ _ i user) by done.
  destruct (list_find (λ r : User, u_id r = jp_userId decoded) (users d))
    as [[j v]|] eqn:Hfind'; simpl; [|done].
  destruct (decide (j = i)) as [->|]; [|by destruct (u_isActive v)].
  apply list_find_Some in Hfind' as (Hv & _ & _).
  rewrite Hi in Hv. injection Hv as <-. simpl. by destruct (u_isActive user).
Qed.

(** alice changes her password; her token of time 1000 is checked at
    time 2000 before and after. *)
Lemma changePassword_keeps_tokens_witness :
  (authMiddleware None 2000 (Some (signJWT None 1000 (mkIdentity "u1" "T1" "OPERATOR")))
     (changePassword (String.append "h:") (λ p h, bool_decide (h = "h" +:+ p))
        alice "1" "new-secret" db_two_tenants).2).1
  = (authMiddleware None 2000 (Some (signJWT None 1000 (mkIdentity "u1" "T1" "OPERATOR")))
       db_two_tenants).1.
Proof.
  apply (changePassword_keeps_tokens (String.append "h:")
           (λ p h, bool_decide (h = "h" +:+ p)) alice "1" "new-secret" db_two_tenants).
  reflexivity.
Defined.

(** ** Registering twice *)

(** Once an email is registered, every further registration under it is
    refused with CONFLICT, whatever its other fields, and writes nothing:
    no second tenant appears. *)
Theorem register_twice_conflict env_JWT_SECRET bcrypt_hash now input d out d' now'
    input' :
  register env_JWT_SECRET bcrypt_hash now input d = (Ok out, d') →
  ri_email input' = ri_email input →
  register env_JWT_SECRET bcrypt_hash now' input' d' = (Throw (TRPCError CONFLICT), d').
Proof.
  intros (_ & -> & ->)%register_ok_inv Hemail. unfold register, bind.
  rewrite (findUnique_raw Users _ (λ r : User, u_email r = ri_email input'))
    by apply selects_user_email.
  case_find as i existing Hfind; [done|].
  exfalso. apply list_find_None in Hfind. rewrite Forall_forall in Hfind.
  eapply Hfind.
  - simpl. apply elem_of_app. right. apply list_elem_of_here.
  - simpl. by rewrite Hemail.
Qed.

Lemma register_twice_conflict_witness :
  let input := mkRegisterInput "carol@ohm.example" "secret-pw" "Carol" "C" None
                 "Ohm" "ENTERPRISE" in
  let input' := mkRegisterInput "carol@ohm.example" "other-pw" "Caroline" "D" None
                  "Watt" "MANUFACTURER" in
  let d' := (register None (String.append "h:") 5000 input db_two_tenants).2 in
  register None (String.append "h:") 6000 input' d' = (Throw (TRPCError CONFLICT), d').
Proof.
  intros input input' d'.
  apply (register_twice_conflict None (String.append "h:") 5000 input db_two_tenants
           (mkRegisterOutput (signJWT None 5000 (mkIdentity "101" "100" "TENANT_ADMIN"))
              (mkUser "101" "carol@ohm.example" (Some "h:secret-pw") "Carol" "C" None
                 "TENANT_ADMIN" "100" true)
              (mkTenant "100" "Ohm" "ENTERPRISE" true))
           d' 6000 input'); reflexivity.
Defined.

(** ** Stations and ports *)

Lemma selects_port_id id (p : ChargingPort) : matches {["id" := JStr id]} p ↔ cp_id p = id.
Proof.
  rewrite matches_singleton. change (field p "id") with (Some (JStr (cp_id p))).
  split; [by intros [= ->]|by intros ->].
Qed.

Lemma selects_station_id id (s : Station) : matches {["id" := JStr id]} s ↔ st_id s = id.
Proof.
  rewrite matches_singleton. change (field s "id") with (Some (JStr (st_id s))).
  split; [by intros [= ->]|by intros ->].
Qed.

(** The station lookup of the tenant-scoped handlers, as a search. *)
Lemma findFirst_station_of_tenant u sid d :
  findFirst Stations (ctx_prisma (tenantProcedure u))
    (mkArgs (Some {["id" := JStr sid; "tenantId" := JStr (cu_tenantId u)]}) ()) d
  = (Ok (snd <$> list_find (λ s, st_id s = sid ∧ st_tenantId s = cu_tenantId u)
                   (stations d)), d).
Proof.
  unfold findFirst, findMany_rows. rewrite head_filter_list_find.
  do 3 f_equal. apply list_find_ext. intros s.
  apply selects_station_of_tenant. by_method_list.
Qed.

(** [updatePortStatus] sets the first port under the id to the requested
    status, whatever its status or sessions were and whoever calls, and
    changes nothing else. An unknown id makes Prisma throw; the caller
    sees an internal error, not NOT_FOUND, and nothing is written. *)
Theorem updatePortStatus_outcome u portId status d :
  match list_find (λ p, cp_id p = portId) (chargingPorts d) with
  | Some (i, p) =>
      let p' := mkChargingPort (cp_id p) (cp_stationId p) (cp_portNumber p)
                  (cp_connectorType p) (cp_powerOutput p) status in
      updatePortStatus u portId status d
      = (Ok p', set_rows ChargingPorts (<[i := p']> (chargingPorts d)) d)
  | None =>
      ∃ e, updatePortStatus u portId status d = (Throw e, d)
           ∧ response_code e = INTERNAL_SERVER_ERROR
  end.
Proof.
  unfold updatePortStatus. cbn [ctx_prisma protectedProcedure].
  destruct (list_find (λ p, cp_id p = portId) (chargingPorts d)) as [[i p]|] eqn:Hfind.
  - by rewrite (update_found ChargingPorts RawClient _ _ d (λ p, cp_id p = portId) i p
                  (selects_port_id portId) Hfind).
  - rewrite (update_missing ChargingPorts RawClient _ _ d (λ p, cp_id p = portId)
               (selects_port_id portId) Hfind).
    by eexists.
Qed.

(** [getById] answers NOT_FOUND exactly when no station has the id.
    Otherwise it returns the first station under the id with its ports, in
    table order, each with its ACTIVE sessions and no others. It never
    writes. *)
Theorem getById_outcome u id d :
  match list_find (λ s, st_id s = id) (stations d) with
  | None => getById u id d = (Throw (TRPCError NOT_FOUND), d)
  | Some (i, s) =>
      ∃ detail,
        getById u id d = (Ok detail, d)
        ∧ sd_station detail = s
        ∧ pd_port <$> sd_chargingPorts detail
          = filter (λ p, cp_stationId p = id) (chargingPorts d)
        ∧ ∀ pd, pd ∈ sd_chargingPorts detail →
            ∀ x, x ∈ pd_sessions pd
                 ↔ x ∈ chargingSessions d ∧ cs_portId x = cp_id (pd_port pd)
                   ∧ cs_status x = "ACTIVE"
  end.
Proof.
  unfold getById, bind. cbn [ctx_prisma protectedProcedure].
  rewrite (findUnique_raw Stations _ (λ s : Station, st_id s = id))
    by apply selects_station_id.
  cbn [rows Stations].
  destruct (list_find (λ s : Station, st_id s = id) (stations d)) as [[i s]|] eqn:Hfind;
    simpl; [|done].
  apply list_find_Some in Hfind as (_ & Hid & _).
  eexists. split; [reflexivity|]. unfold include_chargingPorts. simpl. split_and!.
  - done.
  - rewrite Hid, <- list_fmap_compose. apply list_fmap_id.
  - intros pd (p & -> & Hp)%list_elem_of_fmap x. simpl.
    rewrite list_elem_of_filter. tauto.
Qed.

(** alice's tenant [T1] has no station [s2]. *)
Lemma getRealtimeStats_other_tenant_witness :
  getRealtimeStats alice "s2" db_two_tenants = (Throw (TRPCError NOT_FOUND), db_two_tenants).
Proof.
  apply (getRealtimeStats_other_tenant alice "s2" db_two_tenants).
  apply (Forall_forall (λ s, st_id s = "s2" → st_tenantId s ≠ cu_tenantId alice)).
  repeat constructor; vm_compute; discriminate.
Defined.

Lemma addPort_other_tenant_witness :
  addPort alice "s2" 3 CCS2 50 db_two_tenants = (Throw (TRPCError NOT_FOUND), db_two_tenants).
Proof.
  apply (addPort_other_tenant alice "s2" 3 CCS2 50 db_two_tenants).
  apply (Forall_forall (λ s, st_id s = "s2" → st_tenantId s ≠ cu_tenantId alice)).
  repeat constructor; vm_compute; discriminate.
Defined.

(** The statistics of a station the caller's tenant owns. *)
Lemma getRealtimeStats_found u sid d s :
  s ∈ stations d → st_id s = sid → st_tenantId s = cu_tenantId u →
  ∃ s', st_id s' = sid
        ∧ getRealtimeStats u sid d = (Ok (stats_of (include_chargingPorts d s')), d).
Proof.
  intros Hin Hid Ht. unfold getRealtimeStats, bind.
  rewrite findFirst_station_of_tenant.
  case_find as i s' Hfind; simpl.
  - apply list_find_Some in Hfind as (_ & [Hid' _] & _). by exists s'.
  - apply list_find_None in Hfind. rewrite Forall_forall in Hfind.
    by destruct (Hfind s Hin).
Qed.

Lemma length_filter_snoc {A} (P : A → Prop) `{!∀ x, Decision (P x)} (l : list A) x :
  length (filter P ((l ++ [x])%list))
  = (length (filter P l) + if decide (P x) then 1 else 0)%nat.
Proof.
  rewrite filter_app, length_app. f_equal.
  rewrite filter_cons, filter_nil. by destruct (decide (P x)).
Qed.

(** Add a port, then read the statistics. On a station of the caller's
    tenant [addPort] stores an AVAILABLE port of that station, and the
    statistics read afterwards count one port more and one available port
    more than before, with the occupied count as it was. *)
Theorem addPort_then_getRealtimeStats u sid portNumber connectorType powerOutput d s :
  s ∈ stations d → st_id s = sid → st_tenantId s = cu_tenantId u →
  ∃ before port d' after,
    getRealtimeStats u sid d = (Ok before, d)
    ∧ addPort u sid portNumber connectorType powerOutput d = (Ok port, d')
    ∧ cp_stationId port = sid ∧ cp_status port = AVAILABLE
    ∧ chargingPorts d' = (chargingPorts d ++ [port])%list
    ∧ getRealtimeStats u sid d' = (Ok after, d')
    ∧ totalPorts after = S (totalPorts before)
    ∧ availablePorts after = S (availablePorts before)
    ∧ occupiedPorts after = occupiedPorts before
    ∧ outOfOrderPorts after = outOfOrderPorts before.
Proof.
  intros Hin Hid Ht.
  destruct (getRealtimeStats_found u sid d s Hin Hid Ht) as (s0 & Hs0 & Hbefore).
  set (port := mkChargingPort (pretty (next_id d)) sid portNumber connectorType
                 powerOutput AVAILABLE).
  set (d' := bump_id (set_rows ChargingPorts (chargingPorts d ++ [port]) d)).
  assert (addPort u sid portNumber connectorType powerOutput d = (Ok port, d')) as Hadd.
  { unfold addPort, bind. rewrite findFirst_station_of_tenant.
    case_find as i s' Hfind; simpl.
    - rewrite create_fresh; [done|]. intros r' _. by apply collides_no_uniques.
    - apply list_find_None in Hfind. rewrite Forall_forall in Hfind.
      by destruct (Hfind s Hin). }
  destruct (getRealtimeStats_found u sid d' s) as (s1 & Hs1 & Hafter); [done..|].
  exists (stats_of (include_chargingPorts d s0)), port, d',
    (stats_of (include_chargingPorts d' s1)).
  split_and!; try done.
  all: unfold stats_of, include_chargingPorts; simpl;
    rewrite Hs0, Hs1, ?length_fmap, ?length_ports_with by done.
  all: assert (filter (λ p, cp_stationId p = sid) ((chargingPorts d ++ [port])%list)
               = (filter (λ p, cp_stationId p = sid) (chargingPorts d) ++ [port])%list)
         as ->
         by (rewrite filter_app, filter_cons, filter_nil; by rewrite decide_True).
  all: rewrite ?length_filter_snoc, ?length_app; simpl; lia.
Qed.

(** bob adds a third port to his station [s2]. *)
Lemma addPort_then_getRealtimeStats_witness :
  ∃ before port d' after,
    getRealtimeStats bob "s2" db_two_tenants = (Ok before, db_two_tenants)
    ∧ addPort bob "s2" 3 CCS2 50 db_two_tenants = (Ok port, d')
    ∧ cp_stationId port = "s2" ∧ cp_status port = AVAILABLE
    ∧ chargingPorts d' = (chargingPorts db_two_tenants ++ [port])%list
    ∧ getRealtimeStats bob "s2" d' = (Ok after, d')
    ∧ totalPorts after = S (totalPorts before)
    ∧ availablePorts after = S (availablePorts before)
    ∧ occupiedPorts after = occupiedPorts before
    ∧ outOfOrderPorts after = outOfOrderPorts before.
Proof.
  apply (addPort_then_getRealtimeStats bob "s2" 3 CCS2 50 db_two_tenants station_s2);
    [apply list_elem_of_here|reflexivity|reflexivity].
Defined.

Lemma length_by_status (l : list ChargingPort) :
  length l
  = (length (filter (λ p, cp_status p = AVAILABLE) l)
     + length (filter (λ p, cp_status p = OCCUPIED) l)
     + length (filter (λ p, cp_status p = OUT_OF_ORDER) l)
     + length (filter (λ p, cp_status p = RESERVED ∨ cp_status p = MAINTENANCE) l))%nat.
Proof.
  induction l as [|p l IH]; [done|].
  rewrite !filter_cons. simpl. rewrite IH.
  destruct (cp_status p) eqn:Hst; repeat case_decide; simpl; try lia.
  all: exfalso; intuition congruence.
Qed.

(** The port counts of the statistics add up: a station's ports are its
    available, occupied and out-of-order ports together with those that
    are reserved or under maintenance, which the statistics do not
    report. *)
Theorem getRealtimeStats_counts u sid d s :
  s ∈ stations d → st_id s = sid → st_tenantId s = cu_tenantId u →
  ∃ stats,
    getRealtimeStats u sid d = (Ok stats, d)
    ∧ totalPorts stats
      = (availablePorts stats + occupiedPorts stats + outOfOrderPorts stats
         + length (filter (λ p, cp_status p = RESERVED ∨ cp_status p = MAINTENANCE)
                     (filter (λ p, cp_stationId p = sid) (chargingPorts d))))%nat.
Proof.
  intros Hin Hid Ht.
  destruct (getRealtimeStats_found u sid d s Hin Hid Ht) as (s0 & Hs0 & Hstats).
  eexists. split; [exact Hstats|].
  unfold stats_of, include_chargingPorts. simpl.
  rewrite Hs0, length_fmap, !length_ports_with by done.
  apply length_by_status.
Qed.

Lemma getRealtimeStats_counts_witness :
  ∃ stats,
    getRealtimeStats bob "s2" db_two_tenants = (Ok stats, db_two_tenants)
    ∧ totalPorts stats
      = (availablePorts stats + occupiedPorts stats + outOfOrderPorts stats
         + length (filter (λ p, cp_status p = RESERVED ∨ cp_status p = MAINTENANCE)
                     (filter (λ p, cp_stationId p = "s2")
                        (chargingPorts db_two_tenants))))%nat.
Proof.
  apply (getRealtimeStats_counts bob "s2" db_two_tenants station_s2);
    [apply list_elem_of_here|reflexivity|reflexivity].
Defined.

Lemma filter_none {A} (P : A → Prop) `{!∀ x, Decision (P x)} (l : list A) :
  (∀ x, x ∈ l → ¬ P x) → filter P l = [].
Proof.
  intros Hno. destruct (filter P l) as [|x k] eqn:Hf; [done|].
  assert (x ∈ filter P l) as [HP Hin]%list_elem_of_filter
    by (rewrite Hf; apply list_elem_of_here).
  by destruct (Hno x Hin).
Qed.

(** Create a station, then read its statistics. The new station belongs
    to the caller's tenant and has no port, whatever port count the
    request announced: its statistics show zero ports and a utilization
    that is not a number, and callers of other tenants get NOT_FOUND for
    it (the id the database hands out next not being in use). *)
Theorem station_create_then_getRealtimeStats station_isActive_default u input d :
  (∀ p, p ∈ chargingPorts d → cp_stationId p ≠ pretty (next_id d)) →
  (∀ s, s ∈ stations d → st_id s ≠ pretty (next_id d)) →
  ∃ station d' stats,
    station_create station_isActive_default u input d = (Ok (station, []), d')
    ∧ st_tenantId station = cu_tenantId u
    ∧ st_name station = csi_name input
    ∧ stations d' = (stations d ++ [station])%list
    ∧ chargingPorts d' = chargingPorts d
    ∧ getRealtimeStats u (st_id station) d' = (Ok stats, d')
    ∧ totalPorts stats = 0%nat
    ∧ utilizationRate stats = NaN
    ∧ ∀ u', cu_tenantId u' ≠ cu_tenantId u →
        getRealtimeStats u' (st_id station) d' = (Throw (TRPCError NOT_FOUND), d').
Proof.
  intros Hports Hids.
  set (station := mkStation (pretty (next_id d)) (cu_tenantId u) (csi_name input)
                    (csi_latitude input) (csi_longitude input) station_isActive_default).
  set (d' := bump_id (set_rows Stations (stations d ++ [station]) d)).
  assert (station_create station_isActive_default u input d = (Ok (station, []), d'))
    as Hcreate.
  { unfold station_create, bind.
    rewrite create_fresh by (intros r' _; by apply collides_no_uniques).
    unfold gets, ports_of. simpl. by rewrite filter_none. }
  destruct (getRealtimeStats_found u (pretty (next_id d)) d' station)
    as (s1 & Hs1 & Hstats); [|done|done|].
  { simpl. apply elem_of_app. right. apply list_elem_of_here. }
  exists station, d', (stats_of (include_chargingPorts d' s1)).
  split_and!; try done.
  - unfold stats_of, include_chargingPorts. simpl. by rewrite Hs1, filter_none.
  - unfold stats_of, include_chargingPorts. simpl. by rewrite Hs1, filter_none.
  - intros u' Hother. unfold getRealtimeStats, bind.
    rewrite findFirst_station_of_tenant.
    case_find as i s' Hfind; [|done]. exfalso.
    apply list_find_Some in Hfind as (Hi%list_elem_of_lookup_2 & [Hid Ht] & _).
    simpl in Hi. apply elem_of_app in Hi as [Hold|Hnew].
    + by apply (Hids s').
    + apply list_elem_of_singleton in Hnew. subst s'. by apply Hother.
Qed.

(** alice creates a station in the two-tenant database. *)
Lemma station_create_then_getRealtimeStats_witness :
  ∃ station d' stats,
    station_create true alice (mkCreateStationInput "Quay" (3778 # 100) (-12241 # 100))
      db_two_tenants
    = (Ok (station, []), d')
    ∧ st_tenantId station = cu_tenantId alice
    ∧ st_name station = "Quay"
    ∧ stations d' = (stations db_two_tenants ++ [station])%list
    ∧ chargingPorts d' = chargingPorts db_two_tenants
    ∧ getRealtimeStats alice (st_id station) d' = (Ok stats, d')
    ∧ totalPorts stats = 0%nat
    ∧ utilizationRate stats = NaN
    ∧ ∀ u', cu_tenantId u' ≠ cu_tenantId alice →
        getRealtimeStats u' (st_id station) d' = (Throw (TRPCError NOT_FOUND), d').
Proof.
  apply (station_create_then_getRealtimeStats true alice
           (mkCreateStationInput "Quay" (3778 # 100) (-12241 # 100)) db_two_tenants).
  - apply (Forall_forall (λ p, cp_stationId p ≠ pretty (next_id db_two_tenants))).
    repeat constructor; vm_compute; discriminate.
  - apply (Forall_forall (λ s, st_id s ≠ pretty (next_id db_two_tenants))).
    repeat constructor; vm_compute; discriminate.
Defined.

(** The filter [{ id, tenantId }] of [station.update], unwrapped: writes
    do not pass through the tenant proxy. *)
Lemma selects_station_id_tenant id t (s : Station) :
  matches {["id" := JStr id; "tenantId" := JStr t]} s ↔ st_id s = id ∧ st_tenantId s = t.
Proof.
  rewrite matches_insert_fresh by done. rewrite matches_singleton.
  change (field s "id") with (Some (JStr (st_id s))).
  change (field s "tenantId") with (Some (JStr (st_tenantId s))).
  split; [by intros [[= ->] [= ->]]|by intros [-> ->]].
Qed.

(** [station.update] changes the first station under the id that the
    caller's tenant owns: the fields the request carries take their new
    values, the others, the id and the owner stay, and nothing else is
    written. Without such a station (unknown id, or a station of another
    tenant) Prisma throws: the caller sees an internal error and nothing
    is written. *)
Theorem station_update_outcome u input d :
  match list_find (λ s, st_id s = usi_id input ∧ st_tenantId s = cu_tenantId u)
          (stations d) with
  | Some (i, s) =>
      ∃ s' ports,
        station_update u input d
        = (Ok (s', ports), set_rows Stations (<[i := s']> (stations d)) d)
        ∧ st_id s' = st_id s ∧ st_tenantId s' = st_tenantId s
        ∧ st_isActive s' = st_isActive s
        ∧ st_name s' = default (st_name s) (usi_name input)
        ∧ st_latitude s' = default (st_latitude s) (usi_latitude input)
        ∧ st_longitude s' = default (st_longitude s) (usi_longitude input)
        ∧ ports = filter (λ p, cp_stationId p = usi_id input) (chargingPorts d)
  | None =>
      ∃ e, station_update u input d = (Throw e, d)
           ∧ response_code e = INTERNAL_SERVER_ERROR
  end.
Proof.
  unfold station_update, bind. cbn [ctx_prisma ctx_user tenantProcedure].
  destruct (list_find (λ s, st_id s = usi_id input ∧ st_tenantId s = cu_tenantId u)
              (stations d)) as [[i s]|] eqn:Hfind.
  - rewrite (update_found Stations _ _ _ d
               (λ s, st_id s = usi_id input ∧ st_tenantId s = cu_tenantId u) i s
               (selects_station_id_tenant _ _) Hfind).
    apply list_find_Some in Hfind as (_ & [Hid _] & _).
    eexists _, _. split; [reflexivity|]. unfold ports_of. simpl.
    by rewrite Hid.
  - rewrite (update_missing Stations _ _ _ d
               (λ s, st_id s = usi_id input ∧ st_tenantId s = cu_tenantId u)
               (selects_station_id_tenant _ _) Hfind).
    by eexists.
Qed.

(** Whatever [station.update] is asked and whoever asks, the stations
    keep their ids, their owners and their active flags, in the same
    order; the stations of other tenants are unchanged, and so is every
    other table. *)
Theorem station_update_keeps_ownership u input d :
  let d' := (station_update u input d).2 in
  (λ s, (st_id s, st_tenantId s, st_isActive s)) <$> stations d'
  = (λ s, (st_id s, st_tenantId s, st_isActive s)) <$> stations d
  ∧ (∀ i s, stations d !! i = Some s → st_tenantId s ≠ cu_tenantId u →
            stations d' !! i = Some s)
  ∧ chargingPorts d' = chargingPorts d ∧ chargingSessions d' = chargingSessions d
  ∧ users d' = users d ∧ tenants d' = tenants d ∧ payments d' = payments d.
Proof.
  unfold station_update, bind. cbn [ctx_prisma ctx_user tenantProcedure].
  destruct (list_find (λ s, st_id s = usi_id input ∧ st_tenantId s = cu_tenantId u)
              (stations d)) as [[i s]|] eqn:Hfind.
  - rewrite (update_found Stations _ _ _ d
               (λ s, st_id s = usi_id input ∧ st_tenantId s = cu_tenantId u) i s
               (selects_station_id_tenant _ _) Hfind).
    apply list_find_Some in Hfind as (Hi & [Hid Ht] & _).
    simpl. split_and!; try done.
    + rewrite list_fmap_insert. simpl. apply list_insert_id.
      by rewrite list_lookup_fmap, Hi.
    + intros j s0 Hj Hother. rewrite list_lookup_insert_ne; [done|].
      intros <-. rewrite Hi in Hj. injection Hj as <-. by apply Hother.
  - rewrite (update_missing Stations _ _ _ d
               (λ s, st_id s = usi_id input ∧ st_tenantId s = cu_tenantId u)
               (selects_station_id_tenant _ _) Hfind).
    simpl. by split_and!.
Qed.

(** *** Paging *)

Lemma ceil_div_bounds total limit :
  (1 ≤ limit)%nat →
  (total ≤ ceil_div total limit * limit)%nat
  ∧ (ceil_div total limit * limit < total + limit)%nat.
Proof.
  intros Hl. unfold ceil_div.
  pose proof (Nat.div_mod_eq (total + limit - 1) limit) as Hdm.
  pose proof (Nat.mod_upper_bound (total + limit - 1) limit) as Hmod.
  lia.
Qed.

Lemma length_page_of {A} page limit (l : list A) :
  (length (page_of page limit l) ≤ limit)%nat.
Proof. unfold page_of. rewrite length_take. lia. Qed.

Lemma page_of_subseteq {A} page limit (l : list A) x :
  x ∈ page_of page limit l → x ∈ l.
Proof.
  unfold page_of. intros Hx%subseteq_take.
  eapply elem_of_sublist; [exact Hx|]. apply sublist_drop.
Qed.

Lemma page_of_beyond {A} page limit (l : list A) :
  (ceil_div (length l) limit < page)%nat → (1 ≤ limit)%nat → page_of page limit l = [].
Proof.
  intros Hp Hl. unfold page_of. rewrite drop_ge; [apply take_nil|].
  destruct (ceil_div_bounds (length l) limit Hl) as [Hle _]. nia.
Qed.

Lemma pages_take {A} limit (l : list A) m :
  mjoin ((λ k, page_of k limit l) <$> seq 1 m) = take (m * limit) l.
Proof.
  induction m as [|m IH]; [done|].
  rewrite seq_S, fmap_app, join_app, IH.
  change (mjoin ((λ k, page_of k limit l) <$> [(1 + m)%nat]))
    with (page_of (1 + m) limit l ++ [])%list.
  rewrite app_nil_r. unfold page_of.
  replace ((1 + m - 1) * limit)%nat with (m * limit)%nat by lia.
  rewrite take_take_drop. f_equal. lia.
Qed.

Lemma pages_cover {A} limit (l : list A) :
  (1 ≤ limit)%nat →
  mjoin ((λ k, page_of k limit l) <$> seq 1 (ceil_div (length l) limit)) = l.
Proof.
  intros Hl. rewrite pages_take. apply take_ge.
  by destruct (ceil_div_bounds (length l) limit Hl).
Qed.


(** The stations [list] selects: through the tenant client both of its
    reads are narrowed to the caller's tenant. *)
Lemma list_rows_tenant search_hit u m search d :
  m ∈ scoped_methods →
  list_rows search_hit (ctx_prisma (tenantProcedure u)) m (cu_tenantId u) search d
  = filter (λ s, st_tenantId s = cu_tenantId u ∧ search_ok search_hit search s = true)
      (stations d).
Proof.
  intros Hm. unfold list_rows. apply list_filter_iff. intros s.
  unfold tenantProcedure, ctx_prisma. rewrite through_scoped by done. simpl.
  rewrite insert_singleton_eq, matches_singleton.
  change (field s "tenantId") with (Some (JStr (st_tenantId s))).
  split; (intros [Ht Hs]; split; [congruence|done]).
Qed.

Lemma station_list_valid search_hit u page limit search d :
  (1 ≤ page)%nat → (1 ≤ limit ≤ 100)%nat →
  station_list search_hit u page limit search d
  = let mine := filter (λ s, st_tenantId s = cu_tenantId u
                             ∧ search_ok search_hit search s = true) (stations d) in
    (Ok (listed d <$> page_of page limit (reverse mine),
         mkPagination page limit (length mine) (ceil_div (length mine) limit)), d).
Proof.
  intros Hp [Hl Hl']. unfold station_list.
  replace (1 <=? page)%nat with true by (symmetry; apply Nat.leb_le; lia).
  replace (1 <=? limit)%nat with true by (symmetry; apply Nat.leb_le; lia).
  replace (limit <=? 100)%nat with true by (symmetry; apply Nat.leb_le; lia).
  cbn [negb andb]. unfold bind, gets.
  change (cu_tenantId (ctx_user (tenantProcedure u))) with (cu_tenantId u).
  rewrite !list_rows_tenant by (by_method_list). done.
Qed.

Lemma listed_ports d s :
  ls_station (listed d s) = s
  ∧ (ls_availablePorts (listed d s) + ls_occupiedPorts (listed d s)
     ≤ length (ls_chargingPorts (listed d s)))%nat.
Proof.
  split; [done|]. unfold listed. simpl. rewrite length_fmap.
  rewrite (length_by_status (ports_of d s)). lia.
Qed.

(** A page of [station.list], for a page from 1 and a limit from 1 to
    100: at most [limit] stations, each one a station of the database that
    the caller's tenant owns and that passes the search, with no more
    available and occupied ports than it has ports; [total] counts all
    such stations, and [pages] is the least number of pages of [limit]
    that hold them. Nothing is written. *)
Theorem station_list_page search_hit u page limit search d :
  (1 ≤ page)%nat → (1 ≤ limit ≤ 100)%nat →
  ∃ answer pg,
    station_list search_hit u page limit search d = (Ok (answer, pg), d)
    ∧ (length answer ≤ limit)%nat
    ∧ (∀ ls, ls ∈ answer →
         ls_station ls ∈ stations d
         ∧ st_tenantId (ls_station ls) = cu_tenantId u
         ∧ search_ok search_hit search (ls_station ls) = true
         ∧ (ls_availablePorts ls + ls_occupiedPorts ls
            ≤ length (ls_chargingPorts ls))%nat)
    ∧ pg_total pg
      = length (filter (λ s, st_tenantId s = cu_tenantId u
                             ∧ search_ok search_hit search s = true) (stations d))
    ∧ (pg_total pg ≤ pg_pages pg * limit)%nat
    ∧ (pg_pages pg * limit < pg_total pg + limit)%nat.
Proof.
  intros Hp Hl. rewrite station_list_valid by done. cbv zeta.
  eexists _, _. split; [reflexivity|]. simpl. split_and!.
  - rewrite length_fmap. apply length_page_of.
  - intros ls (s & -> & Hs%page_of_subseteq)%list_elem_of_fmap.
    apply elem_of_reverse, list_elem_of_filter in Hs as [[Ht Hq] Hin].
    destruct (listed_ports d s) as [-> Hports]. done.
  - done.
  - apply ceil_div_bounds. lia.
  - apply ceil_div_bounds. lia.
Qed.


(** alice asks for the first page of two of the stations of her tenant,
    which owns three, without a search text. *)
Lemma station_list_page_witness :
  ∃ answer pg,
    station_list (λ _ _, true) alice 1 2 None db_nearby
    = (Ok (answer, pg), db_nearby)
    ∧ (length answer ≤ 2)%nat
    ∧ (∀ ls, ls ∈ answer →
         ls_station ls ∈ stations db_nearby
         ∧ st_tenantId (ls_station ls) = cu_tenantId alice
         ∧ search_ok (λ _ _, true) None (ls_station ls) = true
         ∧ (ls_availablePorts ls + ls_occupiedPorts ls
            ≤ length (ls_chargingPorts ls))%nat)
    ∧ pg_total pg
      = length (filter (λ s, st_tenantId s = cu_tenantId alice
                             ∧ search_ok (λ _ _, true) None s = true)
                  (stations db_nearby))
    ∧ (pg_total pg ≤ pg_pages pg * 2)%nat
    ∧ (pg_pages pg * 2 < pg_total pg + 2)%nat.
Proof.
  apply (station_list_page (λ _ _, true) alice 1 2 None db_nearby); lia.
Defined.

(** That page: the two stations created last, [s4] with its occupied port
    and [s6] without a port, of three stations on two pages; the station
    [s2] of the other tenant is not counted. *)
Example station_list_first_page :
  station_list (λ _ _, true) alice 1 2 None db_nearby
  = (Ok ([mkListedStation station_s4 [(port_p4, 0%nat)] 0 1;
          mkListedStation station_s6 [] 0 0],
         mkPagination 1 2 3 2),
     db_nearby).
Proof. reflexivity. Qed.


(** The filter [{ userId }] of [getPaymentHistory]. *)
Lemma selects_payment_user uid (p : Payment) :
  matches {["userId" := JStr uid]} p ↔ pay_userId p = uid.
Proof.
  rewrite matches_singleton.
  change (field p "userId") with (Some (JStr (pay_userId p))).
  split; [by intros [= ->]|by intros ->].
Qed.

Lemma getPaymentHistory_valid u page limit d :
  (1 ≤ page)%nat → (1 ≤ limit ≤ 50)%nat →
  getPaymentHistory u page limit d
  = let mine := filter (λ p, pay_userId p = cu_id u) (payments d) in
    (Ok (page_of page limit (reverse mine),
         mkPagination page limit (length mine) (ceil_div (length mine) limit)), d).
Proof.
  intros Hp [Hl Hl']. unfold getPaymentHistory.
  replace (1 <=? page)%nat with true by (symmetry; apply Nat.leb_le; lia).
  replace (1 <=? limit)%nat with true by (symmetry; apply Nat.leb_le; lia).
  replace (limit <=? 50)%nat with true by (symmetry; apply Nat.leb_le; lia).
  cbn [negb andb]. unfold bind, findMany, count, ret, findMany_rows. simpl.
  by rewrite (list_filter_iff _ (λ p, pay_userId p = cu_id u) (payments d)
                (selects_payment_user (cu_id u))).
Qed.

(** [getPaymentHistory], for a limit from 1 to 50: every page from the
    first to the last that [pages] announces is answered, holds at most
    [limit] payments and reports the number of the caller's payments as
    [total]; between them the pages hold the caller's own payments and no
    others, each once, latest first; every page after the last is empty.
    Nothing is written. *)
Theorem getPaymentHistory_pages_cover u limit d :
  (1 ≤ limit ≤ 50)%nat →
  ∃ pages answers,
    Forall2 (λ k answer,
               ∃ pg, getPaymentHistory u k limit d = (Ok (answer, pg), d)
                     ∧ pg_pages pg = pages
                     ∧ pg_total pg
                       = length (filter (λ p, pay_userId p = cu_id u) (payments d))
                     ∧ (length answer ≤ limit)%nat)
      (seq 1 pages) answers
    ∧ mjoin answers = reverse (filter (λ p, pay_userId p = cu_id u) (payments d))
    ∧ (length (filter (λ p, pay_userId p = cu_id u) (payments d)) ≤ pages * limit)%nat
    ∧ (pages * limit
       < length (filter (λ p, pay_userId p = cu_id u) (payments d)) + limit)%nat
    ∧ ∀ k, (pages < k)%nat →
        ∃ pg, getPaymentHistory u k limit d = (Ok ([], pg), d).
Proof.
  intros Hl.
  set (mine := filter (λ p, pay_userId p = cu_id u) (payments d)).
  exists (ceil_div (length mine) limit),
         ((λ k, page_of k limit (reverse mine))
            <$> seq 1 (ceil_div (length mine) limit)).
  split_and!.
  - apply Forall2_fmap_r, Forall_Forall2_diag, Forall_forall.
    intros k [Hk _]%elem_of_seq.
    rewrite getPaymentHistory_valid by done. cbv zeta. fold mine.
    eexists. split; [reflexivity|]. simpl. split_and!; [done..|].
    apply length_page_of.
  - etransitivity; [|apply (pages_cover limit (reverse mine)); lia].
    by rewrite length_reverse.
  - apply ceil_div_bounds. lia.
  - apply ceil_div_bounds. lia.
  - intros k Hk. rewrite getPaymentHistory_valid by (done || lia). cbv zeta.
    fold mine. rewrite page_of_beyond; [by eexists|by rewrite length_reverse|lia].
Qed.

(** alice pages through her payments two at a time. *)
Lemma getPaymentHistory_pages_cover_witness :
  ∃ pages answers,
    Forall2 (λ k answer,
               ∃ pg, getPaymentHistory alice k 2 db_payments
                     = (Ok (answer, pg), db_payments)
                     ∧ pg_pages pg = pages
                     ∧ pg_total pg
                       = length (filter (λ p, pay_userId p = cu_id alice)
                                   (payments db_payments))
                     ∧ (length answer ≤ 2)%nat)
      (seq 1 pages) answers
    ∧ mjoin answers
      = reverse (filter (λ p, pay_userId p = cu_id alice) (payments db_payments))
    ∧ (length (filter (λ p, pay_userId p = cu_id alice) (payments db_payments))
       ≤ pages * 2)%nat
    ∧ (pages * 2
       < length (filter (λ p, pay_userId p = cu_id alice) (payments db_payments)) + 2)%nat
    ∧ ∀ k, (pages < k)%nat →
        ∃ pg, getPaymentHistory alice k 2 db_payments = (Ok ([], pg), db_payments).
Proof.
  apply (getPaymentHistory_pages_cover alice 2 db_payments); lia.
Defined.

(** ** Payments, continued *)

Lemma update_outcome `{Model R} (T : Table R) c (a : args (R → R)) d :
  update T c a d = (Throw PrismaNotFound, d)
  ∨ ∃ r l, update T c a d = (Ok r, set_rows T l d).
Proof.
  unfold update. destruct (update_rows _ _ _) as [[r l]|]; [right|left]; [|done].
  by exists r, l.
Qed.

Lemma selects_payment_id pid (p : Payment) :
  matches {["id" := JStr pid]} p ↔ pay_id p = pid.
Proof.
  rewrite matches_singleton. change (field p "id") with (Some (JStr (pay_id p))).
  split; [by intros [= ->]|by intros ->].
Qed.

(** [confirmPayment] runs its updates one after the other, outside any
    transaction. When the provider reports success and the caller's
    payment names a session that is not in the database, the payment has
    been marked COMPLETED by the time the session update throws: the
    caller receives an internal error, the payment stays COMPLETED, and
    neither a session nor a booking is updated. *)
Theorem confirmPayment_missing_session stripe now u ref paymentMethodId d intent i p sid :
  paymentIntents_retrieve stripe ref = Ok intent →
  pi_status intent = "succeeded" →
  list_find (λ p, pay_stripePaymentId p = Some ref ∧ pay_userId p = cu_id u) (payments d)
    = Some (i, p) →
  truthy (pay_sessionId p) = Some sid →
  (∀ s, s ∈ chargingSessions d → cs_id s ≠ sid) →
  ∃ d',
    confirmPayment stripe now u ref paymentMethodId d
      = (Throw (TRPCError INTERNAL_SERVER_ERROR), d')
    ∧ payments d'
      = <[i := set_payment COMPLETED
                 {["paymentMethodId" := JStr paymentMethodId; "confirmedAt" := JStr now]} p]>
          (payments d)
    ∧ (∃ p', payments d' !! i = Some p' ∧ pay_id p' = pay_id p
             ∧ pay_status p' = COMPLETED)
    ∧ chargingSessions d' = chargingSessions d
    ∧ bookings d' = bookings d.
Proof.
  intros Hintent Hstatus Hfind Hsid Hnone.
  unfold confirmPayment, try_catch, bind, external. rewrite Hintent.
  rewrite decide_False by (intros Hne; by apply Hne).
  simpl ctx_prisma. simpl ctx_user.
  rewrite (update_found Payments RawClient _ _ d _ i p (selects_payment_ref ref (cu_id u)) Hfind).
  cbn [pay_sessionId pay_bookingId pay_amount pay_id pay_status set_payment].
  unfold ret. cbv beta iota. rewrite Hsid.
  match goal with |- context [update ChargingSessions ?c _ ?d1] =>
    rewrite (update_missing ChargingSessions c _ _ d1 (λ s, cs_id s = sid)
               (selects_session_id sid)) end.
  - eexists. split; [reflexivity|]. simpl. split_and!; try done.
    apply list_find_Some in Hfind as (Hi & _).
    eexists. split; [apply list_lookup_insert_eq; by eapply lookup_lt_Some|done].
  - apply list_find_None, Forall_forall. intros s Hs. by apply Hnone.
Qed.

(** alice confirms [pay1] after its session has gone. *)
Lemma confirmPayment_missing_session_witness :
  ∃ d',
    confirmPayment (stripe_with "pi_a" "succeeded") "2024-05-01T10:00:00.000Z" alice
      "pi_1" "pm_1" db_dangling
      = (Throw (TRPCError INTERNAL_SERVER_ERROR), d')
    ∧ payments d'
      = <[0%nat := set_payment COMPLETED
                 {["paymentMethodId" := JStr "pm_1";
                   "confirmedAt" := JStr "2024-05-01T10:00:00.000Z"]} pay1]>
          (payments db_dangling)
    ∧ (∃ p', payments d' !! 0%nat = Some p' ∧ pay_id p' = pay_id pay1
             ∧ pay_status p' = COMPLETED)
    ∧ chargingSessions d' = chargingSessions db_dangling
    ∧ bookings d' = bookings db_dangling.
Proof.
  apply (confirmPayment_missing_session (stripe_with "pi_a" "succeeded")
           "2024-05-01T10:00:00.000Z" alice "pi_1" "pm_1" db_dangling
           (mkPaymentIntent "pi_1" None "succeeded") 0 pay1 "sess1");
    [reflexivity..|].
  apply (Forall_forall (λ s, cs_id s ≠ "sess1")).
  repeat constructor; vm_compute; discriminate.
Defined.

(** Whatever the provider answers and whether it succeeds or fails,
    [confirmPayment] leaves the payments of every other user as they
    were, at their places, and never writes to the tenants, the users,
    the stations or the ports. *)
Theorem confirmPayment_keeps_other_users stripe now u ref paymentMethodId d :
  let d' := (confirmPayment stripe now u ref paymentMethodId d).2 in
  length (payments d') = length (payments d)
  ∧ (∀ j q, payments d !! j = Some q → pay_userId q ≠ cu_id u →
            payments d' !! j = Some q)
  ∧ tenants d' = tenants d ∧ users d' = users d
  ∧ stations d' = stations d ∧ chargingPorts d' = chargingPorts d.
Proof.
  unfold confirmPayment, try_catch, bind, external.
  destruct (paymentIntents_retrieve stripe ref) as [intent|e]; [|by simpl].
  destruct (decide (pi_status intent ≠ "succeeded")); [by simpl|].
  simpl ctx_prisma. simpl ctx_user.
  destruct (list_find (λ p, pay_stripePaymentId p = Some ref ∧ pay_userId p = cu_id u)
              (payments d)) as [[i p]|] eqn:Hfind.
  - rewrite (update_found Payments RawClient _ _ d _ i p
               (selects_payment_ref ref (cu_id u)) Hfind).
    apply list_find_Some in Hfind as (Hi & [_ Hu] & _).
    assert (∀ j q, payments d !! j = Some q → pay_userId q ≠ cu_id u →
                   <[i := set_payment COMPLETED
                            {["paymentMethodId" := JStr paymentMethodId;
                              "confirmedAt" := JStr now]} p]> (payments d) !! j = Some q)
      as Hothers.
    { intros j q Hj Hq. rewrite list_lookup_insert_ne; [done|].
      intros <-. rewrite Hi in Hj. injection Hj as <-. by apply Hq. }
    cbn [pay_sessionId pay_bookingId pay_amount pay_id pay_status set_payment].
    unfold ret. cbv beta iota.
    destruct (truthy (pay_sessionId p)) as [sid|].
    + match goal with |- context [update ChargingSessions ?c ?a ?d1] =>
        destruct (update_outcome ChargingSessions c a d1) as [-> | (s & l & ->)] end.
      { simpl. rewrite length_insert. by split_and!. }
      cbv beta iota.
      destruct (truthy (pay_bookingId p)) as [bid|].
      * match goal with |- context [update Bookings ?c ?a ?d1] =>
          destruct (update_outcome Bookings c a d1) as [-> | (b & l' & ->)] end;
          simpl; rewrite length_insert; by split_and!.
      * simpl. rewrite length_insert. by split_and!.
    + destruct (truthy (pay_bookingId p)) as [bid|].
      * match goal with |- context [update Bookings ?c ?a ?d1] =>
          destruct (update_outcome Bookings c a d1) as [-> | (b & l' & ->)] end;
          simpl; rewrite length_insert; by split_and!.
      * simpl. rewrite length_insert. by split_and!.
  - rewrite (update_missing Payments RawClient _ _ d _
               (selects_payment_ref ref (cu_id u)) Hfind).
    by simpl.
Qed.

(** Under a key, the first row with the key of a row is that row. *)
Lemma list_find_key {A B} `{EqDecision B} (f : A → B) (l : list A) i x :
  NoDup (f <$> l) → l !! i = Some x →
  list_find (λ y, f y = f x) l = Some (i, x).
Proof.
  intros Hkey Hi. apply list_find_Some. split_and!; [done..|].
  intros j y Hj Hlt Heq.
  assert (j = i); [|lia].
  apply (NoDup_lookup (f <$> l) j i (f x)); [done|..].
  - by rewrite list_lookup_fmap, Hj, <- Heq.
  - by rewrite list_lookup_fmap, Hi.
Qed.

(** A refund, once. With payment ids unique, a COMPLETED payment of the
    caller that carries a provider reference, and a provider that grants
    the refund, [refundPayment] answers with the refund's id, its amount
    in currency units (the number that JavaScript's [cents / 100] gives)
    and its status; the payment becomes REFUNDED, also when the refund is
    partial, and its metadata gains the refund's id, time and amount; no
    other payment and no session or booking changes. After that, every
    further refund of the same payment fails with an internal error and
    writes nothing. *)
Theorem refundPayment_once stripe now u pid amount reason d i p sref refund :
  NoDup (pay_id <$> payments d) →
  list_find (λ p, pay_id p = pid ∧ pay_userId p = cu_id u ∧ pay_status p = COMPLETED)
    (payments d) = Some (i, p) →
  truthy (pay_stripePaymentId p) = Some sref →
  refunds_create stripe
    (mkRefundParams sref (refund_cents amount) reason
       {["originalPaymentId" := pid; "userId" := cu_id u]}) = Ok refund →
  ∃ d',
    refundPayment stripe now u pid amount reason d
    = (Ok (mkRefundPaymentOutput (rf_id refund) (js_hundredth (rf_amount refund))
             (rf_status refund)), d')
    ∧ payments d'
      = <[i := set_payment REFUNDED
                 (<["refundAmount" := JNum (js_hundredth (rf_amount refund))]>
                    (<["refundedAt" := JStr now]>
                       (<["refundId" := JStr (rf_id refund)]> (pay_metadata p)))) p]>
          (payments d)
    ∧ chargingSessions d' = chargingSessions d ∧ bookings d' = bookings d
    ∧ ∀ stripe' now' amount' reason',
        refundPayment stripe' now' u pid amount' reason' d'
        = (Throw (TRPCError INTERNAL_SERVER_ERROR), d').
Proof.
  intros Hkey Hfind Href Hrefund.
  pose proof Hfind as (Hi & (Hid & Hu & Hst) & _)%list_find_Some.
  assert (list_find (λ q, pay_id q = pid) (payments d) = Some (i, p)) as Hfirst.
  { rewrite <- Hid. by apply list_find_key. }
  unfold refundPayment, try_catch, bind. simpl ctx_prisma. simpl ctx_user.
  rewrite (findFirst_raw Payments _
             (λ p, pay_id p = pid ∧ pay_userId p = cu_id u ∧ pay_status p = COMPLETED)
             d (selects_refundable pid (cu_id u))).
  change (rows Payments d) with (payments d). rewrite Hfind. simpl.
  rewrite Href. unfold external. rewrite Hrefund.
  rewrite (update_found Payments RawClient _ _ d _ i p (selects_payment_id pid) Hfirst).
  unfold ret. eexists. split; [reflexivity|]. do 3 (split; [reflexivity|]).
  intros stripe' now' amount' reason'. apply refundPayment_not_completed.
  simpl. intros q [j Hj]%list_elem_of_lookup_1 Hq.
  destruct (decide (j = i)) as [->|Hne].
  - rewrite list_lookup_insert_eq in Hj by (by eapply lookup_lt_Some).
    by injection Hj as <-.
  - rewrite list_lookup_insert_ne in Hj by done.
    destruct Hne. apply (NoDup_lookup (pay_id <$> payments d) j i pid); [done|..].
    + by rewrite list_lookup_fmap, Hj, <- Hq.
    + by rewrite list_lookup_fmap, Hi, <- Hid.
Qed.

(** alice has 0.29 of her completed payment [pay2] refunded: the handler
    asks the provider for [Math.round(0.29 * 100)], 29 cents, and reports
    [29 / 100]. *)
Lemma refundPayment_once_witness :
  ∃ d',
    refundPayment (stripe_with "pi_a" "succeeded") "2024-05-01T10:00:00.000Z" alice
      "pay2" (Some number_0_29) "requested_by_customer" db_payments
    = (Ok (mkRefundPaymentOutput "re_1" (js_hundredth 29) "succeeded"), d')
    ∧ payments d'
      = <[1%nat := set_payment REFUNDED
                 (<["refundAmount" := JNum (js_hundredth 29)]>
                    (<["refundedAt" := JStr "2024-05-01T10:00:00.000Z"]>
                       (<["refundId" := JStr "re_1"]> (pay_metadata pay2)))) pay2]>
          (payments db_payments)
    ∧ chargingSessions d' = chargingSessions db_payments
    ∧ bookings d' = bookings db_payments
    ∧ ∀ stripe' now' amount' reason',
        refundPayment stripe' now' alice "pay2" amount' reason' d'
        = (Throw (TRPCError INTERNAL_SERVER_ERROR), d').
Proof.
  apply (refundPayment_once (stripe_with "pi_a" "succeeded") "2024-05-01T10:00:00.000Z"
           alice "pay2" (Some number_0_29) "requested_by_customer" db_payments 1 pay2
           "pi_2" (mkRefund "re_1" 29 "succeeded"));
    [|by vm_compute..].
  apply (bool_decide_unpack _). by vm_compute.
Defined.

(** The arithmetic of the amounts is JavaScript's: [0.29 * 100] is
    28.999999999999996, which [Math.round] takes to 29, and [1 / 100] is
    the number 0.01, which is not the fraction 1/100. *)
Example js_amounts :
  js_mul number_0_29 100 = 8162774324609023 # 281474976710656
  ∧ Math_round (js_mul number_0_29 100) = 29%Z
  ∧ refund_cents (Some number_0_29) = Some 29%Z
  ∧ js_hundredth 29 = number_0_29
  ∧ js_hundredth 1 = 5764607523034235 # 576460752303423488
  ∧ ¬ (js_hundredth 1 == 1 # 100)%Q
  ∧ js_hundredth 4000 = 40%Q.
Proof.
  split_and!; by vm_compute.
Qed.

(** A refund that fails has written nothing: [refundPayment] either
    answers, or fails with an internal error and leaves the database as
    it was, whether the payment was missing, not the caller's, not
    COMPLETED or without a provider reference, or the provider refused. *)
Theorem refundPayment_fails_clean stripe now u pid amount reason d :
  (∃ r d', refundPayment stripe now u pid amount reason d = (Ok r, d'))
  ∨ refundPayment stripe now u pid amount reason d
    = (Throw (TRPCError INTERNAL_SERVER_ERROR), d).
Proof.
  unfold refundPayment, try_catch, bind. simpl ctx_prisma. simpl ctx_user.
  rewrite (findFirst_raw Payments _
             (λ p, pay_id p = pid ∧ pay_userId p = cu_id u ∧ pay_status p = COMPLETED)
             d (selects_refundable pid (cu_id u))).
  case_find as i p Hfind; simpl; [|by right].
  destruct (truthy (pay_stripePaymentId p)) as [sref|]; simpl; [|by right].
  unfold external.
  destruct (refunds_create stripe _) as [refund|e]; [|by right].
  match goal with |- context [update Payments ?c ?a d] =>
    destruct (update_outcome Payments c a d) as [-> | (q & l & ->)] end;
    [by right|left]. by eexists _, _.
Qed.

(** A payment intent that fails leaves no payment behind:
    [createPaymentIntent] either answers, or fails with an internal error
    and leaves the database as it was, whether the provider refused or
    the payment could not be stored. *)
Theorem createPaymentIntent_fails_clean stripe u input d :
  (∃ r d', createPaymentIntent stripe u input d = (Ok r, d'))
  ∨ createPaymentIntent stripe u input d
    = (Throw (TRPCError INTERNAL_SERVER_ERROR), d).
Proof.
  unfold createPaymentIntent, try_catch, bind, external.
  destruct (paymentIntents_create stripe _) as [intent|e]; [|by right].
  match goal with |- context [create ?T ?c ?a d] =>
    destruct (create_outcome T c a d) as [-> | ->] end; [left|by right].
  by eexists _, _.
Qed.
